(** * The Post model of Ghost: save, update and permission hooks

    A shallow embedding of [core/server/models/post.js] (stored in this
    tree as the second document of
    [src/core/server/adapters/storage/LocalFileStorage.js]) and proofs
    about its publication state machine, revision log, slug policy,
    change events and permission gate; then of the query functions of
    the model, of the storage adapter of that file, and of the meta
    data and state key helpers of the frontend.

    Layout:
    - [JS]        JavaScript values, truthiness, [===] and deep equality;
    - [Bookshelf] the model object ([get], [set], [previous], [hasChanged]);
    - [Hook]      the promise monad the hooks run in (state, clock, rejection);
    - the hooks of the model ([onSaving], [onSaved], [onUpdated],
      [onDestroyed], [permissible], [add]) over their collaborators;
    - [Query], [Lodash] and the query functions ([extraFilters],
      [toJSON], [permittedOptions], [defaultRelations], ...);
    - [LocalFileStore] the storage adapter, [Meta] the meta data of the
      frontend, and the state key helper;
    - the properties, from the frames of the single steps up to the
      statements about a whole save. *)

From Stdlib Require Import ZArith List Bool String Lia Sorted.
From stdpp Require Import base option gmap strings list.

Local Open Scope string_scope.

(** ** JavaScript values *)
Module JS.

(** Attribute values.  Numbers are integers (timestamps, ids); [NaN] and
    fractions do not occur in the hooks modelled here.  A [Date] carries
    its time value in milliseconds, [None] being [Invalid Date].  Objects
    are property lists. *)
#[local] Set Warnings "-register-all".

Inductive jsval : Type :=
| JUndefined
| JNull
| JBool (b : bool)
| JNum (n : Z)
| JStr (s : string)
| JDate (t : option Z)
| JArr (l : list jsval)
| JObj (l : list (string * jsval)).

(** [!!v] *)
Definition truthy (v : jsval) : bool :=
  match v with
  | JUndefined | JNull => false
  | JBool b => b
  | JNum n => negb (n =? 0)%Z
  | JStr s => negb (String.eqb s "")
  | JDate _ | JArr _ | JObj _ => true
  end.

(** [a === b].  Dates, arrays and objects compare by reference in
    JavaScript; references are not tracked here and two compound values
    are taken to be distinct objects. *)
Definition strict_eq (a b : jsval) : bool :=
  match a, b with
  | JUndefined, JUndefined => true
  | JNull, JNull => true
  | JBool x, JBool y => Bool.eqb x y
  | JNum x, JNum y => (x =? y)%Z
  | JStr x, JStr y => String.eqb x y
  | _, _ => false
  end.

Definition opt_Z_eqb (x y : option Z) : bool :=
  match x, y with
  | Some a, Some b => (a =? b)%Z
  | None, None => true
  | _, _ => false
  end.

(** [_.isEqual(a, b)]: deep comparison.  Dates compare by time value,
    arrays element by element, objects property by property (in the
    order of the property list). *)
Fixpoint isEqual (a b : jsval) {struct a} : bool :=
  match a, b with
  | JUndefined, JUndefined => true
  | JNull, JNull => true
  | JBool x, JBool y => Bool.eqb x y
  | JNum x, JNum y => (x =? y)%Z
  | JStr x, JStr y => String.eqb x y
  | JDate x, JDate y => opt_Z_eqb x y
  | JArr x, JArr y =>
      (fix all2 (l1 l2 : list jsval) {struct l1} : bool :=
         match l1, l2 with
         | [], [] => true
         | u :: l1', v :: l2' => isEqual u v && all2 l1' l2'
         | _, _ => false
         end) x y
  | JObj x, JObj y =>
      (fix props (l1 l2 : list (string * jsval)) {struct l1} : bool :=
         match l1, l2 with
         | [], [] => true
         | (k, u) :: l1', (k', v) :: l2' =>
             String.eqb k k' && isEqual u v && props l1' l2'
         | _, _ => false
         end) x y
  | _, _ => false
  end.

(** [o[k]] on a value: property lookup in an object, [undefined] on
    anything else. *)
Fixpoint assoc (k : string) (l : list (string * jsval)) : jsval :=
  match l with
  | [] => JUndefined
  | (k', v) :: l' => if String.eqb k k' then v else assoc k l'
  end.

Definition prop (v : jsval) (k : string) : jsval :=
  match v with
  | JObj l => assoc k l
  | _ => JUndefined
  end.

(** [o[k] = v] on a property list: overwrite in place or append. *)
Fixpoint assoc_set (k : string) (v : jsval) (l : list (string * jsval))
  : list (string * jsval) :=
  match l with
  | [] => [(k, v)]
  | (k', v') :: l' =>
      if String.eqb k k' then (k, v) :: l' else (k', v') :: assoc_set k v l'
  end.

(** [String(v)] on the primitives whose conversion is fixed by the
    language; numbers, dates, arrays and objects go through [other]. *)
Definition String_ (other : jsval -> string) (v : jsval) : string :=
  match v with
  | JStr s => s
  | JUndefined => "undefined"
  | JNull => "null"
  | JBool true => "true"
  | JBool false => "false"
  | _ => other v
  end.

(** A nested induction principle: the hypotheses for arrays and objects
    give the property for every element. *)
Section Induction.
Variable P : jsval -> Prop.
Hypothesis Hundef : P JUndefined.
Hypothesis Hnull : P JNull.
Hypothesis Hbool : forall b, P (JBool b).
Hypothesis Hnum : forall n, P (JNum n).
Hypothesis Hstr : forall s, P (JStr s).
Hypothesis Hdate : forall t, P (JDate t).
Hypothesis Harr : forall l, Forall P l -> P (JArr l).
Hypothesis Hobj : forall l, Forall (fun kv => P (snd kv)) l -> P (JObj l).

Fixpoint jsval_nested_ind (v : jsval) : P v :=
  match v with
    | JUndefined => Hundef
    | JNull => Hnull
    | JBool b => Hbool b
    | JNum n => Hnum n
    | JStr s => Hstr s
    | JDate t => Hdate t
    | JArr l =>
        Harr l
          ((fix go (l : list jsval) : Forall P l :=
              match l with
              | [] => @List.Forall_nil _ P
              | x :: l' =>
                  @List.Forall_cons _ P x l' (jsval_nested_ind x) (go l')
              end) l)
    | JObj l =>
        Hobj l
          ((fix go (l : list (string * jsval))
              : Forall (fun kv => P (snd kv)) l :=
              match l with
              | [] => @List.Forall_nil _ _
              | kv :: l' =>
                  @List.Forall_cons _ (fun kv => P (snd kv)) kv l'
                    (jsval_nested_ind (snd kv)) (go l')
              end) l)
    end.
End Induction.

End JS.

Import JS.

(** ** The model object (Bookshelf) *)
Module Bookshelf.

(** A model instance: its id, the attributes being saved, the
    attributes as they were at the last fetch or save, and its loaded
    relations ([model.related(name)], as JSON values). *)
Record Model : Type := {
  model_id : jsval;
  attributes : gmap string jsval;
  _previousAttributes : gmap string jsval;
  relations : gmap string jsval
}.

(** [model.get(attr)]: a missing attribute reads as [undefined]. *)
Definition get (m : Model) (attr : string) : jsval :=
  default JUndefined (attributes m !! attr).

(** [model.set(attr, val)] *)
Definition set (m : Model) (attr : string) (val : jsval) : Model :=
  {| model_id := model_id m;
     attributes := <[attr := val]> (attributes m);
     _previousAttributes := _previousAttributes m;
     relations := relations m |}.

(** [model.previous(attr)] *)
Definition previous (m : Model) (attr : string) : jsval :=
  default JUndefined (_previousAttributes m !! attr).

(** [model.hasChanged(attr)]: the attribute differs (by [_.isEqual])
    from its value at the last fetch or save. *)
Definition hasChanged (m : Model) (attr : string) : bool :=
  negb (isEqual (previous m attr) (get m attr)).

(** [model.related(name)] *)
Definition related (m : Model) (name : string) : jsval :=
  default JUndefined (relations m !! name).

End Bookshelf.

Import Bookshelf.

(** ** The promise monad of the hooks *)
Module Hook.

Inductive error : Type :=
| ValidationError (message : string)
| NoPermissionError (message : string).

(** How a promise settles. *)
Inductive outcome (A : Type) : Type :=
| Resolved (a : A)
| Rejected (e : error).
Arguments Resolved {A} a.
Arguments Rejected {A} e.

(** The state a hook runs on: the model it is bound to ([this]) and the
    number of clock readings taken so far. *)
Record State : Type := { this : Model; tick : nat }.

(** A hook step: runs on a state, settles, leaves a state.  A rejection
    keeps the mutations made before it. *)
Definition M (A : Type) : Type := State -> outcome A * State.

Definition ret {A} (a : A) : M A := fun st => (Resolved a, st).

Definition bind {A B} (c : M A) (k : A -> M B) : M B :=
  fun st =>
    match c st with
    | (Resolved a, st') => k a st'
    | (Rejected e, st') => (Rejected e, st')
    end.

(** [return Promise.reject(e)] or [throw e] in an async function *)
Definition reject {A} (e : error) : M A := fun st => (Rejected e, st).

(** Read the bound model. *)
Definition self : M Model := fun st => (Resolved (this st), st).

(** Apply a mutation to the bound model. *)
Definition modify (f : Model -> Model) : M unit :=
  fun st => (Resolved tt, {| this := f (this st); tick := tick st |}).

(** Take the next clock reading of [clock]. *)
Definition now (clock : nat -> Z) : M Z :=
  fun st => (Resolved (clock (tick st)),
             {| this := this st; tick := S (tick st) |}).

(** [sequence(ops)] of [@tryghost/promise]: run the tasks one after
    the other, stop at the first rejection. *)
Fixpoint sequence (ops : list (M unit)) : M unit :=
  match ops with
  | [] => ret tt
  | op :: ops' => bind op (fun _ => sequence ops')
  end.

End Hook.

Import Hook.

Declare Scope hook_scope.
Delimit Scope hook_scope with hook.
Notation "x <- c ;; k" := (bind c (fun x => k))
  (at level 100, c at next level, right associativity) : hook_scope.
Notation "c ;; k" := (bind c (fun _ => k))
  (at level 100, right associativity) : hook_scope.
Local Open Scope hook_scope.

(** ** What the hooks are called with, and what they call *)

(** [options.context] *)
Record OpContext : Type := { internal : bool }.

(** The [options] of a save, as far as the hooks read them; flags are
    kept by their truthiness. *)
Record Options : Type := {
  method : string;
  importing : bool;
  migrating : bool;
  context : option OpContext;
  force_rerender : bool;
  send_email_when_published : bool;
  filter : bool
}.

(** [!options.context || !options.context.internal] *)
Definition not_internal (options : Options) : bool :=
  match context options with
  | None => true
  | Some c => negb (internal c)
  end.

(** The collaborators of the model that are not part of [post.js]: the
    base model, configuration, clock, libraries and the database.  They
    are taken to return; the one failure the hooks handle themselves,
    the renderer's, is part of [render]. *)
Class Collaborators : Type := {
  (** [i18n.t(key, bindings)] *)
  i18n_t : string -> list (string * jsval) -> string;
  (** [config.get('times').cannotScheduleAPostBeforeInMinutes] *)
  cannotScheduleAPostBeforeInMinutes : Z;
  (** the system clock: its n-th reading, in milliseconds *)
  clock : nat -> Z;
  (** [moment(v)]: the time value in milliseconds, [None] when
      [moment(v).isValid()] is false *)
  moment : jsval -> option Z;
  (** [ghostBookshelf.Model.prototype.onSaving] *)
  base_onSaving : Model -> Model;
  (** [model.hasDateChanged(attr, {beforeWrite})] of the base model *)
  hasDateChanged : Model -> string -> bool -> bool;
  (** [model.contextUser(options)] of the base model *)
  contextUser : Options -> jsval;
  (** [ghostBookshelf.Model.generateSlug(Post, base, {status: 'all',
      transacting, importing})]: the slug the promise resolves with *)
  generateSlug : jsval -> bool -> jsval;
  (** [JSON.stringify(mobiledocLib.blankDocument)] *)
  blankDocument : string;
  (** [mobiledocLib.populateImageSizes] *)
  populateImageSizes : jsval -> jsval;
  (** [mobiledocHtmlRenderer.render(JSON.parse(mobiledoc))], [None]
      when either throws *)
  render : jsval -> option jsval;
  (** [htmlToText.fromString(html, ...)] *)
  htmlToText : jsval -> jsval;
  (** [urlUtils[method](value, transformOptions)] *)
  urlUtils : string -> jsval -> list (string * jsval) -> jsval;
  (** [String(v)] on numbers, dates, arrays and objects *)
  toString_other : jsval -> string;
  (** [_.toString(v).trim()] *)
  toString_trim : jsval -> string;
  (** [s.toLocaleLowerCase()] *)
  toLocaleLowerCase : string -> string;
  (** [model.related('email').fetch(...)]: the email record or [null] *)
  fetch_email : Model -> jsval;
  (** [MobiledocRevision.findAll({filter: post_id:id, columns: ['id']})]
      as [toJSON()] gives it, in the default order of that model *)
  findAll_revisions : jsval -> list jsval;
  (** [Post.filterOptions(unfilteredOptions, methodName, ...)] *)
  filterOptions : Options -> string -> Options;
  (** [ghostBookshelf.Model.add.call(Post, data, options)] *)
  Model_add : gmap string jsval -> Options -> outcome Model;
  (** [ghostBookshelf.Model.findOne.call(Post, data, options)] *)
  Model_findOne : gmap string jsval -> Options -> outcome jsval
}.

(** ** The save hook: [onSaving] *)
Section PostModel.
Context {C : Collaborators}.

Definition MOBILEDOC_REVISIONS_COUNT : nat := 10.

(** [v === 'literal'] *)
Definition is_str (v : jsval) (literal : string) : bool :=
  strict_eq v (JStr literal).

(** [a || b] *)
Definition js_or (a b : jsval) : jsval := if truthy a then a else b.

(** The constants [onSaving] reads off the model before it changes it. *)
Record Saving : Type := {
  newTitle : jsval;
  newStatus : jsval;
  olderStatus : jsval;
  prevTitle : jsval;
  prevSlug : jsval;
  publishedAt : jsval;
  publishedAtHasChanged : bool
}.

Definition saving_consts (m : Model) : Saving :=
  {| newTitle := get m "title";
     newStatus := get m "status";
     olderStatus := previous m "status";
     prevTitle := previous m "title";
     prevSlug := previous m "slug";
     publishedAt := get m "published_at";
     publishedAtHasChanged := hasDateChanged m "published_at" true |}.

(** CASE: disallow published -> scheduled *)
Definition disallowPublishedToScheduled (c : Saving) : M unit :=
  if negb (strict_eq (newStatus c) (olderStatus c))
     && is_str (newStatus c) "scheduled"
     && is_str (olderStatus c) "published"
  then reject (ValidationError
                 (i18n_t "errors.models.post.isAlreadyPublished"
                         [("key", JStr "status")]))
  else ret tt.

(** [if (options.method === 'insert') { if (!this.get('comment_id')) ... }] *)
Definition setCommentId (options : Options) (m : Model) : Model :=
  if String.eqb (method options) "insert"
  then if negb (truthy (get m "comment_id"))
       then set m "comment_id" (model_id m)
       else m
  else m.

(** CASE: both page and post can get scheduled.  [moment()] is read
    only when the conjunction gets to it. *)
Definition validateScheduled (options : Options) (c : Saving) : M unit :=
  if is_str (newStatus c) "scheduled" then
    if negb (truthy (publishedAt c)) then
      reject (ValidationError
                (i18n_t "errors.models.post.valueCannotBeBlank"
                        [("key", JStr "published_at")]))
    else
      match moment (publishedAt c) with
      | None =>
          reject (ValidationError
                    (i18n_t "errors.models.post.valueCannotBeBlank"
                            [("key", JStr "published_at")]))
      | Some at_ =>
          if publishedAtHasChanged c then
            present <- now clock ;;
            if (at_ <? present + cannotScheduleAPostBeforeInMinutes * 60000)%Z
               && negb (importing options)
               && not_internal options
            then
              reject (ValidationError
                        (i18n_t "errors.models.post.expectedPublishedAtInFuture"
                                [("cannotScheduleAPostBeforeInMinutes",
                                  JNum cannotScheduleAPostBeforeInMinutes)]))
            else ret tt
          else ret tt
      end
  else ret tt.

(** What [_.each] and [_.values] go over. *)
Definition elements_of (v : jsval) : list jsval :=
  match v with
  | JArr l => l
  | JObj l => map snd l
  | JStr s => map (fun ch => JStr (String ch EmptyString)) (list_ascii_of_string s)
  | _ => []
  end.

(** [a.name && b.name && a.name.toLocaleLowerCase() ===
    b.name.toLocaleLowerCase()], for names that are strings. *)
Definition same_name (a b : jsval) : bool :=
  match prop a "name", prop b "name" with
  | JStr x, JStr y =>
      truthy (JStr x) && truthy (JStr y)
      && String.eqb (toLocaleLowerCase x) (toLocaleLowerCase y)
  | _, _ => false
  end.

(** CASE: detect lowercase/uppercase tag slugs, and deduplicate *)
Definition dedupeTags (m : Model) : Model :=
  match get m "tags" with
  | JUndefined | JNull => m
  | tags =>
      set m "tags"
        (JArr (fold_left
                 (fun tagsToSave item =>
                    if existsb (fun saved => same_name saved item) tagsToSave
                    then tagsToSave
                    else (tagsToSave ++ [item])%list)
                 (elements_of tags) []))
  end.

(** [_.isEmpty(v)] *)
Definition isEmpty (v : jsval) : bool :=
  match v with
  | JArr [] | JObj [] | JStr EmptyString => true
  | JArr _ | JObj _ | JStr _ => false
  | _ => true
  end.

(** [o.id = v] *)
Definition set_prop (o : jsval) (k : string) (v : jsval) : jsval :=
  match o with
  | JObj l => JObj (assoc_set k v l)
  | _ => o
  end.

(** CASE: attach id to update the existing posts_meta entry;
    CASE: do not create a posts_meta entry if the post meta is empty *)
Definition attachPostsMeta (m : Model) : Model :=
  match get m "posts_meta" with
  | JUndefined | JNull => m
  | postsMetaData =>
      let relatedModelId := prop (related m "posts_meta") "id" in
      let hasNoData := negb (existsb truthy (elements_of postsMetaData)) in
      if truthy relatedModelId && negb (isEmpty postsMetaData)
      then set m "posts_meta" (set_prop postsMetaData "id" relatedModelId)
      else if isEmpty postsMetaData || hasNoData
           then set m "posts_meta" JNull
           else m
  end.

Definition generatedFields : list string := ["html"; "plaintext"].

(** do not allow generated fields to be overridden via the API *)
Definition revertGeneratedFields (options : Options) (m : Model) : Model :=
  if negb (migrating options)
  then fold_left
         (fun m field =>
            if hasChanged m field then set m field (previous m field) else m)
         generatedFields m
  else m.

(** [if (!this.get('mobiledoc')) ...] *)
Definition ensureMobiledoc (m : Model) : Model :=
  if negb (truthy (get m "mobiledoc"))
  then set m "mobiledoc" (JStr blankDocument)
  else m.

(** attribute, method of [urlUtils], transform options *)
Definition urlTransformMap : list (string * (string * list (string * jsval))) :=
  [ ("mobiledoc", ("mobiledocAbsoluteToRelative", []));
    ("custom_excerpt", ("htmlAbsoluteToRelative", []));
    ("codeinjection_head", ("htmlAbsoluteToRelative", []));
    ("codeinjection_foot", ("htmlAbsoluteToRelative", []));
    ("feature_image", ("absoluteToRelative", []));
    ("og_image", ("absoluteToRelative", []));
    ("twitter_image", ("absoluteToRelative", []));
    ("canonical_url", ("absoluteToRelative", [("ignoreProtocol", JBool false)])) ].

Definition transformUrl (m : Model)
  (entry : string * (string * list (string * jsval))) : Model :=
  let '(attrToTransform, (method, transformOptions)) := entry in
  if hasChanged m attrToTransform && truthy (get m attrToTransform)
  then set m attrToTransform
         (urlUtils method (get m attrToTransform) transformOptions)
  else m.

(** ensure all URLs are stored as relative *)
Definition transformUrls (m : Model) : Model :=
  fold_left transformUrl urlTransformMap m.

(** [if (options.force_rerender) ...] *)
Definition populateSizes (options : Options) (m : Model) : Model :=
  if force_rerender options
  then set m "mobiledoc" (populateImageSizes (get m "mobiledoc"))
  else m.

(** CASE: mobiledoc has changed, generate html;
    CASE: ?force_rerender=true passed via Admin API;
    CASE: html is null, but mobiledoc exists *)
Definition renderHtml (options : Options) : M unit :=
  m <- self ;;
  if hasChanged m "mobiledoc"
     || force_rerender options
     || (negb (truthy (get m "html"))
         && (migrating options || importing options))
  then
    match render (get m "mobiledoc") with
    | Some html => modify (fun m => set m "html" html)
    | None => reject (ValidationError "Invalid mobiledoc structure.")
    end
  else ret tt.

(** [if (this.hasChanged('html') || !this.get('plaintext')) ...] *)
Definition derivePlaintext (m : Model) : Model :=
  if hasChanged m "html" || negb (truthy (get m "plaintext")) then
    let plaintext :=
      if strict_eq (get m "html") JNull then JNull
      else htmlToText (get m "html") in
    if truthy plaintext || negb (strict_eq plaintext (get m "plaintext"))
    then set m "plaintext" plaintext
    else m
  else m.

(** disabling sanitization until we can implement a better version *)
Definition setTitle (options : Options) (m : Model) : Model :=
  if negb (importing options) then
    let title :=
      js_or (get m "title") (JStr (i18n_t "errors.models.post.untitled" [])) in
    set m "title" (JStr (toString_trim title))
  else m.

(** If the current status is 'published' and published_at is not set,
    set it to now *)
Definition setPublishedAt (c : Saving) : M unit :=
  if is_str (newStatus c) "published" && negb (truthy (publishedAt c)) then
    present <- now clock ;;
    modify (fun m => set m "published_at" (JDate (Some present)))
  else ret tt.

(** If the current status is 'published' and the status has just
    changed ensure published_by is set correctly *)
Definition setPublishedBy (options : Options) (c : Saving) (m : Model) : Model :=
  if is_str (newStatus c) "published" && hasChanged m "status" then
    if negb (truthy (get m "published_by") && importing options)
    then set m "published_by"
           (JStr (String_ toString_other (contextUser options)))
    else m
  else
    if hasChanged m "published_by" && negb (importing options)
    then set m "published_by"
           (if truthy (previous m "published_by")
            then JStr (String_ toString_other (previous m "published_by"))
            else JNull)
    else m.

(** send_email_when_published is read-only and should only be set using
    a query param when publishing/scheduling *)
Definition setSendEmailWhenPublished (options : Options) (c : Saving)
  (m : Model) : Model :=
  if send_email_when_published options
     && hasChanged m "status"
     && (is_str (newStatus c) "published" || is_str (newStatus c) "scheduled")
  then set m "send_email_when_published" (JBool true)
  else m.

(** ensure draft posts have the send_email_when_published reset unless
    an email has already been sent *)
Definition ensureSendEmailWhenPublishedIsUnchanged (m : Model) : Model :=
  if truthy (fetch_email m)
  then set m "send_email_when_published" (JBool true)
  else set m "send_email_when_published" (JBool false).

(** [updateSlug] of the branch "a title is set, not the same as the old
    title, a draft post, and has never been published" *)
Definition updateSlugFromTitle (options : Options) (c : Saving)
  (m : Model) : Model :=
  let slug := generateSlug (get m "title") (importing options) in
  let prevTitleSlug := generateSlug (prevTitle c) (importing options) in
  if strict_eq prevTitleSlug (prevSlug c) then set m "slug" slug else m.

(** [updateSlug] of the other branch *)
Definition updateSlugFromSlug (options : Options) (m : Model) : Model :=
  if hasChanged m "slug" || negb (truthy (get m "slug"))
  then set m "slug"
         (generateSlug (js_or (get m "slug") (get m "title"))
                       (importing options))
  else m.

(** One entry of [mobiledoc_revisions]. *)
Definition revision (post_id mobiledoc : jsval) (created_at_ts : Z) : jsval :=
  JObj [("post_id", post_id);
        ("mobiledoc", mobiledoc);
        ("created_at_ts", JNum created_at_ts)].

(** CASE: Handle mobiledoc backups/revisions *)
Definition updateRevisions (options : Options) : M unit :=
  model <- self ;;
  let revisions := findAll_revisions (model_id model) in
  if (length revisions =? 0)%nat && negb (String.eqb (method options) "insert")
  then
    before <- now clock ;;
    latest <- now clock ;;
    modify (fun m =>
      set m "mobiledoc_revisions"
        (JArr [revision (model_id m) (previous m "mobiledoc") (before - 1);
               revision (model_id m) (get m "mobiledoc") latest]))
  else
    let revisionsJSON := firstn (MOBILEDOC_REVISIONS_COUNT - 1) revisions in
    latest <- now clock ;;
    modify (fun m =>
      set m "mobiledoc_revisions"
        (JArr (revisionsJSON
                 ++ [revision (model_id m) (get m "mobiledoc") latest])%list)).

(** If a title is set, not the same as the old title, a draft post, and
    has never been published: [prevTitle !== undefined && newTitle !==
    prevTitle && newStatus === 'draft' && !publishedAt] *)
Definition titleDrivesSlug (c : Saving) : bool :=
  negb (strict_eq (prevTitle c) JUndefined)
  && negb (strict_eq (newTitle c) (prevTitle c))
  && is_str (newStatus c) "draft"
  && negb (truthy (publishedAt c)).

(** The tasks [onSaving] pushes onto [ops], in the order it pushes them. *)
Definition savingOps (options : Options) (c : Saving) (m : Model)
  : list (M unit) :=
  ((if is_str (newStatus c) "draft" && hasChanged m "status"
    then [modify ensureSendEmailWhenPublishedIsUnchanged] else [])
   ++ [if titleDrivesSlug c
       then modify (updateSlugFromTitle options c)
       else modify (updateSlugFromSlug options)]
   ++ (if hasChanged m "mobiledoc"
          && negb (importing options)
          && negb (migrating options)
       then [updateRevisions options] else []))%list.

(** [onSaving(model, attr, options)], bound to the model.
    [handleAttachedModels] only registers listeners on the relations and
    leaves the model as it is. *)
Definition onSaving (options : Options) : M unit :=
  m0 <- self ;;
  let c := saving_consts m0 in
  disallowPublishedToScheduled c ;;
  modify (setCommentId options) ;;
  validateScheduled options c ;;
  modify dedupeTags ;;
  modify attachPostsMeta ;;
  modify base_onSaving ;;
  modify (revertGeneratedFields options) ;;
  modify ensureMobiledoc ;;
  modify transformUrls ;;
  modify (populateSizes options) ;;
  renderHtml options ;;
  modify derivePlaintext ;;
  modify (setTitle options) ;;
  setPublishedAt c ;;
  modify (setPublishedBy options c) ;;
  modify (setSendEmailWhenPublished options c) ;;
  m <- self ;;
  sequence (savingOps options c m).

(** ** Change events: [emitChange], [onSaved], [onUpdated], [onDestroyed] *)

(** What a hook hands to the event layer: an event of the post, through
    the base model's [emitChange(model, eventToTrigger, options)], or an
    event of a related tag or author, through that model's [emitChange]. *)
Inductive emission : Type :=
| Emitted (resourceType : jsval) (event : string)
| RelatedEmitted (relation : string) (target : jsval) (event : string).

(** [emitChange(event, options)]: the event goes out under the type of
    the resource, the previous one under [usePreviousAttribute]. *)
Definition emitChange (m : Model) (event : string)
  (usePreviousAttribute : bool) : emission :=
  let resourceType :=
    if usePreviousAttribute then previous m "type" else get m "type" in
  Emitted resourceType event.

(** [eventToTrigger = resourceType + '.' + event] *)
Definition eventToTrigger (resourceType : jsval) (event : string) : string :=
  String_ toString_other resourceType ++ "." ++ event.

Definition onSaved (options : Options) (model : Model) : list emission :=
  if negb (String.eqb (method options) "insert") then []
  else
    let status := get model "status" in
    (emitChange model "added" false
       :: match find (is_str status) ["published"; "scheduled"] with
          | Some s => [emitChange model s false]
          | None => []
          end)%list.

(** when status is changed from or to 'published' all related authors
    and tags have to trigger recalculation in URL service *)
Definition handleStatusForAttachedModels (model : Model) : list emission :=
  (map (fun tag => RelatedEmitted "tags" tag "attached")
       (elements_of (related model "tags"))
   ++ map (fun author => RelatedEmitted "authors" author "attached")
          (elements_of (related model "authors")))%list.

(** [cond && emit]: the events of a guarded [emitChange]. *)
Definition when_ (cond : bool) (e : emission) : list emission :=
  if cond then [e] else [].

Definition onUpdated (model : Model) : list emission :=
  let statusChanging := negb (strict_eq (get model "status") (previous model "status")) in
  let isPublished := is_str (get model "status") "published" in
  let isScheduled := is_str (get model "status") "scheduled" in
  let wasPublished := is_str (previous model "status") "published" in
  let wasScheduled := is_str (previous model "status") "scheduled" in
  let resourceTypeChanging := negb (strict_eq (get model "type") (previous model "type")) in
  let publishedAtHasChanged := hasDateChanged model "published_at" false in
  let needsReschedule := publishedAtHasChanged && isScheduled in
  ((if resourceTypeChanging then
      when_ wasPublished (emitChange model "unpublished" true)
      ++ when_ wasScheduled (emitChange model "unscheduled" true)
      ++ [emitChange model "deleted" true; emitChange model "added" false]
      ++ when_ isPublished (emitChange model "published" false)
      ++ when_ isScheduled (emitChange model "scheduled" false)
    else
      (if statusChanging then
         when_ wasPublished (emitChange model "unpublished" false)
         ++ when_ isPublished (emitChange model "published" false)
         ++ when_ isScheduled (emitChange model "scheduled" false)
         ++ when_ (wasScheduled && negb isScheduled && negb isPublished)
                  (emitChange model "unscheduled" false)
       else
         when_ isPublished (emitChange model "published.edited" false)
         ++ when_ needsReschedule (emitChange model "rescheduled" false))
      ++ [emitChange model "edited" false])
   ++ (if statusChanging && (isPublished || wasPublished)
       then handleStatusForAttachedModels model else []))%list.

Definition onDestroyed (model : Model) : list emission :=
  (when_ (is_str (previous model "status") "published")
         (emitChange model "unpublished" true)
   ++ [emitChange model "deleted" true])%list.

(** The events of the post itself among the emissions of a hook. *)
Definition post_events (l : list emission) : list (jsval * string) :=
  omap (fun e => match e with
                 | Emitted resourceType event => Some (resourceType, event)
                 | RelatedEmitted _ _ _ => None
                 end) l.

(** ** The permission gate: [permissible] *)

(** [loadedPermissions]: the roles of the user and of the api key, when
    there is one. *)
Record LoadedPermissions : Type := {
  user : option (list jsval);
  apiKey : option (list jsval)
}.

(** [holder && _.some(holder.roles, {name})] *)
Definition has_role (holder : option (list jsval)) (name : string) : bool :=
  match holder with
  | Some roles => existsb (fun role => isEqual (prop role "name") (JStr name)) roles
  | None => false
  end.

(** [o[k]] on an object used as a map, such as [unsafeAttrs] or [data] *)
Definition field (o : gmap string jsval) (k : string) : jsval :=
  default JUndefined (o !! k).

Definition permissible (postModel : Model) (action : string)
  (unsafeAttrs : gmap string jsval) (loadedPermissions : LoadedPermissions)
  (hasUserPermission hasApiKeyPermission : bool)
  : outcome (list string) :=
  let isChanging attr :=
    truthy (field unsafeAttrs attr)
    && negb (strict_eq (field unsafeAttrs attr) (get postModel attr)) in
  let isPublished :=
    truthy (field unsafeAttrs "status")
    && negb (is_str (field unsafeAttrs "status") "draft") in
  let isDraft := is_str (get postModel "status") "draft" in
  let isContributor := has_role (user loadedPermissions) "Contributor" in
  let isOwner := has_role (user loadedPermissions) "Owner" in
  let isAdmin := has_role (user loadedPermissions) "Administrator" in
  let isEditor := has_role (user loadedPermissions) "Editor" in
  let isIntegration := has_role (apiKey loadedPermissions) "Admin Integration" in
  let isEdit := String.eqb action "edit" in
  let isAdd := String.eqb action "add" in
  let isDestroy := String.eqb action "destroy" in
  let hasUserPermission :=
    if isContributor && isEdit then negb (isChanging "status") && isDraft
    else if isContributor && isAdd then negb isPublished
    else if isContributor && isDestroy then isDraft
    else if negb (isOwner || isAdmin || isEditor || isIntegration)
         then negb (isChanging "visibility")
         else hasUserPermission in
  let excludedAttrs := if isContributor then ["tags"] else [] in
  if hasUserPermission && hasApiKeyPermission
  then Resolved excludedAttrs
  else Rejected (NoPermissionError
                   (i18n_t "errors.models.post.notEnoughPermission" [])).

End PostModel.

(** ** Creating a post: [add] *)

(** The [sidebars] literal of [add]: the sidebar HTML of each subdomain. *)
Definition sidebars_table : list (string * string) :=
[
  ("montana",
   "<span>Montana Reverse Phone Lookup</span><p>Reverse phone lookup, or reverse phone search, is used to uncover information that can identify an unknown caller. Reverse phone search tools search a variety of public records and phone number registration databases to ascertain subscribers assigned numbers submitted for search. It is useful for answering the question: &quot;who called me&quot;.<p>");
  ("florida",
   "<span>Florida Reverse Phone Lookup</span><p>Reverse phone lookup (also reverse phone search) involves finding the personal details connected to a particular phone number. Some of these details include the name and address of the caller. Reverse phone lookup is enabled by the documentation provided when registering a phone number. It is useful for identifying callers and staying ahead of phone scams and stalkers.<p>");
  ("alaska",
   "<span>Alaska Reverse Phone Lookup</span><p>Performing reverse phone lookup on Alaska phone numbers allows one to identify unknown callers. There are many reasons why someone may decide to investigate the origin of a phone call. While it can be out of curiosity, it may also be to find out if an unknown number belongs to a stalker, a scammer, or someone with a criminal record. Understanding how to search the extensive databases maintained by reverse phone search services can help you decide whether you should ignore an unknown caller or call them back.<p>");
  ("nebraska",
   "<span>Nebraska Reverse Phone Lookup</span><p>Reverse phone lookup or reverse phone search is a way of finding the identities of callers not in your contact lists through their phone numbers. This service is useful for discovering the owners of unknown numbers calling you whether the numbers bear Nebraska area codes or not. The information provided can help you decide whether an unsolicited call is likely from a scammer, an old acquaintance, a known organization, a robocaller, or a spam caller.
<p>");
  ("nevada",
   "<span>Nevada Reverse Phone Lookup</span><p>Also known as reverse phone search, phone number lookup refers to the different ways a called party can find out the real person behind an unknown call just by searching with the phone number. Vital personal information required as a basic registration requirement for obtaining a phone number provides a rich database for reverse phone search. Using phone lookup services, Nevada residents can identify unknown callers and avoid scammers trying to steal money and information.
<p>");
  ("newjersey",
   "<span>New Jersey Reverse Phone Lookup</span><p>Reverse phone search or phone number lookup is the process for obtaining information about the registered user of a telephone service number. Before any individual is granted a phone number, they are required to provide personal information details for verification and other statutory purposes. By performing a reverse phone search using a phone number, it is possible to identify who the number is registered to.
<p>");
  ("newyork",
   "<span>New York Reverse Phone Lookup</span><p>A reverse phone number search or phone number lookup involves searching and identifying the subscriber registered to a phone number. The most common reason to conduct a phone number search is to discover details about the person using a particular phone number, most often on suspicion of fraud or other illicit activities. You can also look up an unknown phone number or a spam call in order to discover the identity of a strange caller.<p>");
  ("connecticut",
   "<span>Connecticut Reverse Phone Lookup</span><p>Reverse phone lookup is the process of discovering more details about who a phone number is registered to using just the phone number. Using a standard phone directory, you find a phone number by searching by name. In reverse phone search, however, it is the phone number that will lead the enquirer to the name and other details about who the number is registered to.<p>");
  ("indiana",
   "<span>Indiana Reverse Phone Lookup</span><p>Phone lookup or reverse phone search is a way of discovering the owner of a phone number by searching phone subscriber directories. With the increasing worry of phone scams, many Hoosiers are uneasy when contacted by unknown numbers. Identifying an unknown caller is just one of the many reasons why someone may consider investigating the origin and location of a call. Phone lookup services maintain extensive databases of mobile phone, landline, and some VoIP phone numbers. Anyone can easily use these online tools to differentiate genuine callers from spam.
<p>");
  ("kansas",
   "<span>Kansas Reverse Phone Lookup</span><p>The processes of searching and retrieving user information for phone numbers is referred to as reverse phone lookup. It is a procedure used to discover who an unknown number is registered to. During the process of procuring a phone line, carriers require each subscriber to provide identification and contact information. Reverse phone searches look up these details and return them to persons trying to identify persons registered to submitted phone numbers. A reverse phone lookup is also known as reverse phone search or phone number lookup.<p>");
  ("louisiana",
   "<span>Louisiana Reverse Phone Lookup</span><p>A reverse phone search refers to the process involved in looking up information about a phone number to identify whom the number is registered to. Before receiving a phone number, subscribers are required to complete paperwork and provide identification, and this information is registered in a directory. A reverse phone search or phone number lookup searches the directory and retrieves available information about the registrant of a phone number.<p>");
  ("maryland",
   "<span>Maryland Reverse Phone Lookup</span><p>Reverse phone lookup is a process by which an individual can discover who the phone number that called them is registered to, amongst other information. This process is also referred to as phone number search. When acquiring a phone number, each subscriber is required to complete paperwork that will contain personal information details. A reverse phone lookup accesses carrier subscriber registries to retrieve available information about the phone numbers being searched.<p>");
  ("michigan",
   "<span>Michigan Reverse Phone Lookup</span><p>A reverse phone lookup is a process by which available information about the owner of a phone number is obtained. Anyone who applies for a phone number is required to provide their identity and contact data before receiving one. This information is stored in a user account directory maintained by the service provider. The question &quot;who called me?&quot; can be answered by retrieving the user information for the phone number in question with a reverse phone search.<p>");
  ("minnesota",
   "<span>Minnesota Reverse Phone Lookup</span><p>Reverse phone lookup is the process of getting the names and other personal information of unknown callers using their phone numbers. There are many reasons why Minnesotans may decide to perform reverse phone searches. While some may want to find out whether anonymous numbers calling them are from scammers or stalkers, others may do so to find more information on vaguely familiar contacts. Regardless of their reasons, searching extensive directories maintained by phone number lookup services can provide information about who those numbers are registered to.<p>");
  ("mississippi",
   "<span>Mississippi Reverse Phone Lookup</span><p>Reverse phone lookup or reverse phone search involves retrieving user account information for a phone number. When purchasing a phone line, the subscriber is required to provide certain personal information as well as identification. Carriers keep such subscriber information in user account directories that reverse phone searches can query. A reverse phone search or phone number search is for verifying who an unknown number is registered to.<p>");
  ("northcarolina",
   "<span>North Carolina Reverse Phone Lookup</span><p>The process by which a person can obtain information about who the phone number that called them is registered to is referred to as reverse phone search or phone number lookup. Anyone who acquires a phone number is required to provide personal information about themselves, which is registered against the number. By performing a reverse phone lookup, it is possible to gain access to the subscriber details registered to a phone number.<p>");
  ("northdakota",
   "<span>North Dakota Reverse Phone Lookup</span><p>Reverse phone lookup is the process of retrieving available user account information about a phone number. Also commonly referred to as phone number lookup, it provides answers to the question &quot;who is this number registered to&quot;. Part of the steps required for obtaining a new phone number is submitting personal information and providing ID to your carrier of choice. Carriers store such subscriber records in accessible user account directories. A reverse phone lookup queries these directories and returns the available information to the persons conducting the phone number lookup.<p>");
  ("ohio",
   "<span>Ohio Reverse Phone Lookup</span><p>When an individual performs a reverse phone search or a phone number lookup, it is usually to find out information about the person who owns a particular phone number. This is possible because people are required to provide identifying information when requesting phone numbers. As such, discovering details about the last person who called you is simple as long as you can retrieve the phone number they called you with.<p>");
  ("oregon",
   "<span>Oregon Reverse Phone Lookup</span><p>Reverse phone search, or phone number lookup, is an investigative process through which an individual retrieves information about a caller or user of a specific phone number. It comes in handy when there are doubts about the true identity of a caller. By inputting the phone number in a reverse phone lookup search, information about the subscriber assigned the number can be accessed. This is possible because subscriber details are provided to carriers when registering new phone numbers.<p>");
  ("pennsylvania",
   "<span>Pennsylvania Reverse Phone Lookup</span><p>Reverse phone lookup or reverse phone search is a directory that contains phone numbers and details about who the numbers are registered to. The main difference between this and a regular directory is that the phone number is used to get other information about the customer rather than using previously known information to get the phone number. There are many reasons to undertake a reverse phone search. Some of these include identifying unknown callers, stopping spam calls, and avoiding phone scams. In addition to identifying a caller, a reverse phone lookup may also provide other information about the caller including their address and criminal record. While a quick Google search may reveal phonebook information about a phone number, dedicated reverse phone lookup services offer more thorough searches, can find information on a wider range of numbers, and provide deeper information about callers.<p>");
  ("rhodeisland",
   "<span>Rhode Island Reverse Phone Lookup</span><p>Reverse phone search, also known as phone number lookup, is the process of unveiling detailed information about the subscriber registered to a phone number. It is called &#39;reverse&#39; because instead of using a name to get the phone number, the phone number is used to get the person&#39;s name and other details.<p>");
  ("southcarolina",
   "<span>South Carolina Reverse Phone Lookup</span><p>It is possible to identify the unknown of an unknown number by conducting a reverse phone lookup. Reverse phone lookup services run submitted numbers through their extensive databases of phone subscribers to identify unknown callers. These services are needed when you want to find out if unknown callers with phone numbers bearing South Carolina area codes are fraudsters, stalkers, old friends, or someone you would rather engage or ignore.
<p>");
  ("southdakota",
   "<span>South Dakota Reverse Phone Lookup</span><p>Reverse phone lookup is the process of looking up available details about the registered user of a phone number. When registering new phone subscribers, carriers collect their contact information and store these details in accessible directories. A reverse phone lookup service searches these directories and retrieves user information on the subjects of the searches. When a user submits a number to a phone look service, they want an answer to the question &quot;who is this number registered to?&quot;<p>");
  ("tennessee",
   "<span>Tennessee Reverse Phone Lookup</span><p>Reverse phone lookup or reverse phone search is a way of finding out the true identities of unknown callers through their phone numbers. Various phone lookup services maintain extensive directories that can provide information associated with phone numbers registered in the United States. Available information can include names, addresses, and even criminal records. Understanding how to search through these online-based phone databases can help Tennesseans determine whether or not to answer a call or redial it.<p>");
  ("utah",
   "<span>Utah Reverse Phone Lookup</span><p>Reverse phone lookup is a way of retrieving a name and other personal information associated with a phone number. Some online directories maintain extensive databases useful for discovering the identities and addresses of unknown callers and other available information Understanding how to use these services can help determine whether to ignore a call from an unknown, dial back, block it, or report it to your local law enforcement.<p>");
  ("virginia",
   "<span>Virginia Reverse Phone Lookup</span><p>Reverse phone lookup or reverse phone search is the process of using a phone number to identify the caller details associated with it. It is not always advisable for Virginians to answer unknown calls without first running an online reverse check on the numbers calling them. While it could be a friend, family, or acquaintance, an unknown number could also be a scammer, robocall, or malicious person. Phone lookup services maintain comprehensive collections of landline and cellphone numbers and can provide the customer details attached to them. The search results will help you decide whether you want to call back, ignore, or block future calls from that number.<p>");
  ("westvirginia",
   "<span>West Virginia Reverse Phone Lookup</span><p>A phone lookup, or reverse phone search, is the act of querying a reverse phone directory to retrieve details about a particular phone number. Individuals or companies that apply for phone numbers are mandated to provide essential information such as full names and addresses. As such, anyone who receives a call from an unknown number can use reverse phone lookup to answer the question &quot;who called me?&quot;<p>");
  ("wyoming",
   "<span>Wyoming Reverse Phone Lookup</span><p>Reverse phone lookup is the process of searching and retrieving information about the person registered to an unknown number. Persons procuring new phone numbers provide identification and other personal details before receiving their new numbers. This information is stored in user account directories retained by the service provider. Reverse phone lookup or phone number search services query carrier user directories and return information on the numbers submitted for searching. A reverse phone search is useful for answering the question &quot;who called me?&quot; when you receive a call from an unknown number.<p>");
  ("california",
   "<span>California Reverse Phone Lookup</span><p>Reverse phone search is a phone-based information retrieval technique that involves finding information about an individual or business from their phone numbers. These phone lookup services check their databases for phone number registration histories such as name, address, and other related information. Learning this information can help recipients determine whether to answer or call back a number or not.<p>");
  ("newhampshire",
   "<span>New Hampshire Reverse Phone Lookup</span><p>Reverse phone lookup is the process of searching a phone number to discover more details about the owner of the number. Using a reverse phone search to find information on the owner of any telephone number is possible because important data on the owner is collected and stored in the carrier&#39;s database before it is assigned and activated. Such carrier databases are consulted when residents of New Hampshire carry out reverse phone searches to identify unknown callers.
<p>");
  ("newmexico",
   "<span>New Mexico Reverse Phone Lookup</span><p>Reverse phone search or phone lookup is the process of searching a phone number in online directories to identify the owner. Some online web pages maintain unique search engines that allow users to know more about the owners of unknown phone numbers calling them. Using the information provided, researchers may then decide whether to ring back the caller or simply ignore their call.<p>");
  ("oklahoma",
   "<span>Oklahoma Reverse Phone Lookup</span><p>Reverse phone lookup involves identifying an unknown caller by their phone number. Carrier directories and other databases of subscriber information make reverse phone searches possible. When registering new phone numbers, carriers collect identifying information from new subscribers. When searching an Oklahoma phone number using a lookup tool, the reverse phone lookup service consults the databases of all major carriers operating in the state. Identifying unknown callers can help Oklahoma residents avoid phone scams, spam calls, and robocalls.<p>");
  ("texas",
   "<span>Texas Reverse Phone Lookup</span><p>Reverse phone search, or phone number lookup, refers to the process in which an individual can discover more about the person behind a phone number. Because paperwork and other information is required to be provided when being granted a phone number, it is possible to learn more about the individual calling you simply by using the phone number they used to call. <p>");
  ("vermont",
   "<span>Vermont Reverse Phone Lookup</span><p>Reverse phone lookup, or reverse phone search, allows you to find out who owns unknown numbers calling you. These searches are essential everytime you receive unknown phone calls from mobile, landline, or VoIP numbers bearing Vermont area codes. Performing reverse phone search sheds more light on whether a caller is a scammer, an offender, someone you would rather not talk to, or perhaps a family or old friend that acquired a new number. Reverse phone search engines provide detailed information about unknown numbers including the owner&#39;s name and listed address.<p>");
  ("alabama",
   "<span>Alabama Reverse Phone Lookup</span><p>Reverse phone lookup is a procedure for retrieving user information for a telephone number. Also referred to as phone number search, it is a search process that returns the information registered by the person who acquired the phone number. Anyone who purchases a phone line is required to provide a form of identification and relevant user information which is registered in a user account directory. Reverse phone lookup or phone number search provides access to this directory and the information stored in it, typically to verify the owner of an unknown number.<p>");
  ("washington",
   "<span>Washington Reverse Phone Lookup</span><p>Reverse phone lookup is a process whereby individuals try to learn about unknown phone numbers that called them, using third-party services. Also known as reverse phone search, it searches and returns information about the person who registered a phone number. When applying for phone numbers, subscriber information must be provided which will include identification and contact details. A reverse phone search accesses this information and can provide an answer to the question &quot;who is this number registered to&quot;?<p>");
  ("arizona",
   "<span>Arizona Reverse Phone Lookup</span><p>Performing a reverse phone lookup is a way of getting to know the identity of the owner of a particular phone number by searching with just the phone number. One major distinction between carrying out a reverse phone lookup and looking up a regular directory is that in this case, the phone number is used for the search. This brings up other information about the owner of any number. This subscriber information is provided when registering a new phone number. It includes the name and address of the individual assigned the number. These details are provided when conducting a reverse phone lookup on a phone number.
<p>");
  ("arkansas",
   "<span>Arkansas Reverse Phone Lookup</span><p>Reverse phone lookup is the process of identifying an unknown caller by searching with the number. It is a way to find information about a caller whose number is not stored in the recipient&#39;s phone. Reverse phone number lookup pulls information from telephone registration records of subscribers maintained by carriers.
<p>");
  ("colorado",
   "<span>Colorado Reverse Phone Lookup</span><p>A phone number lookup or reverse phone search refers to the act of retrieving the registrant&#39;s details for a number that called you. These details include the name of the registrant, their home or office address, and other pertinent details. Subscribers are required to provide these details when registering new numbers and reverse phone lookups provide access to search and retrieve such information.<p>");
  ("delaware",
   "<span>Delaware Reverse Phone Lookup</span><p>Reverse phone lookup is a way of finding people and businesses using their phone numbers alone. With spam and scam calls becoming rampant, most people are reluctant to pick calls from unrecognized numbers. Knowing the true identity of an unknown caller is one of the various reasons why someone may decide to perform a reverse phone search. Phone number lookup services have extensive access to phone subscriber information and can return detailed search results when queried with Delaware phone numbers.<p>");
  ("districtofcolumbia",
   "<span>District of Columbia Reverse Phone Lookup</span><p>Reverse phone search or phone number lookup is a way of using a phone number to obtain more information about the owner. The usual procedure of looking up a standard phone directory is to use the subscriber&#39;s name and address to get the phone number. In reverse phone search, it is the phone number used to discover details like the name, gender, address, and other publicly available records about the subscriber that owns the number. This is possible because of the data collated during the registration process required when obtaining a new number. Phone lookups bring up these details when residents of the District of Columbia submit phone numbers to their search engines.<p>");
  ("georgia",
   "<span>Georgia Reverse Phone Lookup</span><p>Reverse phone search or phone number lookup is a way of getting the name of someone and possibly, their personal details from a phone number. There are online phone number lookup services that can retrieve registration information when provided with phone numbers. Understanding how these lookup services work and how you can use them to your advantage is needed to identify malicious callers.<p>");
  ("hawaii",
   "<span>Hawaii Reverse Phone Lookup</span><p>Reverse phone search, otherwise called phone number lookup, is the process of discovering more details about the person a phone number is registered to, using just the phone number. Identifying the owner of a phone number in this way is possible because carriers require new subscribers to provide certain information when registering their numbers. Hawaiians can use phone lookup services to identify unknown callers and avoid phone scammers and spam calls.<p>");
  ("idaho",
   "<span>Idaho Reverse Phone Lookup</span><p>A reverse phone lookup is a process of learning the ownership details attached to an unknown telephone number. It is also referred to as a phone number lookup. These details are required during the process of applying for a phone number and stored in the carrier&#39;s user directory. Details will typically include names, home or office addresses, social security numbers, and other pertinent information. A reverse phone search provides access to the user directory to retrieve the available information on the phone number being looked up.<p>");
  ("illinois",
   "<span>Illinois Reverse Phone Lookup</span><p>Reverse phone search or phone number lookup describes being able to search and retrieve customer information for telephone service numbers. One reason for doing this is identifying an unknown caller. Information provided to phone service providers when procuring the phone numbers are available in directories are accessible by vendors providing reverse phone searches.<p>");
  ("iowa",
   "<span>Iowa Reverse Phone Lookup</span><p>Reverse phone lookup, or reverse phone search, is a report that shows the individual or business associated with a phone number. This report is essential whenever you receive a phone call from a phone number bearing Iowa area code that you do not recognize and want to find out if it is a scam or a spam number, or maybe a phone number owned by a person you know. Reverse phone lookup can be performed for all phone numbers, including landlines, cell phone numbers, and VoIP numbers. Most comprehensive reverse phone search engines provide detailed information, which can include the unknown caller&#39;s full name, their address, and other secondary information.<p>");
  ("kentucky",
   "<span>Kentucky Reverse Phone Lookup</span><p>Reverse phone search or phone number lookup describes the process through which one can get vital information about the identity of the person registered to a telephone number. This is made possible because every subscriber is required to supply their biodata for the purpose of verification when registering a new phone line.<p>");
  ("maine",
   "<span>Maine Reverse Phone Lookup</span><p>Reverse phone lookup refers to searching with a phone number to identify an unknown caller. Phone lookup services allow anyone to find callers using only their phone numbers. In addition to the caller&#39;s name and address, a reverse phone lookup may also find other details such as gender, phone type, and social media accounts. Therefore, a reverse phone search can help you answer the question: &quot;who called me?&quot; and can be used in certain cases to conduct a soft background check.<p>");
  ("massachusetts",
   "<span>Massachusetts Reverse Phone Lookup</span><p>Reverse phone lookup, also known as reverse phone search, refers to the process of retrieving the personal information attached to a registered phone number. Certain information like the caller&#39;s name and residential address can be accessed. Information provided as a requirement for obtaining a registered phone number makes reverse phone lookup possible.<p>");
  ("wisconsin",
   "<span>Wisconsin Reverse Phone Lookup</span><p>A reverse phone search or phone lookup is the act of searching through a reverse phone directory for the ownership details of a phone number. When applying for a phone number, some of the mandatory details provided include basic information such as a full name and an address. Therefore, if you can recollect the phone number you were called with, you will be able to answer the question &quot;who called me?&quot;<p>");
  ("missouri",
   "<span>Missouri Reverse Phone Lookup</span><p>Reverse phone lookups describe the process of searching and retrieving user details for telephone service numbers. When acquiring their phone numbers, users are required to fill out application forms to record their personal information including names and addresses. A reverse phone search, also referred to as phone number lookup, is the process of retrieving this information. The identification of whom a number is registered to is one of the most common reasons for doing this.
<p>")
].

(** [sidebars] as the object it is: a map from subdomain to HTML;
    [sidebars[key]] is a lookup among the keys of the literal. *)
Definition sidebars : gmap string jsval :=
  list_to_map (map (fun kv => (fst kv, JStr (snd kv))) sidebars_table).

(** [process.env], as far as [add] reads it. *)
Record ProcessEnv : Type := { subdomain : option string }.

(** [process.env.subdomain] as a value *)
Definition env_subdomain (env : ProcessEnv) : jsval :=
  match subdomain env with
  | Some s => JStr s
  | None => JUndefined
  end.

(** [process.env.subdomain] as a property key or inside a template
    literal *)
Definition env_subdomain_text (env : ProcessEnv) : string :=
  match subdomain env with
  | Some s => s
  | None => "undefined"
  end.

(** The three assignments [addPost] makes on [data] before it hands it
    to the base model. *)
Definition addPost_data (env : ProcessEnv) (data : gmap string jsval)
  : gmap string jsval :=
  let data := <["domain" := env_subdomain env]> data in
  let data :=
    <["custom_excerpt" :=
        default JUndefined (sidebars !! env_subdomain_text env)]> data in
  <["feature_image" :=
      JStr ("https://cdn.staterecords.org/pn_logos/"
            ++ env_subdomain_text env ++ ".png")]> data.

Section PostAdd.
Context {C : Collaborators}.

(** [Post.findOne(data, options)]: without a filter and a status only
    published posts are looked for; the status 'all' is no condition. *)
Definition findOne (data : gmap string jsval) (options : Options)
  : outcome jsval :=
  let data :=
    if negb (filter options) && negb (truthy (field data "status"))
    then <["status" := JStr "published"]> data
    else data in
  let data :=
    if is_str (field data "status") "all" then delete "status" data else data in
  Model_findOne data options.

(** [Post.add(data, unfilteredOptions)]: inside the transaction of the
    caller or one of its own, [addPost()]. *)
Definition add (env : ProcessEnv) (data : gmap string jsval)
  (unfilteredOptions : Options) : outcome jsval :=
  let options := filterOptions unfilteredOptions "add" in
  match Model_add (addPost_data env data) options with
  | Resolved post =>
      findOne {["status" := JStr "all"; "id" := model_id post]} unfilteredOptions
  | Rejected e => Rejected e
  end.

End PostAdd.

(** ** A concrete set of collaborators

    Small stand-ins for the base model, the libraries and the database,
    on which the hooks can be run: messages are their keys, the clock
    advances by one millisecond per reading, [moment] reads dates and
    numbers, the renderer wraps a string body in a paragraph and throws
    on anything else, slugs are taken as given, and the items
    "with-history" and "full-history" have three and ten stored
    revisions, newest first. *)
Definition fixture : Collaborators :=
  {| i18n_t := fun key _ => key;
     cannotScheduleAPostBeforeInMinutes := 2;
     clock := fun n => (1600000000000 + Z.of_nat n)%Z;
     moment := fun v => match v with
                        | JDate t => t
                        | JNum n => Some n
                        | _ => None
                        end;
     base_onSaving := fun m => m;
     hasDateChanged := fun m attr _ => hasChanged m attr;
     contextUser := fun _ => JStr "1";
     generateSlug := fun base _ => base;
     blankDocument := "{}";
     populateImageSizes := fun v => v;
     render := fun v => match v with
                        | JStr s => Some (JStr ("<p>" ++ s ++ "</p>"))
                        | _ => None
                        end;
     htmlToText := fun v => v;
     urlUtils := fun _ v _ => v;
     toString_other := fun _ => "[object]";
     toString_trim := fun v => match v with JStr s => s | _ => "" end;
     toLocaleLowerCase := fun s => s;
     fetch_email := fun _ => JNull;
     findAll_revisions := fun id =>
       match id with
       | JStr "with-history" =>
           [JObj [("id", JStr "r3")]; JObj [("id", JStr "r2")];
            JObj [("id", JStr "r1")]]
       | JStr "full-history" =>
           map (fun i => JObj [("id", JNum i)])
               [10; 9; 8; 7; 6; 5; 4; 3; 2; 1]%Z
       | _ => []
       end;
     filterOptions := fun options _ => options;
     Model_add := fun data _ =>
       Resolved {| model_id := JStr "new"; attributes := data;
                   _previousAttributes := ∅; relations := ∅ |};
     Model_findOne := fun data _ =>
       Resolved (JObj [("id", default JUndefined (data !! "id"))]) |}.

(** A model with the given id, attributes and previous attributes. *)
Definition model_of (id : string) (attrs prev : list (string * jsval)) : Model :=
  {| model_id := JStr id;
     attributes := list_to_map attrs;
     _previousAttributes := list_to_map prev;
     relations := ∅ |}.

Definition update_options : Options :=
  {| method := "update"; importing := false; migrating := false;
     context := None; force_rerender := false;
     send_email_when_published := false; filter := false |}.

Definition import_options : Options :=
  {| method := "update"; importing := true; migrating := false;
     context := None; force_rerender := false;
     send_email_when_published := false; filter := false |}.

(** ** What a step may change *)

(** [k] is one of [keys]. *)
Definition touched (keys : list string) (k : string) : bool :=
  existsb (String.eqb k) keys.

(** [m'] is [m] up to the attributes named in [keys]: same id, same
    previous attributes, same relations, same value of every other
    attribute. *)
Record same_except (keys : list string) (m m' : Model) : Prop := {
  se_id : model_id m' = model_id m;
  se_prev : _previousAttributes m' = _previousAttributes m;
  se_rel : relations m' = relations m;
  se_get : forall k, touched keys k = false -> get m' k = get m k
}.

(** A step of the hook changes the model at most on [keys], whether it
    resolves or rejects. *)
Definition frames (keys : list string) (c : M unit) : Prop :=
  forall st, same_except keys (this st) (this (snd (c st))).

(** The base model's [onSaving] hands the attribute [attr] and its
    previous value on as they are. *)
Definition base_keeps {C : Collaborators} (attr : string) : Prop :=
  forall m, get (base_onSaving m) attr = get m attr
            /\ previous (base_onSaving m) attr = previous m attr.

(** The segments of [onSaving] between its steps that can reject or
    read the clock. *)
Definition beforeBase {C : Collaborators} (options : Options) (m : Model) : Model :=
  attachPostsMeta (dedupeTags (setCommentId options m)).

Definition beforeRender {C : Collaborators} (options : Options) (m : Model) : Model :=
  populateSizes options
    (transformUrls
       (ensureMobiledoc (revertGeneratedFields options (base_onSaving m)))).

Definition afterRender {C : Collaborators} (options : Options) (m : Model) : Model :=
  setTitle options (derivePlaintext m).

Definition afterPublishedAt {C : Collaborators} (options : Options)
  (c : Saving) (m : Model) : Model :=
  setSendEmailWhenPublished options c (setPublishedBy options c m).

(** What is left of a save once its two guards have let it through. *)
Definition afterGuards {C : Collaborators} (options : Options) (c : Saving)
  : M unit :=
  renderHtml options ;;
  modify derivePlaintext ;;
  modify (setTitle options) ;;
  setPublishedAt c ;;
  modify (setPublishedBy options c) ;;
  modify (setSendEmailWhenPublished options c) ;;
  m <- self ;;
  sequence (savingOps options c m).


(** The attributes a save may have changed by the time it looks at
    [published_by], apart from what the base hook does. *)
Definition early_keys : list string :=
  ["comment_id"; "tags"; "posts_meta"; "html"; "plaintext"; "mobiledoc";
   "custom_excerpt"; "codeinjection_head"; "codeinjection_foot";
   "feature_image"; "og_image"; "twitter_image"; "canonical_url";
   "title"; "published_at"].

(** The slug task of a save, by the branch [onSaving] took. *)
Definition slugTask {C : Collaborators} (options : Options) (c : Saving) (m : Model) : Model :=
  if titleDrivesSlug c
  then updateSlugFromTitle options c m
  else updateSlugFromSlug options m.

(** The attributes the steps of a save write after its guards, and all
    the attributes a save writes. *)
Definition after_keys : list string :=
  ["html"; "plaintext"; "title"; "published_at"; "published_by";
   "send_email_when_published"; "slug"; "mobiledoc_revisions"].

Definition saving_keys : list string :=
  (early_keys
   ++ ["published_by"; "send_email_when_published"; "slug";
       "mobiledoc_revisions"])%list.

(** The attributes a save writes once the base hook has run. *)
Definition after_base_keys : list string :=
  (generatedFields ++ map fst urlTransformMap ++ after_keys)%list.

(** The signals to the tags and authors among the emissions of a hook. *)
Definition related_events (l : list emission) : list (string * jsval * string) :=
  omap (fun e => match e with
                 | Emitted _ _ => None
                 | RelatedEmitted relation target event =>
                     Some (relation, target, event)
                 end) l.

(** ** Queries: filters, options, relations and [toJSON] *)

Module Query.

(** The [options] of a query, as far as the functions below read them:
    [status] and [context] as the values they are, [undefined] when
    missing; [formats], [columns] and [withRelated] as the arrays of
    names they are when they are there. *)
Record Options : Type := {
  status : jsval;
  context : jsval;
  formats : option (list string);
  columns : option (list string);
  withRelated : option (list string)
}.

End Query.

(** lodash on arrays of names *)
Module Lodash.

(** [_.union(a, b)]: the values of both, each once, in the order of
    their first occurrence *)
Definition union (a b : list string) : list string :=
  fold_left
    (fun seen x =>
       if existsb (fun y => String.eqb y x) seen then seen else (seen ++ [x])%list)
    (a ++ b)%list [].

(** [_.without(array, ...values)] *)
Definition without (array values : list string) : list string :=
  List.filter (fun x => negb (existsb (String.eqb x) values)) array.

(** [_.intersection(a, b)]: the values of [a] that are in [b], each once *)
Definition intersection (a b : list string) : list string :=
  union (List.filter (fun x => existsb (String.eqb x) b) a) [].

End Lodash.

Definition ALL_STATUSES : list string := ["published"; "draft"; "scheduled"].

(** [options.context && options.context[flag]] *)
Definition context_flag (options : Query.Options) (flag : string) : bool :=
  truthy (Query.context options) && truthy (prop (Query.context options) flag).

Definition enforcedFilters (options : Query.Options) : jsval :=
  if context_flag options "public" then JStr "status:published" else JNull.

Definition defaultFilters (options : Query.Options) : jsval :=
  if context_flag options "internal" then JNull
  else if context_flag options "public" then JStr "type:post"
       else JStr "type:post+status:published".

(** [delete options.status] *)
Definition delete_status (options : Query.Options) : Query.Options :=
  {| Query.status := JUndefined;
     Query.context := Query.context options;
     Query.formats := Query.formats options;
     Query.columns := Query.columns options;
     Query.withRelated := Query.withRelated options |}.

(** [extraFilters(options)]: the filter it returns and the options as
    it leaves them.  [filter] is null when the status is looked at, so
    the branches that combine filters are not taken; a status that
    [_.includes] finds among [ALL_STATUSES] is that string. *)
Definition extraFilters (options : Query.Options) : jsval * Query.Options :=
  if negb (truthy (Query.status options)) then (JNull, options)
  else
    let filter :=
      if negb (is_str (Query.status options) "all") then
        let status :=
          match find (is_str (Query.status options)) ALL_STATUSES with
          | Some status => status
          | None => "published"
          end in
        JStr ("status:" ++ status)
      else if is_str (Query.status options) "all" then
        JStr ("status:[" ++ String.concat "," ALL_STATUSES ++ "]")
      else JNull in
    (filter, delete_status options).

Definition allowedFormats : list string := ["mobiledoc"; "html"; "plaintext"].

(** If the [formats] option is not used, html is returned by default. *)
Definition formatsToJSON (attrs : gmap string jsval) (options : Query.Options)
  : gmap string jsval :=
  let defaultFormats := ["html"] in
  let formatsToKeep := default defaultFormats (Query.formats options) in
  fold_left
    (fun attrs format =>
       if negb (existsb (String.eqb format) formatsToKeep)
       then delete format attrs
       else attrs)
    allowedFormats attrs.

(** [!options.columns || options.columns.indexOf(name) > -1] *)
Definition columns_allow (options : Query.Options) (name : string) : bool :=
  match Query.columns options with
  | None => true
  | Some columns => existsb (String.eqb name) columns
  end.

(** [tags.length > 0] and [tags[0]] on the array that the base model
    gives for the relation; anything else has no first tag. *)
Definition first_of (tags : jsval) : option jsval :=
  match tags with
  | JArr (tag :: _) => Some tag
  | _ => None
  end.

Section PostJSON.
(** [Post.filterOptions(unfilteredOptions, 'toJSON')] *)
Variable filterOptions_toJSON : Query.Options -> Query.Options.
(** [ghostBookshelf.Model.prototype.toJSON.call(this, options)] *)
Variable base_toJSON : Model -> Query.Options -> gmap string jsval.

Definition toJSON (model : Model) (unfilteredOptions : Query.Options)
  : gmap string jsval :=
  let options := filterOptions_toJSON unfilteredOptions in
  let attrs := base_toJSON model options in
  let attrs := formatsToJSON attrs options in
  (* CASE: never expose the revisions *)
  let attrs := delete "mobiledoc_revisions" attrs in
  if columns_allow options "primary_tag" then
    match first_of (field attrs "tags") with
    | Some tag =>
        if is_str (prop tag "visibility") "public"
        then <["primary_tag" := tag]> attrs
        else <["primary_tag" := JNull]> attrs
    | None => <["primary_tag" := JNull]> attrs
    end
  else attrs.

End PostJSON.

Section PostOptions.
(** [ghostBookshelf.Model.permittedOptions.call(this, methodName)] *)
Variable base_permittedOptions : string -> list string.



End PostOptions.

(** [options.withRelated = withRelated] *)
Definition set_withRelated (options : Query.Options) (withRelated : list string)
  : Query.Options :=
  {| Query.status := Query.status options;
     Query.context := Query.context options;
     Query.formats := Query.formats options;
     Query.columns := Query.columns options;
     Query.withRelated := Some withRelated |}.

Section PostRelations.
(** [ghostBookshelf.model('PostsMeta').prototype.permittedAttributes()] *)
Variable PostsMeta_permittedAttributes : list string.

Definition META_ATTRIBUTES : list string :=
  Lodash.without PostsMeta_permittedAttributes ["id"; "post_id"].

(** [!options.columns || _.intersection(META_ATTRIBUTES,
    options.columns).length] *)
Definition wants_meta (options : Query.Options) : bool :=
  match Query.columns options with
  | None => true
  | Some columns =>
      negb (length (Lodash.intersection META_ATTRIBUTES columns) =? 0)%nat
  end.

Definition defaultRelations (methodName : string) (options : Query.Options)
  : Query.Options :=
  let options :=
    if existsb (String.eqb methodName) ["edit"; "add"; "destroy"]
    then set_withRelated options
           (Lodash.union ["authors"; "tags"]
              (default [] (Query.withRelated options)))
    else options in
  (* only include post_meta relation when requested in 'columns' or by
     default *)
  if wants_meta options
  then set_withRelated options
         (Lodash.union ["posts_meta"] (default [] (Query.withRelated options)))
  else options.

End PostRelations.

(** ** The storage adapter: [LocalFileStore] *)

Module LocalFileStore.

(** [config], as far as the adapter reads it. *)
Record Config : Type := {
  (** [options.hasOwnProperty('assetDomain')] *)
  hasOwn_assetDomain : bool;
  config_insecure : jsval;
  config_maxAge : jsval
}.

(** The adapter, as [constructor()] leaves it; its bucket is the GCS
    bucket 'cdn-ghost'. *)
Record Store : Type := {
  assetDomain : string;
  insecure : jsval;
  maxAge : jsval
}.

Definition constructor (config : Config) : Store :=
  {| assetDomain := "cdn-ghost.storage.googleapis.com";
     insecure := if hasOwn_assetDomain config then config_insecure config
                 else JUndefined;
     (* default max-age is 3600 for GCS, override to something more useful *)
     maxAge := if truthy (config_maxAge config) then config_maxAge config
               else JNum 2678400 |}.

(** How a promise of the adapter settles. *)
Inductive promise (A : Type) : Type :=
| Fulfilled (value : A)
| Failed (reason : jsval).
Arguments Fulfilled {A} value.
Arguments Failed {A} reason.

Record Image : Type := { path : string; name : string }.

(** [opts] of [bucket.upload(image.path, opts)] *)
Record UploadOptions : Type := {
  destination : string;
  cacheControl : string;
  public : bool
}.

Section Save.
(** [this.getTargetDir()] and [this.getUniqueFileName(image, targetDir)]
    of [ghost-storage-base] *)
Variable getTargetDir : string.
Variable getUniqueFileName : Image -> string -> promise string.
(** [this.bucket.upload(path, opts)] *)
Variable bucket_upload : string -> UploadOptions -> promise unit.
(** [String(v)] on numbers, dates, arrays and objects *)
Variable toString_other : jsval -> string.

(** [save(image)]: how its promise settles, and the uploads it has
    asked the bucket for.  The module's [options] is [{}] or the
    configuration, an object either way, so the first line does not
    reject. *)
Definition save (this : Store) (image : Image)
  : promise string * list (string * UploadOptions) :=
  let targetDir := getTargetDir in
  let googleStoragePath :=
    "http" ++ (if truthy (insecure this) then "" else "s") ++ "://"
    ++ assetDomain this ++ "/" in
  match getUniqueFileName image targetDir with
  | Fulfilled newFile =>
      let targetFilename := newFile in
      let opts :=
        {| destination := newFile;
           cacheControl :=
             "public, max-age=" ++ String_ toString_other (maxAge this);
           public := true |} in
      match bucket_upload (path image) opts with
      | Fulfilled _ =>
          (Fulfilled (googleStoragePath ++ targetFilename), [(path image, opts)])
      | Failed e => (Failed e, [(path image, opts)])
      end
  | Failed e => (Failed e, [])
  end.

End Save.

End LocalFileStore.

(** ** Meta data of the frontend *)

Module Meta.

Section Texts.
(** [settingsCache.get(key)] *)
Variable settingsCache_get : string -> jsval.
(** [s.trim()] *)
Variable trim : string -> string.








End Texts.

(** An image of the meta data: its [url] and, when they are there, the
    width and height of its [dimensions]. *)
Record Image : Type := { url : jsval; dimensions : option (Z * Z) }.

(** [metaData], as far as [getImageDimensions] reads and writes it. *)
Record MetaData : Type := { coverImage : Image; site_logo : Image }.

(** [_.assign(image, {dimensions: {width, height}})] *)
Definition assign_dimensions (image : Image) (width height : Z) : Image :=
  {| url := url image; dimensions := Some (width, height) |}.

Section Images.
(** [imageSizeCache(url)]: what its promise resolves with, as the
    width and height that [_.has] finds, both numbers, or [None] when
    one of them is missing *)
Variable imageSizeCache : jsval -> option (Z * Z).

Definition getImageDimensions (metaData : MetaData) : MetaData :=
  let fetch_coverImage := imageSizeCache (url (coverImage metaData)) in
  let fetch_logo := imageSizeCache (url (site_logo metaData)) in
  let metaData :=
    match fetch_coverImage with
    | Some (width, height) =>
        {| coverImage := assign_dimensions (coverImage metaData) width height;
           site_logo := site_logo metaData |}
    | None => metaData
    end in
  match fetch_logo with
  | Some (width, height) =>
      (* We have some restrictions for publisher.logo: the image needs
         to be <=600px wide and <=60px high *)
      if (height <=? 60)%Z && (width <=? 600)%Z then
        {| coverImage := coverImage metaData;
           site_logo := assign_dimensions (site_logo metaData) width height |}
      else if (width =? height)%Z then
        (* CASE: the logo is too large, but it is a square. We fake it... *)
        {| coverImage := coverImage metaData;
           site_logo := assign_dimensions (site_logo metaData) 60 60 |}
      else metaData
  | None => metaData
  end.

End Images.

End Meta.

(** ** The state key helper *)




(** * Properties *)

(** ** Values *)

Lemma opt_Z_eqb_eq x y : opt_Z_eqb x y = true <-> x = y.
Proof.
  destruct x as [a|], y as [b|]; simpl; split; intros H;
    try discriminate; try reflexivity.
  - apply Z.eqb_eq in H. now subst.
  - inversion H. apply Z.eqb_refl.
Qed.

(** Deep equality decides equality of values. *)
Lemma isEqual_eq a : forall b, isEqual a b = true <-> a = b.
Proof.
  induction a as [| | x | x | x | x | l IH | l IH] using jsval_nested_ind;
    intros b; destruct b as [| | y | y | y | y | l2 | l2]; simpl;
    try (split; intros H; [discriminate | inversion H]);
    try (split; reflexivity).
  - rewrite Bool.eqb_true_iff. split; [intros ->; reflexivity | now inversion 1].
  - rewrite Z.eqb_eq. split; [intros ->; reflexivity | now inversion 1].
  - rewrite String.eqb_eq. split; [intros ->; reflexivity | now inversion 1].
  - rewrite opt_Z_eqb_eq. split; [intros ->; reflexivity | now inversion 1].
  - revert l2. induction IH as [| u l1 Hu _ IHl]; intros [| v l2].
    + split; reflexivity.
    + split; [discriminate | inversion 1].
    + split; [discriminate | inversion 1].
    + rewrite andb_true_iff, Hu, IHl.
      split; [intros [-> H]; now inversion H | inversion 1; split; reflexivity].
  - revert l2. induction IH as [| [k u] l1 Hu _ IHl]; intros [| [k' v] l2].
    + split; reflexivity.
    + split; [discriminate | inversion 1].
    + split; [discriminate | inversion 1].
    + simpl in Hu. rewrite !andb_true_iff, String.eqb_eq, Hu, IHl.
      split.
      * intros [[-> ->] H]. now inversion H.
      * inversion 1. repeat split; reflexivity.
Qed.

Lemma isEqual_refl a : isEqual a a = true.
Proof. now apply isEqual_eq. Qed.

Lemma isEqual_false a b : isEqual a b = false <-> a <> b.
Proof.
  rewrite <- isEqual_eq. destruct (isEqual a b); split; congruence.
Qed.

Lemma strict_eq_str a s : strict_eq a (JStr s) = true <-> a = JStr s.
Proof.
  destruct a; simpl; try (split; [discriminate | inversion 1]).
  rewrite String.eqb_eq. split; [intros ->; reflexivity | now inversion 1].
Qed.

Lemma strict_eq_eq a b : strict_eq a b = true -> a = b.
Proof.
  destruct a, b; simpl; try discriminate; try reflexivity.
  - rewrite Bool.eqb_true_iff. now intros ->.
  - rewrite Z.eqb_eq. now intros ->.
  - rewrite String.eqb_eq. now intros ->.
Qed.

(** ** The model object *)

Lemma get_set m k v k' :
  get (set m k v) k' = if String.eqb k k' then v else get m k'.
Proof.
  unfold get, set; simpl.
  destruct (String.eqb_spec k k') as [<- | Hne].
  - now rewrite lookup_insert_eq.
  - now rewrite lookup_insert_ne.
Qed.

Lemma get_set_eq m k v : get (set m k v) k = v.
Proof. now rewrite get_set, String.eqb_refl. Qed.

Lemma previous_set m k v k' : previous (set m k v) k' = previous m k'.
Proof. reflexivity. Qed.

Lemma hasChanged_set_previous m k :
  hasChanged (set m k (previous m k)) k = false.
Proof.
  unfold hasChanged. now rewrite previous_set, get_set_eq, isEqual_refl.
Qed.

Lemma not_hasChanged m k : hasChanged m k = false -> get m k = previous m k.
Proof.
  unfold hasChanged. intros H. apply negb_false_iff, isEqual_eq in H. congruence.
Qed.

(** ** Frames *)

Lemma same_except_refl keys m : same_except keys m m.
Proof. now split. Qed.

Lemma same_except_trans keys m1 m2 m3 :
  same_except keys m1 m2 -> same_except keys m2 m3 -> same_except keys m1 m3.
Proof.
  intros [i1 p1 r1 g1] [i2 p2 r2 g2]. split; try congruence.
  intros k Hk. now rewrite g2, g1.
Qed.

Lemma same_except_mono keys keys' m m' :
  forallb (touched keys') keys = true ->
  same_except keys m m' -> same_except keys' m m'.
Proof.
  intros Hsub [i p r g]. split; try assumption.
  intros k Hk. apply g. unfold touched in *.
  destruct (existsb (String.eqb k) keys) eqn:E; [| reflexivity].
  apply existsb_exists in E as [x [Hin Hx]].
  apply String.eqb_eq in Hx; subst x.
  rewrite forallb_forall in Hsub. rewrite (Hsub k Hin) in Hk. discriminate.
Qed.

Lemma same_except_set keys m k v :
  touched keys k = true -> same_except keys m (set m k v).
Proof.
  intros Hk. split; try reflexivity.
  intros k' Hk'. rewrite get_set.
  destruct (String.eqb_spec k k') as [<- | _]; [congruence | reflexivity].
Qed.

Lemma same_except_previous keys m m' k :
  same_except keys m m' -> previous m' k = previous m k.
Proof. intros [_ p _ _]. unfold previous. now rewrite p. Qed.

Lemma same_except_hasChanged keys m m' k :
  same_except keys m m' -> touched keys k = false ->
  hasChanged m' k = hasChanged m k.
Proof.
  intros H Hk. unfold hasChanged.
  now rewrite (same_except_previous _ _ _ k H), (se_get _ _ _ H k Hk).
Qed.

Lemma same_except_fold_left {A} keys (f : Model -> A -> Model) (l : list A) :
  (forall m x, In x l -> same_except keys m (f m x)) ->
  forall m, same_except keys m (fold_left f l m).
Proof.
  induction l as [| x l IH]; intros Hf m; simpl.
  - apply same_except_refl.
  - eapply same_except_trans; [apply Hf; now left |].
    apply IH. intros m' y Hy. apply Hf. now right.
Qed.

Lemma touched_In keys k : In k keys -> touched keys k = true.
Proof.
  intros Hin. apply existsb_exists. exists k. split; [assumption |].
  apply String.eqb_refl.
Qed.

(** Closes [same_except keys m (f m)] once [f] is unfolded to a tree of
    conditionals whose leaves are [m] or a [set] on [m]. *)
Ltac frame_leaves :=
  repeat match goal with
         | |- same_except _ ?m ?m => apply same_except_refl
         | |- same_except _ ?m (set ?m _ _) =>
             apply same_except_set; reflexivity
         | |- same_except _ _ (if ?b then _ else _) => destruct b
         | |- same_except _ _ (match ?x with _ => _ end) => destruct x
         end.

Section Frames.
Context {C : Collaborators}.

Lemma setCommentId_frame options m :
  same_except ["comment_id"] m (setCommentId options m).
Proof. unfold setCommentId. frame_leaves. Qed.

Lemma dedupeTags_frame m : same_except ["tags"] m (dedupeTags m).
Proof. unfold dedupeTags. frame_leaves. Qed.

Lemma attachPostsMeta_frame m : same_except ["posts_meta"] m (attachPostsMeta m).
Proof. unfold attachPostsMeta. frame_leaves. Qed.

Lemma revertGeneratedFields_frame options m :
  same_except generatedFields m (revertGeneratedFields options m).
Proof.
  unfold revertGeneratedFields. destruct (negb (migrating options));
    [| apply same_except_refl].
  apply same_except_fold_left. intros m' field Hin.
  destruct (hasChanged m' field); [| apply same_except_refl].
  apply same_except_set. now apply touched_In.
Qed.

Lemma ensureMobiledoc_frame m : same_except ["mobiledoc"] m (ensureMobiledoc m).
Proof. unfold ensureMobiledoc. frame_leaves. Qed.

Lemma transformUrls_frame m :
  same_except (map fst urlTransformMap) m (transformUrls m).
Proof.
  unfold transformUrls. apply same_except_fold_left.
  intros m' [attr [meth opts]] Hin. unfold transformUrl.
  destruct (hasChanged m' attr && truthy (get m' attr));
    [| apply same_except_refl].
  apply same_except_set, touched_In.
  change attr with (fst (attr, (meth, opts))). now apply in_map.
Qed.

Lemma populateSizes_frame options m :
  same_except ["mobiledoc"] m (populateSizes options m).
Proof. unfold populateSizes. frame_leaves. Qed.

Lemma derivePlaintext_frame m : same_except ["plaintext"] m (derivePlaintext m).
Proof. unfold derivePlaintext. frame_leaves. Qed.

Lemma setTitle_frame options m : same_except ["title"] m (setTitle options m).
Proof. unfold setTitle. frame_leaves. Qed.

Lemma setPublishedBy_frame options c m :
  same_except ["published_by"] m (setPublishedBy options c m).
Proof. unfold setPublishedBy. frame_leaves. Qed.

Lemma setSendEmailWhenPublished_frame options c m :
  same_except ["send_email_when_published"] m
    (setSendEmailWhenPublished options c m).
Proof. unfold setSendEmailWhenPublished. frame_leaves. Qed.

Lemma ensureSendEmail_frame m :
  same_except ["send_email_when_published"] m
    (ensureSendEmailWhenPublishedIsUnchanged m).
Proof. unfold ensureSendEmailWhenPublishedIsUnchanged. frame_leaves. Qed.

Lemma updateSlugFromTitle_frame options c m :
  same_except ["slug"] m (updateSlugFromTitle options c m).
Proof. unfold updateSlugFromTitle. frame_leaves. Qed.

Lemma updateSlugFromSlug_frame options m :
  same_except ["slug"] m (updateSlugFromSlug options m).
Proof. unfold updateSlugFromSlug. frame_leaves. Qed.

End Frames.

(** ** The steps of [onSaving] that can reject or read the clock *)

Section Steps.
Context {C : Collaborators}.

Lemma beforeBase_frame options m :
  same_except ["comment_id"; "tags"; "posts_meta"] m (beforeBase options m).
Proof.
  unfold beforeBase.
  eapply same_except_trans with (m2 := setCommentId options m).
  { eapply same_except_mono; [| apply setCommentId_frame]. reflexivity. }
  eapply same_except_trans with (m2 := dedupeTags (setCommentId options m)).
  { eapply same_except_mono; [| apply dedupeTags_frame]. reflexivity. }
  eapply same_except_mono; [| apply attachPostsMeta_frame]. reflexivity.
Qed.

(** From the base hook to the renderer: the generated fields and the
    attributes that carry URLs. *)
Lemma afterBase_frame options m :
  same_except (generatedFields ++ map fst urlTransformMap) m
    (populateSizes options
       (transformUrls (ensureMobiledoc (revertGeneratedFields options m)))).
Proof.
  eapply same_except_trans with (m2 := revertGeneratedFields options m).
  { eapply same_except_mono; [| apply revertGeneratedFields_frame]. reflexivity. }
  eapply same_except_trans with (m2 := ensureMobiledoc _).
  { eapply same_except_mono; [| apply ensureMobiledoc_frame]. reflexivity. }
  eapply same_except_trans with (m2 := transformUrls _).
  { eapply same_except_mono; [| apply transformUrls_frame]. reflexivity. }
  eapply same_except_mono; [| apply populateSizes_frame]. reflexivity.
Qed.

Lemma afterRender_frame options m :
  same_except ["plaintext"; "title"] m (afterRender options m).
Proof.
  unfold afterRender.
  eapply same_except_trans with (m2 := derivePlaintext m).
  { eapply same_except_mono; [| apply derivePlaintext_frame]. reflexivity. }
  eapply same_except_mono; [| apply setTitle_frame]. reflexivity.
Qed.

Lemma afterPublishedAt_frame options c m :
  same_except ["published_by"; "send_email_when_published"] m
    (afterPublishedAt options c m).
Proof.
  unfold afterPublishedAt.
  eapply same_except_trans with (m2 := setPublishedBy options c m).
  { eapply same_except_mono; [| apply setPublishedBy_frame]. reflexivity. }
  eapply same_except_mono; [| apply setSendEmailWhenPublished_frame]. reflexivity.
Qed.

(** The first guard leaves the state as it found it. *)
Lemma disallowPublishedToScheduled_state c st :
  snd (disallowPublishedToScheduled c st) = st.
Proof.
  unfold disallowPublishedToScheduled.
  now destruct (negb _ && _ && _).
Qed.

(** The scheduling check reads the clock at most once and leaves the
    model as it found it. *)
Lemma validateScheduled_this options c st :
  this (snd (validateScheduled options c st)) = this st.
Proof.
  unfold validateScheduled.
  destruct (is_str (newStatus c) "scheduled"); [| reflexivity].
  destruct (negb (truthy (publishedAt c))); [reflexivity |].
  destruct (moment (publishedAt c)) as [at_ |]; [| reflexivity].
  destruct (publishedAtHasChanged c); [| reflexivity].
  unfold bind, now; simpl.
  now destruct (_ && _ && _).
Qed.

Lemma validateScheduled_other_status options c st :
  is_str (newStatus c) "scheduled" = false ->
  validateScheduled options c st = (Resolved tt, st).
Proof. unfold validateScheduled. now intros ->. Qed.

(** The renderer step: it either rejects with the mobiledoc error and
    leaves the state alone, or resolves having changed [html] at most. *)
Lemma renderHtml_cases options st :
  renderHtml options st = (Rejected (ValidationError "Invalid mobiledoc structure."), st)
  \/ (renderHtml options st = (Resolved tt, st))
  \/ (exists html,
        render (get (this st) "mobiledoc") = Some html
        /\ renderHtml options st
           = (Resolved tt, {| this := set (this st) "html" html; tick := tick st |})).
Proof.
  unfold renderHtml, bind, self; simpl.
  destruct (_ || _ || _); [| now (right; left)].
  destruct (render (get (this st) "mobiledoc")) as [html |].
  - right; right. now exists html.
  - now left.
Qed.

Lemma renderHtml_frame options : frames ["html"] (renderHtml options).
Proof.
  intros st.
  destruct (renderHtml_cases options st) as [-> | [-> | [html [_ ->]]]]; simpl.
  - apply same_except_refl.
  - apply same_except_refl.
  - now apply same_except_set.
Qed.

Lemma renderHtml_tick options st : tick (snd (renderHtml options st)) = tick st.
Proof.
  now destruct (renderHtml_cases options st) as [-> | [-> | [html [_ ->]]]].
Qed.

Lemma setPublishedAt_frame c : frames ["published_at"] (setPublishedAt c).
Proof.
  intros st. unfold setPublishedAt.
  destruct (_ && _); simpl.
  - now apply same_except_set.
  - apply same_except_refl.
Qed.

Lemma setPublishedAt_resolves c st :
  fst (setPublishedAt c st) = Resolved tt.
Proof. unfold setPublishedAt. now destruct (_ && _). Qed.

Lemma modify_frame keys f :
  (forall m, same_except keys m (f m)) -> frames keys (modify f).
Proof. intros Hf st. apply Hf. Qed.

Lemma updateRevisions_frame options :
  frames ["mobiledoc_revisions"] (updateRevisions options).
Proof.
  intros st. unfold updateRevisions, bind, self, now, modify; simpl.
  destruct (_ && _); simpl; now apply same_except_set.
Qed.

Lemma updateRevisions_resolves options st :
  fst (updateRevisions options st) = Resolved tt.
Proof.
  unfold updateRevisions, bind, self, now, modify; simpl.
  now destruct (_ && _).
Qed.

Lemma sequence_frames keys (ops : list (M unit)) :
  Forall (frames keys) ops -> frames keys (sequence ops).
Proof.
  induction 1 as [| op ops Hop _ IH]; intros st; simpl.
  - apply same_except_refl.
  - unfold bind. specialize (Hop st).
    destruct (op st) as [[[] | e] st1]; simpl in *; [| assumption].
    eapply same_except_trans; [eassumption | apply IH].
Qed.

Lemma sequence_resolves (ops : list (M unit)) :
  Forall (fun op => forall st, fst (op st) = Resolved tt) ops ->
  forall st, fst (sequence ops st) = Resolved tt.
Proof.
  induction 1 as [| op ops Hop _ IH]; intros st; simpl; [reflexivity |].
  unfold bind. specialize (Hop st).
  destruct (op st) as [[[] | e] st1]; simpl in *; [apply IH | discriminate].
Qed.

End Steps.

Section Saving.
Context {C : Collaborators}.

Lemma frames_mono keys keys' c :
  forallb (touched keys') keys = true -> frames keys c -> frames keys' c.
Proof. intros Hsub Hc st. eapply same_except_mono; [exact Hsub | apply Hc]. Qed.

(** The tasks of a save change the email flag, the slug and the
    revisions at most. *)
Lemma savingOps_frames options c m :
  frames ["send_email_when_published"; "slug"; "mobiledoc_revisions"]
    (sequence (savingOps options c m)).
Proof.
  apply sequence_frames. unfold savingOps.
  repeat apply Forall_app_2.
  - destruct (_ && _); [| constructor].
    constructor; [| constructor]. apply modify_frame. intros m'.
    eapply same_except_mono; [| apply ensureSendEmail_frame]. reflexivity.
  - constructor; [| constructor].
    destruct (titleDrivesSlug c); apply modify_frame; intros m'.
    + eapply same_except_mono; [| apply updateSlugFromTitle_frame]. reflexivity.
    + eapply same_except_mono; [| apply updateSlugFromSlug_frame]. reflexivity.
  - destruct (_ && _ && _); [| constructor].
    constructor; [| constructor].
    eapply frames_mono; [| apply updateRevisions_frame]. reflexivity.
Qed.

(** The tasks of a save never reject. *)
Lemma savingOps_resolve options c m st :
  fst (sequence (savingOps options c m) st) = Resolved tt.
Proof.
  apply sequence_resolves. unfold savingOps.
  repeat apply Forall_app_2.
  - destruct (_ && _); [| constructor].
    constructor; [| constructor]. reflexivity.
  - constructor; [| constructor]. now destruct (titleDrivesSlug c).
  - destruct (_ && _ && _); [| constructor].
    constructor; [| constructor].
    intros st'. apply updateRevisions_resolves.
Qed.

Lemma bind_resolved {A B} (c : M A) (k : A -> M B) st b st' :
  bind c k st = (Resolved b, st') ->
  exists a st1, c st = (Resolved a, st1) /\ k a st1 = (Resolved b, st').
Proof.
  unfold bind. destruct (c st) as [[a | e] st1]; [| discriminate].
  intros H. now exists a, st1.
Qed.

Lemma bind_modify_resolved {B} f (k : unit -> M B) m t b st' :
  bind (modify f) k {| this := m; tick := t |} = (Resolved b, st') ->
  k tt {| this := f m; tick := t |} = (Resolved b, st').
Proof. intros H. exact H. Qed.

Lemma bind_self_resolved {B} (k : Model -> M B) m t b st' :
  bind self k {| this := m; tick := t |} = (Resolved b, st') ->
  k m {| this := m; tick := t |} = (Resolved b, st').
Proof. intros H. exact H. Qed.

(** A save that resolves went through each step; the states between
    the steps are these. *)
Lemma onSaving_resolved options m0 t0 st' :
  onSaving options {| this := m0; tick := t0 |} = (Resolved tt, st') ->
  exists t1 m12 m15 t15,
    disallowPublishedToScheduled (saving_consts m0) {| this := m0; tick := t0 |}
    = (Resolved tt, {| this := m0; tick := t0 |})
    /\ validateScheduled options (saving_consts m0)
         {| this := setCommentId options m0; tick := t0 |}
       = (Resolved tt, {| this := setCommentId options m0; tick := t1 |})
    /\ renderHtml options
         {| this := beforeRender options (beforeBase options m0); tick := t1 |}
       = (Resolved tt, {| this := m12; tick := t1 |})
    /\ setPublishedAt (saving_consts m0)
         {| this := afterRender options m12; tick := t1 |}
       = (Resolved tt, {| this := m15; tick := t15 |})
    /\ sequence (savingOps options (saving_consts m0)
                   (afterPublishedAt options (saving_consts m0) m15))
         {| this := afterPublishedAt options (saving_consts m0) m15; tick := t15 |}
       = (Resolved tt, st').
Proof.
  intros H. unfold onSaving in H.
  apply bind_self_resolved in H.
  apply bind_resolved in H as ([] & [mg tg] & Hg & H).
  pose proof (disallowPublishedToScheduled_state (saving_consts m0)
                {| this := m0; tick := t0 |}) as Hs.
  rewrite Hg in Hs. injection Hs as -> ->.
  apply bind_modify_resolved in H.
  apply bind_resolved in H as ([] & [mv t1] & Hv & H).
  pose proof (validateScheduled_this options (saving_consts m0)
                {| this := setCommentId options m0; tick := t0 |}) as Hs.
  rewrite Hv in Hs. cbn [snd this] in Hs. subst mv.
  do 7 apply bind_modify_resolved in H.
  apply bind_resolved in H as ([] & [m12 t12] & Hr & H).
  pose proof (renderHtml_tick options
                {| this := beforeRender options (beforeBase options m0);
                   tick := t1 |}) as Hs.
  unfold beforeRender, beforeBase in Hs.
  rewrite Hr in Hs. cbn [snd tick] in Hs. subst t12.
  do 2 apply bind_modify_resolved in H.
  apply bind_resolved in H as ([] & [m15 t15] & Hp & H).
  do 2 apply bind_modify_resolved in H.
  apply bind_self_resolved in H.
  exists t1, m12, m15, t15. repeat split; assumption.
Qed.

End Saving.

(** ** Running a save forward *)

Section Run.
Context {C : Collaborators}.

Lemma bind_eq {A B} (c : M A) (k : A -> M B) st a st1 :
  c st = (Resolved a, st1) -> bind c k st = k a st1.
Proof. unfold bind. now intros ->. Qed.

Lemma bind_rejected {A B} (c : M A) (k : A -> M B) st e st1 :
  c st = (Rejected e, st1) -> bind c k st = (Rejected e, st1).
Proof. unfold bind. now intros ->. Qed.

Lemma bind_self_eq {B} (k : Model -> M B) m t :
  bind self k {| this := m; tick := t |} = k m {| this := m; tick := t |}.
Proof. reflexivity. Qed.

Lemma bind_modify_eq {B} f (k : unit -> M B) m t :
  bind (modify f) k {| this := m; tick := t |}
  = k tt {| this := f m; tick := t |}.
Proof. reflexivity. Qed.

Lemma onSaving_guard1 options m t e :
  disallowPublishedToScheduled (saving_consts m) {| this := m; tick := t |}
  = (Rejected e, {| this := m; tick := t |}) ->
  onSaving options {| this := m; tick := t |}
  = (Rejected e, {| this := m; tick := t |}).
Proof.
  intros Hg. unfold onSaving. rewrite bind_self_eq. cbv beta zeta.
  now apply bind_rejected.
Qed.

Lemma onSaving_guard2 options m t e st1 :
  disallowPublishedToScheduled (saving_consts m) {| this := m; tick := t |}
  = (Resolved tt, {| this := m; tick := t |}) ->
  validateScheduled options (saving_consts m)
    {| this := setCommentId options m; tick := t |} = (Rejected e, st1) ->
  onSaving options {| this := m; tick := t |} = (Rejected e, st1).
Proof.
  intros Hg Hv. unfold onSaving. rewrite bind_self_eq. cbv beta zeta.
  rewrite (bind_eq _ _ _ _ _ Hg). rewrite bind_modify_eq.
  now apply bind_rejected.
Qed.

Lemma onSaving_afterGuards options m t t1 :
  disallowPublishedToScheduled (saving_consts m) {| this := m; tick := t |}
  = (Resolved tt, {| this := m; tick := t |}) ->
  validateScheduled options (saving_consts m)
    {| this := setCommentId options m; tick := t |}
  = (Resolved tt, {| this := setCommentId options m; tick := t1 |}) ->
  onSaving options {| this := m; tick := t |}
  = afterGuards options (saving_consts m)
      {| this := beforeRender options (beforeBase options m); tick := t1 |}.
Proof.
  intros Hg Hv. unfold onSaving. rewrite bind_self_eq. cbv beta zeta.
  rewrite (bind_eq _ _ _ _ _ Hg). rewrite bind_modify_eq.
  rewrite (bind_eq _ _ _ _ _ Hv).
  do 7 rewrite bind_modify_eq. reflexivity.
Qed.

Lemma afterGuards_outcome options c st :
  fst (afterGuards options c st) = fst (renderHtml options st).
Proof.
  unfold afterGuards. destruct st as [m t].
  destruct (renderHtml options {| this := m; tick := t |})
    as [[[] | e] [m12 t12]] eqn:Er.
  - rewrite (bind_eq _ _ _ _ _ Er). do 2 rewrite bind_modify_eq.
    pose proof (setPublishedAt_resolves c
                  {| this := setTitle options (derivePlaintext m12); tick := t12 |}) as Hp.
    destruct (setPublishedAt c _) as [o [m15 t15]] eqn:Ep. simpl in Hp. subst o.
    rewrite (bind_eq _ _ _ _ _ Ep). do 2 rewrite bind_modify_eq.
    rewrite bind_self_eq. apply savingOps_resolve.
  - now rewrite (bind_rejected _ _ _ _ _ Er).
Qed.
End Run.


(** ** The publication state machine *)

Section StateMachine.
Context {C : Collaborators}.

Lemma disallowPublishedToScheduled_cases c st :
  disallowPublishedToScheduled c st
  = (Rejected (ValidationError
                 (i18n_t "errors.models.post.isAlreadyPublished"
                         [("key", JStr "status")])), st)
  \/ disallowPublishedToScheduled c st = (Resolved tt, st).
Proof.
  unfold disallowPublishedToScheduled.
  destruct (negb _ && _ && _); [now left | now right].
Qed.


(** C1. A save that asks for the status 'scheduled' on an item whose
    previous status is 'published' is rejected with a ValidationError,
    whatever the rest of the payload and the options are, and the model
    is left exactly as it was. *)
Theorem published_to_scheduled_rejected options st :
  previous (this st) "status" = JStr "published" ->
  get (this st) "status" = JStr "scheduled" ->
  onSaving options st
  = (Rejected (ValidationError
                 (i18n_t "errors.models.post.isAlreadyPublished"
                         [("key", JStr "status")])), st).
Proof.
  destruct st as [m t]. cbn [this]. intros Hprev Hnew.
  apply onSaving_guard1.
  unfold disallowPublishedToScheduled, saving_consts.
  cbn [newStatus olderStatus]. now rewrite Hprev, Hnew.
Qed.




Lemma renderHtml_outcome options m t :
  fst (renderHtml options {| this := m; tick := t |})
  = if hasChanged m "mobiledoc"
       || force_rerender options
       || (negb (truthy (get m "html"))
           && (migrating options || importing options))
    then match render (get m "mobiledoc") with
         | Some _ => Resolved tt
         | None => Rejected (ValidationError "Invalid mobiledoc structure.")
         end
    else Resolved tt.
Proof.
  unfold renderHtml. rewrite bind_self_eq.
  destruct (_ || _ || _); [| reflexivity].
  now destruct (render (get m "mobiledoc")).
Qed.



End StateMachine.


Lemma published_to_scheduled_rejected_witness :
  let st :=
    {| this := model_of "p1"
                 [("status", JStr "scheduled"); ("published_at", JNum 1700000000000)]
                 [("status", JStr "published")];
       tick := 0 |} in
  previous (this st) "status" = JStr "published"
  /\ get (this st) "status" = JStr "scheduled"
  /\ onSaving (C := fixture) update_options st
     = (Rejected (ValidationError "errors.models.post.isAlreadyPublished"), st).
Proof.
  intros st.
  assert (Hprev : previous (this st) "status" = JStr "published")
    by (vm_compute; reflexivity).
  assert (Hnew : get (this st) "status" = JStr "scheduled")
    by (vm_compute; reflexivity).
  split; [exact Hprev | split; [exact Hnew |]].
  exact (published_to_scheduled_rejected (C := fixture) update_options st Hprev Hnew).
Defined.


(** ** Attribution and the publication date *)

Section Attribution.
Context {C : Collaborators}.

Lemma touched_sub keys keys' k :
  forallb (touched keys') keys = true ->
  touched keys' k = false -> touched keys k = false.
Proof.
  intros Hsub Hk. unfold touched in *.
  destruct (existsb (String.eqb k) keys) eqn:E; [| reflexivity].
  apply existsb_exists in E as [x [Hin Hx]].
  apply String.eqb_eq in Hx; subst x.
  rewrite forallb_forall in Hsub. rewrite (Hsub k Hin) in Hk. discriminate.
Qed.

Lemma frames_eq keys (c : M unit) m t o m' t' :
  frames keys c ->
  c {| this := m; tick := t |} = (o, {| this := m'; tick := t' |}) ->
  same_except keys m m'.
Proof. intros Hc Heq. specialize (Hc {| this := m; tick := t |}). now rewrite Heq in Hc. Qed.

Lemma hasChanged_eq m m' k :
  get m' k = get m k -> previous m' k = previous m k ->
  hasChanged m' k = hasChanged m k.
Proof. unfold hasChanged. now intros -> ->. Qed.

(** An attribute that neither the base hook nor the steps before the
    renderer touch reaches the renderer as the payload has it. *)
Lemma beforeRender_keeps options m k :
  base_keeps k -> touched early_keys k = false ->
  get (beforeRender options (beforeBase options m)) k = get m k
  /\ previous (beforeRender options (beforeBase options m)) k = previous m k.
Proof.
  intros Hbase Hk. unfold beforeRender.
  pose proof (afterBase_frame options (base_onSaving (beforeBase options m))) as Ha.
  pose proof (beforeBase_frame options m) as Hb.
  destruct (Hbase (beforeBase options m)) as [Hg Hp].
  split.
  - rewrite (se_get _ _ _ Ha), Hg, (se_get _ _ _ Hb); [reflexivity | |];
      apply (touched_sub _ early_keys); (reflexivity || assumption).
  - rewrite (same_except_previous _ _ _ k Ha), Hp.
    apply (same_except_previous _ _ _ k Hb).
Qed.

(** The same up to the step that looks at [published_by]. *)
Lemma before_publishedBy_keeps options c m t1 m12 m15 t15 k :
  renderHtml options
    {| this := beforeRender options (beforeBase options m); tick := t1 |}
  = (Resolved tt, {| this := m12; tick := t1 |}) ->
  setPublishedAt c {| this := afterRender options m12; tick := t1 |}
  = (Resolved tt, {| this := m15; tick := t15 |}) ->
  base_keeps k -> touched early_keys k = false ->
  get m15 k = get m k /\ previous m15 k = previous m k.
Proof.
  intros Hr Hp Hbase Hk.
  pose proof (frames_eq _ _ _ _ _ _ _ (renderHtml_frame options) Hr) as F1.
  pose proof (afterRender_frame options m12) as F2.
  pose proof (frames_eq _ _ _ _ _ _ _ (setPublishedAt_frame c) Hp) as F3.
  destruct (beforeRender_keeps options m k Hbase Hk) as [Hg Hprev].
  split.
  - rewrite (se_get _ _ _ F3), (se_get _ _ _ F2), (se_get _ _ _ F1), Hg;
      [reflexivity | | |];
      apply (touched_sub _ early_keys); (reflexivity || assumption).
  - rewrite (same_except_previous _ _ _ k F3), (same_except_previous _ _ _ k F2),
      (same_except_previous _ _ _ k F1). exact Hprev.
Qed.

(** What a resolved save leaves in an attribute that its tasks do not
    touch is what the synchronous part left there. *)
Lemma after_ops_get options c m15 t15 st' k :
  sequence (savingOps options c (afterPublishedAt options c m15))
    {| this := afterPublishedAt options c m15; tick := t15 |}
  = (Resolved tt, st') ->
  touched ["send_email_when_published"; "slug"; "mobiledoc_revisions"] k = false ->
  get (this st') k = get (afterPublishedAt options c m15) k.
Proof.
  intros Hops Hk.
  pose proof (savingOps_frames options c (afterPublishedAt options c m15)
                {| this := afterPublishedAt options c m15; tick := t15 |}) as F.
  rewrite Hops in F. cbn [snd this] in F. now apply (se_get _ _ _ F).
Qed.

(** C3. For every save that asks for the status 'published' and
    resolves: when the payload has no [published_at], the attribute is
    set to the reading of the clock at that moment; when the status has
    changed, [published_by] is set to the acting user, unless the save
    is an import and [published_by] is already there, in which case it
    is kept; when the status has not changed, a changed [published_by]
    of a save that is not an import goes back to its previous value
    (as a string, or null when there was none). *)
Theorem publishing_sets_date_and_actor options m t st' :
  onSaving options {| this := m; tick := t |} = (Resolved tt, st') ->
  get m "status" = JStr "published" ->
  base_keeps "status" ->
  base_keeps "published_by" ->
  (truthy (get m "published_at") = false ->
   get (this st') "published_at" = JDate (Some (clock t)))
  /\ (hasChanged m "status" = true ->
      (truthy (get m "published_by") && importing options = false ->
       get (this st') "published_by"
       = JStr (String_ toString_other (contextUser options)))
      /\ (truthy (get m "published_by") && importing options = true ->
          get (this st') "published_by" = get m "published_by"))
  /\ (hasChanged m "status" = false ->
      hasChanged m "published_by" = true ->
      importing options = false ->
      get (this st') "published_by"
      = (if truthy (previous m "published_by")
         then JStr (String_ toString_other (previous m "published_by"))
         else JNull)
      /\ (forall s, previous m "published_by" = JStr s -> s <> "" ->
          get (this st') "published_by" = JStr s)
      /\ (previous m "published_by" = JNull ->
          get (this st') "published_by" = JNull)).
Proof.
  intros H Hstatus Bs Bp.
  apply onSaving_resolved in H as (t1 & m12 & m15 & t15 & Hg & Hv & Hr & Hp & Hops).
  assert (Hnew : is_str (newStatus (saving_consts m)) "published" = true).
  { cbn [saving_consts newStatus]. now rewrite Hstatus. }
  destruct (before_publishedBy_keeps _ _ _ _ _ _ _ "status" Hr Hp Bs eq_refl)
    as [Gs Ps].
  destruct (before_publishedBy_keeps _ _ _ _ _ _ _ "published_by" Hr Hp Bp eq_refl)
    as [Gp Pp].
  pose proof (hasChanged_eq _ _ _ Gs Ps) as Cs.
  pose proof (hasChanged_eq _ _ _ Gp Pp) as Cp.
  assert (Hby : get (this st') "published_by"
                = get (setPublishedBy options (saving_consts m) m15) "published_by").
  { rewrite (after_ops_get _ _ _ _ _ "published_by" Hops eq_refl).
    unfold afterPublishedAt.
    apply (se_get _ _ _ (setSendEmailWhenPublished_frame _ _ _)). reflexivity. }
  split; [| split].
  - intros Hat.
    rewrite (after_ops_get _ _ _ _ _ "published_at" Hops eq_refl).
    rewrite (se_get _ _ _ (afterPublishedAt_frame _ _ _)) by reflexivity.
    rewrite validateScheduled_other_status in Hv.
    2:{ cbn [saving_consts newStatus]. now rewrite Hstatus. }
    injection Hv as <-.
    unfold setPublishedAt in Hp. rewrite Hnew in Hp.
    cbn [saving_consts publishedAt] in Hp. rewrite Hat in Hp.
    cbn in Hp. injection Hp as <- _. apply get_set_eq.
  - intros Hchanged. rewrite Hby. unfold setPublishedBy.
    rewrite Hnew, Cs, Hchanged, Gp. cbn [andb].
    split; intros ->; cbn [negb]; [apply get_set_eq | exact Gp].
  - intros Hsame Hby_changed Himp. rewrite Hby. unfold setPublishedBy.
    rewrite Hnew, Cs, Hsame, Cp, Hby_changed, Himp, Pp. cbn [andb negb].
    rewrite get_set_eq. split; [reflexivity | split].
    + intros s -> Hs. cbn [truthy String_].
      destruct (String.eqb_spec s ""); [contradiction | reflexivity].
    + now intros ->.
Qed.

End Attribution.

Lemma publishing_sets_date_and_actor_witness :
  let m :=
    model_of "p1"
      [("status", JStr "published"); ("title", JStr "Hello");
       ("mobiledoc", JStr "body")]
      [("status", JStr "draft"); ("title", JStr "Hello");
       ("mobiledoc", JStr "body")] in
  let st' := snd (onSaving (C := fixture) update_options {| this := m; tick := 0 |}) in
  get (this st') "published_at" = JDate (Some 1600000000000%Z)
  /\ get (this st') "published_by" = JStr "1".
Proof.
  intros m st'.
  assert (Hrun : onSaving (C := fixture) update_options {| this := m; tick := 0 |}
                 = (Resolved tt, st')) by (vm_compute; reflexivity).
  assert (Bs : base_keeps (C := fixture) "status") by (intros ?; split; reflexivity).
  assert (Bp : base_keeps (C := fixture) "published_by") by (intros ?; split; reflexivity).
  pose proof (publishing_sets_date_and_actor (C := fixture) update_options m 0 st'
                Hrun eq_refl Bs Bp) as [Hat [Hby _]].
  split.
  - apply Hat. vm_compute; reflexivity.
  - apply Hby; vm_compute; reflexivity.
Defined.

(** ** The revision log *)

Section Revisions.
Context {C : Collaborators}.

Lemma sequence_app (l1 l2 : list (M unit)) st :
  sequence (l1 ++ l2) st = bind (sequence l1) (fun _ => sequence l2) st.
Proof.
  revert st. induction l1 as [| op l1 IH]; intros st; simpl.
  - reflexivity.
  - unfold bind in *. destruct (op st) as [[[] | e] st1]; [apply IH | reflexivity].
Qed.

Lemma sequence_one (op : M unit) st st' :
  sequence [op] st = (Resolved tt, st') -> op st = (Resolved tt, st').
Proof.
  simpl. unfold bind, ret. destruct (op st) as [[[] | e] st1]; now intros [= <-].
Qed.







End Revisions.



(** ** The slug policy *)

Section Slug.
Context {C : Collaborators}.

Lemma modify_resolved f m t (u : unit) m' t' :
  modify f {| this := m; tick := t |} = (Resolved u, {| this := m'; tick := t' |}) ->
  m' = f m.
Proof. unfold modify. cbn [this tick]. intros H. now inversion H. Qed.

(** The tasks of a save around its slug task: the email task before it
    changes the email flag at most, the revisions task after it the
    revision log at most. *)
Lemma savingOps_slugTask options c m17 t st' :
  sequence (savingOps options c m17) {| this := m17; tick := t |}
  = (Resolved tt, st') ->
  exists m1,
    same_except ["send_email_when_published"] m17 m1
    /\ same_except ["mobiledoc_revisions"] (slugTask options c m1) (this st').
Proof.
  intros H. unfold savingOps in H.
  rewrite sequence_app in H.
  apply bind_resolved in H as ([] & [m1 t1] & Hpre & H).
  rewrite sequence_app in H.
  apply bind_resolved in H as ([] & [m2 t2] & Hslug & Hpost).
  exists m1. split.
  - eapply frames_eq; [| exact Hpre]. apply sequence_frames.
    destruct (_ && _); [| constructor].
    constructor; [| constructor]. apply modify_frame, ensureSendEmail_frame.
  - apply sequence_one in Hslug.
    assert (Hm2 : m2 = slugTask options c m1).
    { unfold slugTask. destruct (titleDrivesSlug c);
        now apply modify_resolved in Hslug. }
    subst m2. destruct st' as [m' t'].
    eapply frames_eq; [| exact Hpost]. apply sequence_frames.
    destruct (_ && _ && _); [| constructor].
    constructor; [| constructor]. apply updateRevisions_frame.
Qed.

(** C6. On a save that resolves: when the title of the payload differs
    from the previous one, the status is 'draft' and there is no
    [published_at], the slug becomes the slug generated from the new
    title if the slug generated from the previous title is exactly the
    previous slug, and the slug of the payload is left as it is
    otherwise; in every other case a slug that has changed or is
    missing is replaced by what the generator makes of it (of the title
    when it is missing), and a slug that is there and unchanged is left
    as it is. *)
Theorem slug_follows_title_unless_customised options m t st' :
  onSaving options {| this := m; tick := t |} = (Resolved tt, st') ->
  base_keeps "slug" ->
  let title' := get (this st') "title" in
  let prevTitleSlug := generateSlug (previous m "title") (importing options) in
  (strict_eq (previous m "title") JUndefined = false ->
   strict_eq (get m "title") (previous m "title") = false ->
   get m "status" = JStr "draft" ->
   truthy (get m "published_at") = false ->
   (strict_eq prevTitleSlug (previous m "slug") = true ->
    get (this st') "slug" = generateSlug title' (importing options))
   /\ (strict_eq prevTitleSlug (previous m "slug") = false ->
       get (this st') "slug" = get m "slug"))
  /\ (titleDrivesSlug (saving_consts m) = false ->
      (hasChanged m "slug" || negb (truthy (get m "slug")) = true ->
       get (this st') "slug"
       = generateSlug (js_or (get m "slug") title') (importing options))
      /\ (hasChanged m "slug" || negb (truthy (get m "slug")) = false ->
          get (this st') "slug" = get m "slug")).
Proof.
  intros H Bslug title' prevTitleSlug.
  apply onSaving_resolved in H as (t1 & m12 & m15 & t15 & _ & _ & Hr & Hp & Hops).
  apply savingOps_slugTask in Hops as (m1 & Fpre & Fpost).
  set (c := saving_consts m) in *.
  pose proof (afterPublishedAt_frame options c m15) as F17.
  destruct (before_publishedBy_keeps _ _ _ _ _ _ _ "slug" Hr Hp Bslug eq_refl)
    as [Gs Ps].
  assert (Gslug : get m1 "slug" = get m "slug").
  { rewrite (se_get _ _ _ Fpre), (se_get _ _ _ F17) by reflexivity. exact Gs. }
  assert (Pslug : previous m1 "slug" = previous m "slug").
  { rewrite (same_except_previous _ _ _ _ Fpre), (same_except_previous _ _ _ _ F17).
    exact Ps. }
  assert (Gtitle : title' = get m1 "title").
  { unfold title'. rewrite (se_get _ _ _ Fpost) by reflexivity.
    unfold slugTask.
    destruct (titleDrivesSlug c);
      [apply (se_get _ _ _ (updateSlugFromTitle_frame _ _ _))
      | apply (se_get _ _ _ (updateSlugFromSlug_frame _ _))]; reflexivity. }
  assert (Gfinal : get (this st') "slug" = get (slugTask options c m1) "slug").
  { apply (se_get _ _ _ Fpost). reflexivity. }
  split.
  - intros Hdefined Hdiffers Hdraft Hnever.
    assert (Hcond : titleDrivesSlug c = true).
    { unfold titleDrivesSlug, c. cbn [saving_consts prevTitle newTitle newStatus publishedAt].
      now rewrite Hdefined, Hdiffers, Hdraft, Hnever. }
    rewrite Gfinal. unfold slugTask. rewrite Hcond. unfold updateSlugFromTitle.
    change (generateSlug (prevTitle c) (importing options)) with prevTitleSlug.
    change (prevSlug c) with (previous m "slug").
    split; intros ->.
    + now rewrite get_set_eq, Gtitle.
    + exact Gslug.
  - intros Hcond. rewrite Gfinal. unfold slugTask. rewrite Hcond.
    unfold updateSlugFromSlug.
    rewrite (hasChanged_eq _ _ _ Gslug Pslug), Gslug.
    split; intros ->.
    + now rewrite get_set_eq, Gtitle.
    + exact Gslug.
Qed.

End Slug.

Lemma slug_follows_title_unless_customised_witness :
  let m :=
    model_of "p1"
      [("status", JStr "draft"); ("title", JStr "new-title");
       ("slug", JStr "old-title"); ("mobiledoc", JStr "body")]
      [("status", JStr "draft"); ("title", JStr "old-title");
       ("slug", JStr "old-title"); ("mobiledoc", JStr "body")] in
  let st' := snd (onSaving (C := fixture) update_options {| this := m; tick := 0 |}) in
  get (this st') "slug"
  = generateSlug (Collaborators := fixture) (get (this st') "title") false.
Proof.
  intros m st'.
  assert (Hrun : onSaving (C := fixture) update_options {| this := m; tick := 0 |}
                 = (Resolved tt, st')) by (vm_compute; reflexivity).
  assert (Bslug : base_keeps (C := fixture) "slug") by (intros ?; split; reflexivity).
  refine (proj1 (proj1 (slug_follows_title_unless_customised (C := fixture)
                          update_options m 0 st' Hrun Bslug) _ _ _ _) _);
    vm_compute; reflexivity.
Defined.

(** ** Change events *)

Section Events.
Context {C : Collaborators}.

Lemma post_events_app l1 l2 :
  post_events (l1 ++ l2) = (post_events l1 ++ post_events l2)%list.
Proof. apply omap_app. Qed.

Lemma post_events_when cond m event usePrevious :
  post_events (when_ cond (emitChange m event usePrevious))
  = if cond
    then [(if usePrevious then previous m "type" else get m "type", event)]
    else [].
Proof. now destruct cond. Qed.

(** The recalculation signals go to the tags and authors, not to the
    post. *)
Lemma post_events_attached m :
  post_events (handleStatusForAttachedModels m) = [].
Proof.
  unfold handleStatusForAttachedModels. rewrite post_events_app.
  assert (Hnone : forall relation l,
             post_events (map (fun x => RelatedEmitted relation x "attached") l) = []).
  { intros relation l. induction l as [| x l IH]; [reflexivity | exact IH]. }
  now rewrite !Hnone.
Qed.

(** C7. On an update that changes the type of the item, the events of
    the post are, in this order: 'unpublished' if the previous status
    was 'published' and 'unscheduled' if it was 'scheduled', both under
    the previous type; 'deleted' under the previous type; 'added' under
    the new type; 'published' or 'scheduled' under the new type if that
    is the new status; and no 'edited' event is among them, under any
    type.  On every update that leaves the type as it was, the last
    event of the post is 'edited'. *)
Theorem type_change_is_delete_then_add m :
  let oldType := previous m "type" in
  let newType := get m "type" in
  (strict_eq newType oldType = false ->
   post_events (onUpdated m)
   = ((if is_str (previous m "status") "published"
       then [(oldType, "unpublished")] else [])
      ++ (if is_str (previous m "status") "scheduled"
          then [(oldType, "unscheduled")] else [])
      ++ [(oldType, "deleted"); (newType, "added")]
      ++ (if is_str (get m "status") "published"
          then [(newType, "published")] else [])
      ++ (if is_str (get m "status") "scheduled"
          then [(newType, "scheduled")] else []))%list
   /\ forall resourceType, ~ In (resourceType, "edited") (post_events (onUpdated m)))
  /\ (strict_eq newType oldType = true ->
      last (post_events (onUpdated m)) = Some (newType, "edited")).
Proof.
  intros oldType newType. split.
  - intros Hchanging.
    assert (Hevents :
      post_events (onUpdated m)
      = ((if is_str (previous m "status") "published"
          then [(oldType, "unpublished")] else [])
         ++ (if is_str (previous m "status") "scheduled"
             then [(oldType, "unscheduled")] else [])
         ++ [(oldType, "deleted"); (newType, "added")]
         ++ (if is_str (get m "status") "published"
             then [(newType, "published")] else [])
         ++ (if is_str (get m "status") "scheduled"
             then [(newType, "scheduled")] else []))%list).
    { unfold onUpdated. fold newType oldType. rewrite Hchanging. cbn [negb].
      rewrite !post_events_app, !post_events_when.
      assert (Hrest : forall b : bool,
                 post_events (if b then handleStatusForAttachedModels m else []) = []).
      { intros []; [apply post_events_attached | reflexivity]. }
      rewrite Hrest, app_nil_r. reflexivity. }
    split; [exact Hevents |].
    intros resourceType Hin. rewrite Hevents in Hin.
    repeat (apply in_app_or in Hin as [Hin | Hin]);
      repeat match type of Hin with
             | In _ (if ?b then _ else _) => destruct b
             end;
      cbn [In] in Hin; intuition discriminate.
  - intros Hsame. unfold onUpdated. fold newType oldType. rewrite Hsame. cbn [negb].
    rewrite !post_events_app.
    assert (Hrest : forall b : bool,
               post_events (if b then handleStatusForAttachedModels m else []) = []).
    { intros []; [apply post_events_attached | reflexivity]. }
    rewrite Hrest, app_nil_r.
    change (post_events [emitChange m "edited" false]) with [(newType, "edited")].
    apply last_snoc.
Qed.

End Events.

Lemma type_change_is_delete_then_add_witness :
  let m :=
    model_of "p1"
      [("type", JStr "page"); ("status", JStr "published")]
      [("type", JStr "post"); ("status", JStr "scheduled")] in
  post_events (onUpdated (C := fixture) m)
  = [(JStr "post", "unscheduled"); (JStr "post", "deleted");
     (JStr "page", "added"); (JStr "page", "published")].
Proof.
  intros m.
  assert (Hchanging : strict_eq (get m "type") (previous m "type") = false)
    by (vm_compute; reflexivity).
  rewrite (proj1 (proj1 (type_change_is_delete_then_add (C := fixture) m) Hchanging)).
  vm_compute. reflexivity.
Defined.

(** ** The permission gate *)

Section Permissions.
Context {C : Collaborators}.

(** C8. For an actor that has the role Contributor, [permissible]
    resolves on 'edit' exactly when the request does not change the
    status, the item is a draft and the api key permission holds; on
    'add' exactly when the requested status is missing or 'draft' and
    the api key permission holds; on 'destroy' exactly when the item is
    a draft and the api key permission holds.  Whenever it resolves for
    a Contributor, 'tags' is the excluded attribute, and when it does
    not resolve it rejects with a NoPermissionError. *)
Theorem contributor_is_confined_to_drafts postModel action unsafeAttrs
  loadedPermissions hasUserPermission hasApiKeyPermission :
  has_role (user loadedPermissions) "Contributor" = true ->
  let result :=
    permissible postModel action unsafeAttrs loadedPermissions
      hasUserPermission hasApiKeyPermission in
  let requested := field unsafeAttrs "status" in
  let current := get postModel "status" in
  (action = "edit" ->
   ((exists excluded, result = Resolved excluded)
    <-> (truthy requested && negb (strict_eq requested current) = false
         /\ current = JStr "draft"
         /\ hasApiKeyPermission = true)))
  /\ (action = "add" ->
      ((exists excluded, result = Resolved excluded)
       <-> ((truthy requested = false \/ requested = JStr "draft")
            /\ hasApiKeyPermission = true)))
  /\ (action = "destroy" ->
      ((exists excluded, result = Resolved excluded)
       <-> (current = JStr "draft" /\ hasApiKeyPermission = true)))
  /\ (forall excluded, result = Resolved excluded -> excluded = ["tags"])
  /\ (result = Resolved ["tags"]
      \/ result = Rejected (NoPermissionError
                              (i18n_t "errors.models.post.notEnoughPermission" []))).
Proof.
  intros Hcontributor result requested current.
  assert (Hdraft : forall v, is_str v "draft" = true <-> v = JStr "draft")
    by (intros v; apply strict_eq_str).
  split; [| split; [| split; [| split]]].
  - intros ->. unfold result, permissible. rewrite Hcontributor.
    cbn [String.eqb Ascii.eqb Bool.eqb andb].
    fold requested current.
    destruct (truthy requested && negb (strict_eq requested current));
      destruct (is_str current "draft") eqn:Ed;
      destruct hasApiKeyPermission; cbn [negb andb];
      (split; [intros [x Hx]; try discriminate | intros (H1 & H2 & H3); try discriminate]);
      try (eexists; reflexivity);
      try (repeat split; try reflexivity; now apply Hdraft).
    all: apply Hdraft in H2; congruence.
  - intros ->. unfold result, permissible. rewrite Hcontributor.
    cbn [String.eqb Ascii.eqb Bool.eqb andb].
    fold requested.
    destruct (truthy requested) eqn:Et;
      destruct (is_str requested "draft") eqn:Ed;
      destruct hasApiKeyPermission; cbn [negb andb];
      (split; [intros [x Hx]; try discriminate | intros ([H1 | H1] & H2); try discriminate]);
      try (eexists; reflexivity);
      try (split; [| reflexivity]; (now left) || (right; now apply Hdraft)).
    all: apply Hdraft in H1; congruence.
  - intros ->. unfold result, permissible. rewrite Hcontributor.
    cbn [String.eqb Ascii.eqb Bool.eqb andb].
    fold current.
    destruct (is_str current "draft") eqn:Ed;
      destruct hasApiKeyPermission; cbn [andb];
      (split; [intros [x Hx]; try discriminate | intros (H1 & H2); try discriminate]);
      try (eexists; reflexivity);
      try (split; [now apply Hdraft | reflexivity]).
    all: apply Hdraft in H1; congruence.
  - intros excluded. unfold result, permissible. rewrite Hcontributor.
    destruct (_ && hasApiKeyPermission); [| discriminate].
    now intros [= <-].
  - unfold result, permissible. rewrite Hcontributor.
    destruct (_ && hasApiKeyPermission); [now left | now right].
Qed.

End Permissions.

Lemma contributor_is_confined_to_drafts_witness :
  let contributor :=
    {| user := Some [JObj [("name", JStr "Contributor")]]; apiKey := None |} in
  let draft := model_of "p1" [("status", JStr "draft")] [("status", JStr "draft")] in
  has_role (user contributor) "Contributor" = true
  /\ ~ (exists excluded,
          permissible (C := fixture) draft "edit" {["status" := JStr "published"]}
            contributor true true = Resolved excluded).
Proof.
  intros contributor draft.
  assert (Hrole : has_role (user contributor) "Contributor" = true)
    by (vm_compute; reflexivity).
  split; [exact Hrole |].
  intros Hpermitted.
  apply (proj1 (contributor_is_confined_to_drafts (C := fixture) draft "edit"
                  {["status" := JStr "published"]} contributor true true Hrole)
           eq_refl) in Hpermitted.
  destruct Hpermitted as [Hsame _]. vm_compute in Hsame. discriminate.
Defined.

(** ** Creating a post *)

Section Adding.
Context {C : Collaborators}.





End Adding.

Lemma texas_is_stamped :
  let env := {| subdomain := Some "texas" |} in
  let stamped := addPost_data env {["custom_excerpt" := JStr "mine"]} in
  stamped !! "domain" = Some (JStr "texas")
  /\ (exists html, In ("texas", html) sidebars_table
                   /\ stamped !! "custom_excerpt" = Some (JStr html))
  /\ stamped !! "feature_image"
     = Some (JStr "https://cdn.staterecords.org/pn_logos/texas.png").
Proof.
  intros env stamped.
  split; [vm_compute; reflexivity |].
  split; [| vm_compute; reflexivity].
  eexists. split; [| vm_compute; reflexivity].
  unfold sidebars_table. cbn [In].
  repeat (first [left; reflexivity | right]).
Qed.

(** ** Generated fields *)

Section Generated.
Context {C : Collaborators}.

(** After the revert step of a save that is not a migration, [html]
    and [plaintext] are what they were before. *)
Lemma revertGeneratedFields_previous options m field :
  migrating options = false ->
  In field generatedFields ->
  get (revertGeneratedFields options m) field = previous m field.
Proof.
  intros Hmig Hin. unfold revertGeneratedFields. rewrite Hmig.
  cbn [negb generatedFields fold_left].
  set (m1 := if hasChanged m "html" then set m "html" (previous m "html") else m).
  assert (Hhtml : get m1 "html" = previous m "html").
  { unfold m1. destruct (hasChanged m "html") eqn:E.
    - apply get_set_eq.
    - now apply not_hasChanged. }
  assert (Hprev : forall k, previous m1 k = previous m k).
  { intros k. unfold m1. now destruct (hasChanged m "html"). }
  destruct Hin as [<- | [<- | []]].
  - destruct (hasChanged m1 "plaintext"); [| exact Hhtml].
    rewrite get_set. exact Hhtml.
  - destruct (hasChanged m1 "plaintext") eqn:E.
    + rewrite get_set_eq. apply Hprev.
    + rewrite <- Hprev. now apply not_hasChanged.
Qed.

(** The plaintext step leaves the plaintext as it is, empties it, or
    derives it from the html. *)
Lemma derivePlaintext_cases m :
  get (derivePlaintext m) "plaintext" = get m "plaintext"
  \/ get (derivePlaintext m) "plaintext" = JNull
  \/ get (derivePlaintext m) "plaintext" = htmlToText (get m "html").
Proof.
  unfold derivePlaintext.
  destruct (_ || _); [| now left].
  destruct (strict_eq (get m "html") JNull).
  - destruct (_ || _); [right; left; apply get_set_eq | now left].
  - destruct (_ || _); [right; right; apply get_set_eq | now left].
Qed.

(** C10. On every save that is not a migration, the revert step puts
    [html] and [plaintext] back to their previous values and changes
    nothing else; and what a resolved save leaves in [html] is its
    previous value or the rendering of the body, what it leaves in
    [plaintext] is its previous value, null, or the text of that html:
    never a value of the payload. *)
Theorem generated_fields_are_not_overridden options :
  migrating options = false ->
  (forall m,
     get (revertGeneratedFields options m) "html" = previous m "html"
     /\ get (revertGeneratedFields options m) "plaintext" = previous m "plaintext"
     /\ same_except generatedFields m (revertGeneratedFields options m))
  /\ (forall m t st',
        onSaving options {| this := m; tick := t |} = (Resolved tt, st') ->
        (get (this st') "html" = previous (this st') "html"
         \/ render (get (this st') "mobiledoc") = Some (get (this st') "html"))
        /\ (get (this st') "plaintext" = previous (this st') "plaintext"
            \/ get (this st') "plaintext" = JNull
            \/ get (this st') "plaintext" = htmlToText (get (this st') "html"))).
Proof.
  intros Hmig. split.
  - intros m. split; [| split].
    + apply revertGeneratedFields_previous; [exact Hmig | now left].
    + apply revertGeneratedFields_previous; [exact Hmig | right; now left].
    + apply revertGeneratedFields_frame.
  - intros m t st' H.
    apply onSaving_resolved in H as (t1 & m12 & m15 & t15 & _ & _ & Hr & Hp & Hops).
    set (c := saving_consts m) in *.
    set (x := base_onSaving (beforeBase options m)).
    set (mr := beforeRender options (beforeBase options m)) in *.
    (* from the revert step to the renderer *)
    assert (Fr : same_except ("mobiledoc" :: map fst urlTransformMap)
                   (revertGeneratedFields options x) mr).
    { unfold mr, beforeRender. fold x.
      eapply same_except_trans with (m2 := ensureMobiledoc _).
      { eapply same_except_mono; [| apply ensureMobiledoc_frame]. reflexivity. }
      eapply same_except_trans with (m2 := transformUrls _).
      { eapply same_except_mono; [| apply transformUrls_frame]. reflexivity. }
      eapply same_except_mono; [| apply populateSizes_frame]. reflexivity. }
    pose proof (revertGeneratedFields_frame options x) as Fx.
    assert (Hprev_mr : forall k, previous mr k = previous x k).
    { intros k. rewrite (same_except_previous _ _ _ k Fr).
      apply (same_except_previous _ _ _ k Fx). }
    assert (Hhtml_mr : get mr "html" = previous mr "html").
    { rewrite Hprev_mr, (se_get _ _ _ Fr) by reflexivity.
      apply revertGeneratedFields_previous; [exact Hmig | now left]. }
    assert (Hplain_mr : get mr "plaintext" = previous mr "plaintext").
    { rewrite Hprev_mr, (se_get _ _ _ Fr) by reflexivity.
      apply revertGeneratedFields_previous; [exact Hmig | right; now left]. }
    (* from the renderer to the end *)
    pose proof (frames_eq _ _ _ _ _ _ _ (renderHtml_frame options) Hr) as F12.
    pose proof (derivePlaintext_frame m12) as Fp.
    pose proof (setTitle_frame options (derivePlaintext m12)) as Ft.
    pose proof (frames_eq _ _ _ _ _ _ _ (setPublishedAt_frame c) Hp) as F15.
    pose proof (afterPublishedAt_frame options c m15) as F17.
    pose proof (savingOps_frames options c (afterPublishedAt options c m15)
                  {| this := afterPublishedAt options c m15; tick := t15 |}) as Fops.
    rewrite Hops in Fops. cbn [snd this] in Fops.
    fold (afterRender options m12) in Ft.
    assert (Hkeep : forall k,
               touched ["title"; "published_at"; "published_by";
                        "send_email_when_published"; "slug";
                        "mobiledoc_revisions"] k = false ->
               get (this st') k = get (derivePlaintext m12) k).
    { intros k Hk.
      rewrite (se_get _ _ _ Fops), (se_get _ _ _ F17), (se_get _ _ _ F15);
        [apply (se_get _ _ _ Ft) | | |];
        (eapply touched_sub; [| exact Hk]); reflexivity. }
    assert (Hprev' : forall k, previous (this st') k = previous mr k).
    { intros k.
      rewrite (same_except_previous _ _ _ k Fops), (same_except_previous _ _ _ k F17),
        (same_except_previous _ _ _ k F15), (same_except_previous _ _ _ k Ft),
        (same_except_previous _ _ _ k Fp).
      apply (same_except_previous _ _ _ k F12). }
    assert (Hhtml' : get (this st') "html" = get m12 "html").
    { rewrite Hkeep by reflexivity. apply (se_get _ _ _ Fp). reflexivity. }
    assert (Hdoc' : get (this st') "mobiledoc" = get mr "mobiledoc").
    { rewrite Hkeep by reflexivity.
      rewrite (se_get _ _ _ Fp) by reflexivity.
      apply (se_get _ _ _ F12). reflexivity. }
    assert (Hplain12 : get m12 "plaintext" = get mr "plaintext").
    { apply (se_get _ _ _ F12). reflexivity. }
    split.
    + rewrite Hhtml', Hdoc', Hprev'.
      destruct (renderHtml_cases options {| this := mr; tick := t1 |})
        as [Hrej | [Hsame | (html & Hrender & Hset)]].
      * rewrite Hrej in Hr. discriminate.
      * rewrite Hsame in Hr. injection Hr as <-. now left.
      * rewrite Hset in Hr. injection Hr as <-. right.
        cbn [this]. now rewrite get_set_eq.
    + rewrite (Hkeep "plaintext" eq_refl), Hhtml', Hprev'.
      destruct (derivePlaintext_cases m12) as [-> | [-> | ->]].
      * left. now rewrite Hplain12.
      * right. now left.
      * right. now right.
Qed.

End Generated.

Lemma generated_fields_are_not_overridden_witness :
  let m :=
    model_of "p1"
      [("status", JStr "draft"); ("title", JStr "Hello"); ("slug", JStr "hello");
       ("mobiledoc", JStr "body"); ("html", JStr "<script>mine</script>");
       ("plaintext", JStr "mine")]
      [("status", JStr "draft"); ("title", JStr "Hello"); ("slug", JStr "hello");
       ("mobiledoc", JStr "body"); ("html", JStr "<p>body</p>");
       ("plaintext", JStr "body")] in
  migrating update_options = false
  /\ get (revertGeneratedFields update_options m) "html" = JStr "<p>body</p>"
  /\ get (revertGeneratedFields update_options m) "plaintext" = JStr "body".
Proof.
  intros m.
  assert (Hmig : migrating update_options = false) by reflexivity.
  split; [exact Hmig |].
  destruct (proj1 (generated_fields_are_not_overridden (C := fixture) update_options Hmig) m)
    as (Hhtml & Hplain & _).
  split.
  - rewrite Hhtml. vm_compute. reflexivity.
  - rewrite Hplain. vm_compute. reflexivity.
Defined.

(** ** How a save settles *)

Section Settling.
Context {C : Collaborators}.

Lemma validateScheduled_cases options c m t :
  (exists t1,
     validateScheduled options c {| this := m; tick := t |}
     = (Resolved tt, {| this := m; tick := t1 |}))
  \/ (exists message st1,
        validateScheduled options c {| this := m; tick := t |}
        = (Rejected (ValidationError message), st1)).
Proof.
  unfold validateScheduled.
  destruct (is_str (newStatus c) "scheduled"); [| left; now exists t].
  destruct (negb (truthy (publishedAt c))); [right; now eexists _, _ |].
  destruct (moment (publishedAt c)) as [at_ |]; [| right; now eexists _, _].
  destruct (publishedAtHasChanged c); [| left; now exists t].
  unfold bind, now. cbn [this tick].
  destruct (_ && _ && _); [right; now eexists _, _ | left; now exists (S t)].
Qed.

(** Every save settles: it resolves, or it is rejected with a
    ValidationError, by one of its two guards or by the renderer. *)
Lemma onSaving_settles options m t :
  (exists st', onSaving options {| this := m; tick := t |} = (Resolved tt, st'))
  \/ (exists message st',
        onSaving options {| this := m; tick := t |}
        = (Rejected (ValidationError message), st')).
Proof.
  destruct (disallowPublishedToScheduled_cases (saving_consts m)
              {| this := m; tick := t |}) as [Hg | Hg].
  { right. eexists _, _. exact (onSaving_guard1 _ _ _ _ Hg). }
  destruct (validateScheduled_cases options (saving_consts m)
              (setCommentId options m) t) as [[t1 Hv] | (message & st1 & Hv)].
  2:{ right. exists message, st1. exact (onSaving_guard2 _ _ _ _ _ Hg Hv). }
  rewrite (onSaving_afterGuards _ _ _ _ Hg Hv).
  pose proof (afterGuards_outcome options (saving_consts m)
                {| this := beforeRender options (beforeBase options m);
                   tick := t1 |}) as Ho.
  rewrite renderHtml_outcome in Ho.
  destruct (afterGuards options (saving_consts m) _) as [o st'].
  cbn [fst] in Ho. subst o.
  destruct (_ || _ || _); [| left; now exists st'].
  destruct (render _); [left; now exists st' | right; now eexists _, _].
Qed.

End Settling.

(** ** The hooks on a few concrete items *)

(** Creating a draft emits 'added' only. *)
Example created_draft_events :
  post_events
    (onSaved
       {| method := "insert"; importing := false; migrating := false;
          context := None; force_rerender := false;
          send_email_when_published := false; filter := false |}
       (model_of "p1" [("type", JStr "post"); ("status", JStr "draft")] []))
  = [(JStr "post", "added")].
Proof. vm_compute. reflexivity. Qed.

(** Publishing a draft emits 'published', then 'edited'. *)
Example published_draft_events :
  post_events
    (onUpdated (C := fixture)
       (model_of "p1"
          [("type", JStr "post"); ("status", JStr "published")]
          [("type", JStr "post"); ("status", JStr "draft")]))
  = [(JStr "post", "published"); (JStr "post", "edited")].
Proof. vm_compute. reflexivity. Qed.

(** Editing a published post emits 'published.edited', then 'edited'. *)
Example edited_published_events :
  post_events
    (onUpdated (C := fixture)
       (model_of "p1"
          [("type", JStr "post"); ("status", JStr "published");
           ("title", JStr "New")]
          [("type", JStr "post"); ("status", JStr "published");
           ("title", JStr "Old")]))
  = [(JStr "post", "published.edited"); (JStr "post", "edited")].
Proof. vm_compute. reflexivity. Qed.

(** Taking a published post back to draft emits 'unpublished', then
    'edited'. *)
Example unpublished_events :
  post_events
    (onUpdated (C := fixture)
       (model_of "p1"
          [("type", JStr "post"); ("status", JStr "draft")]
          [("type", JStr "post"); ("status", JStr "published")]))
  = [(JStr "post", "unpublished"); (JStr "post", "edited")].
Proof. vm_compute. reflexivity. Qed.

(** Destroying a published post emits 'unpublished', then 'deleted'. *)
Example destroyed_published_events :
  post_events
    (onDestroyed
       (model_of "p1" [] [("type", JStr "post"); ("status", JStr "published")]))
  = [(JStr "post", "unpublished"); (JStr "post", "deleted")].
Proof. vm_compute. reflexivity. Qed.

(** The tags and authors of a post that gets published are told to
    recalculate, after the events of the post. *)
Example published_draft_notifies_relations :
  onUpdated (C := fixture)
    {| model_id := JStr "p1";
       attributes := {["type" := JStr "post"; "status" := JStr "published"]};
       _previousAttributes := {["type" := JStr "post"; "status" := JStr "draft"]};
       relations := {["tags" := JArr [JStr "t1"]; "authors" := JArr [JStr "a1"]]} |}
  = [Emitted (JStr "post") "published"; Emitted (JStr "post") "edited";
     RelatedEmitted "tags" (JStr "t1") "attached";
     RelatedEmitted "authors" (JStr "a1") "attached"].
Proof. vm_compute. reflexivity. Qed.

(** A contributor may edit a draft as long as the status stays, and
    loses the tags. *)
Example contributor_edits_draft :
  permissible (C := fixture)
    (model_of "p1" [("status", JStr "draft")] [("status", JStr "draft")])
    "edit" {["title" := JStr "New"]}
    {| user := Some [JObj [("name", JStr "Contributor")]]; apiKey := None |}
    true true
  = Resolved ["tags"].
Proof. vm_compute. reflexivity. Qed.

(** An editing save with an unchanged body writes no revision. *)
Example unchanged_body_no_revision :
  get (this (snd (onSaving (C := fixture) update_options
                    {| this := model_of "p1"
                                 [("status", JStr "draft"); ("title", JStr "Hello");
                                  ("slug", JStr "hello"); ("mobiledoc", JStr "body")]
                                 [("status", JStr "draft"); ("title", JStr "Hello");
                                  ("slug", JStr "hello"); ("mobiledoc", JStr "body")];
                       tick := 0 |})))
      "mobiledoc_revisions"
  = JUndefined.
Proof. vm_compute. reflexivity. Qed.

(** Tags that differ in case only are saved once. *)
Example tags_are_deduplicated :
  get (dedupeTags (C := fixture)
         (model_of "p1"
            [("tags", JArr [JObj [("name", JStr "News")];
                            JObj [("name", JStr "News")];
                            JObj [("name", JStr "Sport")]])] []))
      "tags"
  = JArr [JObj [("name", JStr "News")]; JObj [("name", JStr "Sport")]].
Proof. vm_compute. reflexivity. Qed.

(** With ten stored revisions the log stays at ten entries: the oldest
    stored revision goes, the new body comes last. *)
Example full_history_evicts_oldest :
  get (this (snd (onSaving (C := fixture) update_options
                    {| this := model_of "full-history"
                                 [("status", JStr "draft"); ("title", JStr "Hello");
                                  ("slug", JStr "hello"); ("mobiledoc", JStr "new body")]
                                 [("status", JStr "draft"); ("title", JStr "Hello");
                                  ("slug", JStr "hello"); ("mobiledoc", JStr "old body")];
                       tick := 0 |})))
      "mobiledoc_revisions"
  = JArr (map (fun i => JObj [("id", JNum i)]) [10; 9; 8; 7; 6; 5; 4; 3; 2]%Z
          ++ [revision (JStr "full-history") (JStr "new body") 1600000000000]).
Proof. vm_compute. reflexivity. Qed.

(** ** What a save writes *)

Section SaveFrame.
Context {C : Collaborators}.

Lemma bind_keeps {A B} keys (c : M A) (k : A -> M B) :
  (forall st, same_except keys (this st) (this (snd (c st)))) ->
  (forall a st, same_except keys (this st) (this (snd (k a st)))) ->
  forall st, same_except keys (this st) (this (snd (bind c k st))).
Proof.
  intros Hc Hk st. unfold bind. specialize (Hc st).
  destruct (c st) as [[a | e] st1]; cbn [snd] in *.
  - eapply same_except_trans; [exact Hc | apply Hk].
  - exact Hc.
Qed.

Lemma modify_keeps keys keys' f :
  forallb (touched keys') keys = true ->
  (forall m, same_except keys m (f m)) ->
  forall st, same_except keys' (this st) (this (snd (modify f st))).
Proof.
  intros Hsub Hf st. eapply same_except_mono; [exact Hsub | apply Hf].
Qed.

(** Past its guards a save writes the generated fields, the title, the
    publication attributes, the email flag, the slug and the revisions
    at most, whether it resolves or the renderer rejects it. *)
Lemma afterGuards_frames options c st :
  same_except after_keys (this st) (this (snd (afterGuards options c st))).
Proof.
  revert st. unfold afterGuards.
  apply bind_keeps.
  { apply (frames_mono ["html"]); [reflexivity | apply renderHtml_frame]. }
  intros _. apply bind_keeps.
  { apply (modify_keeps ["plaintext"]); [reflexivity | apply derivePlaintext_frame]. }
  intros _. apply bind_keeps.
  { apply (modify_keeps ["title"]); [reflexivity | apply setTitle_frame]. }
  intros _. apply bind_keeps.
  { apply (frames_mono ["published_at"]); [reflexivity | apply setPublishedAt_frame]. }
  intros _. apply bind_keeps.
  { apply (modify_keeps ["published_by"]); [reflexivity | apply setPublishedBy_frame]. }
  intros _. apply bind_keeps.
  { apply (modify_keeps ["send_email_when_published"]);
      [reflexivity | apply setSendEmailWhenPublished_frame]. }
  intros _. apply bind_keeps.
  { intros st. apply same_except_refl. }
  intros m.
  apply (frames_mono ["send_email_when_published"; "slug"; "mobiledoc_revisions"]);
    [reflexivity | apply savingOps_frames].
Qed.

(** How far a save gets: the first guard rejects it and the state is
    as it was; the second rejects it and [comment_id] may have been
    set; or the rest of the hook runs on the model as the steps up to
    the renderer leave it. *)
Lemma onSaving_runs options m t :
  (exists e,
     onSaving options {| this := m; tick := t |}
     = (Rejected e, {| this := m; tick := t |}))
  \/ (exists e t1,
        onSaving options {| this := m; tick := t |}
        = (Rejected e, {| this := setCommentId options m; tick := t1 |}))
  \/ (exists t1,
        onSaving options {| this := m; tick := t |}
        = afterGuards options (saving_consts m)
            {| this := beforeRender options (beforeBase options m); tick := t1 |}).
Proof.
  destruct (disallowPublishedToScheduled_cases (saving_consts m)
              {| this := m; tick := t |}) as [Hg | Hg].
  { left. eexists. exact (onSaving_guard1 _ _ _ _ Hg). }
  destruct (validateScheduled_cases options (saving_consts m)
              (setCommentId options m) t) as [[t1 Hv] | (message & st1 & Hv)].
  - right; right. exists t1. exact (onSaving_afterGuards _ _ _ _ Hg Hv).
  - right; left.
    pose proof (validateScheduled_this options (saving_consts m)
                  {| this := setCommentId options m; tick := t |}) as Hthis.
    rewrite Hv in Hthis. destruct st1 as [m1 t1]. cbn [snd this] in Hthis. subst m1.
    eexists _, t1. exact (onSaving_guard2 _ _ _ _ _ Hg Hv).
Qed.

(** A save that resolves leaves the model as the base hook handed it
    on, up to the attributes written after the base hook. *)
Lemma onSaving_after_base options m t st' :
  onSaving options {| this := m; tick := t |} = (Resolved tt, st') ->
  same_except after_base_keys (base_onSaving (beforeBase options m)) (this st').
Proof.
  intros H.
  destruct (onSaving_runs options m t) as [[e He] | [(e & t1 & He) | [t1 He]]];
    try (rewrite He in H; discriminate).
  rewrite He in H.
  pose proof (afterGuards_frames options (saving_consts m)
                {| this := beforeRender options (beforeBase options m); tick := t1 |}) as F.
  rewrite H in F. cbn [snd this] in F.
  eapply same_except_trans.
  - eapply same_except_mono; [| apply afterBase_frame]. reflexivity.
  - eapply same_except_mono; [| exact F]. reflexivity.
Qed.

(** X1. Whether a save resolves or is rejected, every attribute
    outside the ones the hook writes, and that the base hook hands on
    as it is, has the value and the previous value it had before: the
    hook never changes the status, the type, the visibility and the
    like. *)
Theorem save_keeps_other_attributes options m t k :
  base_keeps k ->
  touched saving_keys k = false ->
  let st' := snd (onSaving options {| this := m; tick := t |}) in
  get (this st') k = get m k /\ previous (this st') k = previous m k.
Proof.
  intros Hbase Hk st'. unfold st'.
  destruct (onSaving_runs options m t) as [[e ->] | [(e & t1 & ->) | [t1 ->]]];
    cbn [snd this].
  - now split.
  - pose proof (setCommentId_frame options m) as F. split.
    + apply (se_get _ _ _ F). eapply touched_sub; [| exact Hk]. reflexivity.
    + apply (same_except_previous _ _ _ k F).
  - pose proof (afterGuards_frames options (saving_consts m)
                  {| this := beforeRender options (beforeBase options m); tick := t1 |}) as F.
    assert (Hearly : touched early_keys k = false).
    { eapply touched_sub; [| exact Hk]. reflexivity. }
    destruct (beforeRender_keeps options m k Hbase Hearly) as [Hg Hp].
    split.
    + rewrite (se_get _ _ _ F); [exact Hg |].
      eapply touched_sub; [| exact Hk]. reflexivity.
    + rewrite (same_except_previous _ _ _ k F). exact Hp.
Qed.

End SaveFrame.

Lemma save_keeps_other_attributes_witness :
  let m :=
    model_of "p1"
      [("status", JStr "published"); ("visibility", JStr "members");
       ("title", JStr "Hello"); ("mobiledoc", JStr "body")]
      [("status", JStr "draft"); ("visibility", JStr "public");
       ("title", JStr "Hello"); ("mobiledoc", JStr "body")] in
  let st' := snd (onSaving (C := fixture) update_options {| this := m; tick := 0 |}) in
  get (this st') "visibility" = JStr "members"
  /\ previous (this st') "visibility" = JStr "public".
Proof.
  intros m st'.
  assert (Bv : base_keeps (C := fixture) "visibility") by (intros ?; split; reflexivity).
  assert (Hk : touched saving_keys "visibility" = false) by (vm_compute; reflexivity).
  destruct (save_keeps_other_attributes (C := fixture) update_options m 0
              "visibility" Bv Hk) as [Hg Hp].
  split.
  - unfold st'. rewrite Hg. vm_compute. reflexivity.
  - unfold st'. rewrite Hp. vm_compute. reflexivity.
Defined.

(** ** The generated fields follow the body *)

Section Derived.
Context {C : Collaborators}.

(** When the renderer step has to render and resolves, [html] is the
    rendering of the body. *)
Lemma renderHtml_renders options m t m' t' :
  renderHtml options {| this := m; tick := t |}
  = (Resolved tt, {| this := m'; tick := t' |}) ->
  hasChanged m "mobiledoc" = true \/ force_rerender options = true ->
  render (get m "mobiledoc") = Some (get m' "html").
Proof.
  intros H Hcond. unfold renderHtml in H. rewrite bind_self_eq in H.
  assert (Hc : hasChanged m "mobiledoc" || force_rerender options
               || negb (truthy (get m "html"))
                  && (migrating options || importing options) = true).
  { destruct Hcond as [-> | ->]; [reflexivity |].
    now rewrite orb_true_r. }
  rewrite Hc in H.
  destruct (render (get m "mobiledoc")) as [html |]; [| discriminate].
  injection H as <- _. now rewrite get_set_eq.
Qed.

(** When the html has changed, or no plaintext is left, the plaintext
    is the text of the html, or null for a null html. *)
Lemma derivePlaintext_derives m :
  hasChanged m "html" = true
  \/ truthy (get (derivePlaintext m) "plaintext") = false ->
  get (derivePlaintext m) "plaintext"
  = if strict_eq (get m "html") JNull then JNull else htmlToText (get m "html").
Proof.
  unfold derivePlaintext.
  destruct (hasChanged m "html" || negb (truthy (get m "plaintext"))) eqn:Ec.
  - intros _.
    set (p := if strict_eq (get m "html") JNull then JNull
              else htmlToText (get m "html")).
    destruct (truthy p || negb (strict_eq p (get m "plaintext"))) eqn:Es.
    + apply get_set_eq.
    + apply orb_false_iff in Es as [_ Es].
      apply negb_false_iff, strict_eq_eq in Es. now symmetry.
  - apply orb_false_iff in Ec as [Eh Ep]. apply negb_false_iff in Ep.
    intros [H | H]; congruence.
Qed.

(** X2. After a save that resolves, a changed body, or a forced
    rerender, leaves in [html] the rendering of the body that is
    stored; and a changed [html], or an empty [plaintext], leaves in
    [plaintext] the text of the html that is stored, or null when that
    html is null. *)
Theorem generated_fields_follow_the_body options m t st' :
  onSaving options {| this := m; tick := t |} = (Resolved tt, st') ->
  let html := get (this st') "html" in
  (hasChanged (this st') "mobiledoc" = true \/ force_rerender options = true ->
   render (get (this st') "mobiledoc") = Some html)
  /\ (hasChanged (this st') "html" = true
      \/ truthy (get (this st') "plaintext") = false ->
      get (this st') "plaintext"
      = if strict_eq html JNull then JNull else htmlToText html).
Proof.
  intros H html. unfold html. clear html.
  apply onSaving_resolved in H as (t1 & m12 & m15 & t15 & _ & _ & Hr & Hp & Hops).
  set (c := saving_consts m) in *.
  set (mr := beforeRender options (beforeBase options m)) in *.
  pose proof (frames_eq _ _ _ _ _ _ _ (renderHtml_frame options) Hr) as F12.
  pose proof (derivePlaintext_frame m12) as Fp.
  pose proof (setTitle_frame options (derivePlaintext m12)) as Ft.
  pose proof (frames_eq _ _ _ _ _ _ _ (setPublishedAt_frame c) Hp) as F15.
  pose proof (afterPublishedAt_frame options c m15) as F17.
  pose proof (savingOps_frames options c (afterPublishedAt options c m15)
                {| this := afterPublishedAt options c m15; tick := t15 |}) as Fops.
  rewrite Hops in Fops. cbn [snd this] in Fops.
  fold (afterRender options m12) in Ft.
  assert (Hkeep : forall k,
             touched ["title"; "published_at"; "published_by";
                      "send_email_when_published"; "slug";
                      "mobiledoc_revisions"] k = false ->
             get (this st') k = get (derivePlaintext m12) k).
  { intros k Hk.
    rewrite (se_get _ _ _ Fops), (se_get _ _ _ F17), (se_get _ _ _ F15);
      [apply (se_get _ _ _ Ft) | | |];
      (eapply touched_sub; [| exact Hk]); reflexivity. }
  assert (Hprev12 : forall k, previous (this st') k = previous m12 k).
  { intros k.
    rewrite (same_except_previous _ _ _ k Fops), (same_except_previous _ _ _ k F17),
      (same_except_previous _ _ _ k F15), (same_except_previous _ _ _ k Ft).
    apply (same_except_previous _ _ _ k Fp). }
  assert (Hhtml' : get (this st') "html" = get m12 "html").
  { rewrite Hkeep by reflexivity. apply (se_get _ _ _ Fp). reflexivity. }
  assert (Hdoc' : get (this st') "mobiledoc" = get mr "mobiledoc").
  { rewrite Hkeep by reflexivity.
    rewrite (se_get _ _ _ Fp) by reflexivity.
    apply (se_get _ _ _ F12). reflexivity. }
  split.
  - intros Hcond. rewrite Hhtml', Hdoc'.
    apply (renderHtml_renders _ _ _ _ _ Hr).
    destruct Hcond as [Hchanged | Hforce]; [left | now right].
    rewrite <- (hasChanged_eq mr (this st') "mobiledoc"); [exact Hchanged | exact Hdoc' |].
    rewrite Hprev12. apply (same_except_previous _ _ _ _ F12).
  - intros Hcond. rewrite (Hkeep "plaintext" eq_refl), Hhtml'.
    apply derivePlaintext_derives.
    destruct Hcond as [Hchanged | Hempty]; [left | right].
    + rewrite <- (hasChanged_eq m12 (this st') "html");
        [exact Hchanged | exact Hhtml' | apply Hprev12].
    + now rewrite <- (Hkeep "plaintext" eq_refl).
Qed.

End Derived.

Lemma generated_fields_follow_the_body_witness :
  let m :=
    model_of "p1"
      [("status", JStr "draft"); ("title", JStr "Hello"); ("slug", JStr "hello");
       ("mobiledoc", JStr "new body"); ("html", JStr "<p>old body</p>");
       ("plaintext", JStr "old body")]
      [("status", JStr "draft"); ("title", JStr "Hello"); ("slug", JStr "hello");
       ("mobiledoc", JStr "old body"); ("html", JStr "<p>old body</p>");
       ("plaintext", JStr "old body")] in
  let st' := snd (onSaving (C := fixture) update_options {| this := m; tick := 0 |}) in
  hasChanged (this st') "mobiledoc" = true
  /\ render (Collaborators := fixture) (get (this st') "mobiledoc")
     = Some (get (this st') "html")
  /\ get (this st') "html" = JStr "<p>new body</p>".
Proof.
  intros m st'.
  assert (Hrun : onSaving (C := fixture) update_options {| this := m; tick := 0 |}
                 = (Resolved tt, st')) by (vm_compute; reflexivity).
  assert (Hchanged : hasChanged (this st') "mobiledoc" = true)
    by (vm_compute; reflexivity).
  split; [exact Hchanged |].
  split.
  - exact (proj1 (generated_fields_follow_the_body (C := fixture) update_options
                    m 0 st' Hrun) (or_introl Hchanged)).
  - vm_compute. reflexivity.
Defined.

(** ** More on the revision log *)

Section MoreRevisions.
Context {C : Collaborators}.


(** The tasks of a save whose body needs no revision leave the
    revisions alone. *)
Lemma savingOps_without_revisions options c m st :
  hasChanged m "mobiledoc" && negb (importing options) && negb (migrating options)
  = false ->
  same_except ["send_email_when_published"; "slug"] (this st)
    (this (snd (sequence (savingOps options c m) st))).
Proof.
  intros Hcond. revert st. apply sequence_frames. unfold savingOps.
  rewrite Hcond. cbv iota. rewrite app_nil_r.
  apply Forall_app_2.
  - destruct (is_str (newStatus c) "draft" && hasChanged m "status"); [| constructor].
    constructor; [| constructor]. apply modify_frame. intros m'.
    eapply same_except_mono; [| apply ensureSendEmail_frame]. reflexivity.
  - constructor; [| constructor].
    destruct (titleDrivesSlug c); apply modify_frame; intros m'.
    + eapply same_except_mono; [| apply updateSlugFromTitle_frame]. reflexivity.
    + eapply same_except_mono; [| apply updateSlugFromSlug_frame]. reflexivity.
Qed.

(** X4. A save that resolves as an import or a migration, or one that
    leaves the body as it was, does not touch the revision log and
    takes no clock reading for it: the attribute keeps the value of
    the payload, as long as the base hook hands it on. *)
Theorem no_revision_without_a_new_body options m t st' :
  onSaving options {| this := m; tick := t |} = (Resolved tt, st') ->
  base_keeps "mobiledoc_revisions" ->
  importing options = true \/ migrating options = true
  \/ hasChanged (this st') "mobiledoc" = false ->
  get (this st') "mobiledoc_revisions" = get m "mobiledoc_revisions".
Proof.
  intros H Hbase Hcase.
  apply onSaving_resolved in H as (t1 & m12 & m15 & t15 & _ & _ & Hr & Hp & Hops).
  set (c := saving_consts m) in *.
  set (m17 := afterPublishedAt options c m15) in *.
  pose proof (savingOps_frames options c m17 {| this := m17; tick := t15 |}) as F.
  rewrite Hops in F. cbn [snd this] in F.
  assert (Hcond : hasChanged m17 "mobiledoc" && negb (importing options)
                  && negb (migrating options) = false).
  { destruct Hcase as [-> | [-> | Hsame]].
    - now rewrite andb_false_r.
    - now rewrite andb_false_r.
    - rewrite <- (same_except_hasChanged _ _ _ "mobiledoc" F eq_refl), Hsame.
      reflexivity. }
  pose proof (savingOps_without_revisions options c m17
                {| this := m17; tick := t15 |} Hcond) as F'.
  rewrite Hops in F'. cbn [snd this] in F'.
  rewrite (se_get _ _ _ F') by reflexivity.
  unfold m17.
  rewrite (se_get _ _ _ (afterPublishedAt_frame options c m15)) by reflexivity.
  apply (before_publishedBy_keeps options c m t1 m12 m15 t15 _ Hr Hp Hbase).
  reflexivity.
Qed.

End MoreRevisions.


Lemma no_revision_without_a_new_body_witness :
  let m :=
    model_of "p1"
      [("status", JStr "draft"); ("title", JStr "Hello");
       ("slug", JStr "hello"); ("mobiledoc", JStr "new body");
       ("mobiledoc_revisions", JArr [JStr "mine"])]
      [("status", JStr "draft"); ("title", JStr "Hello");
       ("slug", JStr "hello"); ("mobiledoc", JStr "old body")] in
  let st' := snd (onSaving (C := fixture) import_options {| this := m; tick := 0 |}) in
  importing import_options = true
  /\ get (this st') "mobiledoc_revisions" = JArr [JStr "mine"].
Proof.
  intros m st'.
  assert (Hrun : onSaving (C := fixture) import_options {| this := m; tick := 0 |}
                 = (Resolved tt, st')) by (vm_compute; reflexivity).
  assert (Bk : base_keeps (C := fixture) "mobiledoc_revisions")
    by (intros ?; split; reflexivity).
  split; [reflexivity |].
  rewrite (no_revision_without_a_new_body (C := fixture) import_options m 0 st'
             Hrun Bk (or_introl eq_refl)).
  vm_compute. reflexivity.
Defined.

(** ** Tags, post meta and URLs *)

Section KeepFirst.
Context {A : Type} (same : A -> A -> bool).

Lemma ForallOrdPairs_snoc (R : A -> A -> Prop) (l : list A) (x : A) :
  ForallOrdPairs R l -> Forall (fun a => R a x) l ->
  ForallOrdPairs R (l ++ [x])%list.
Proof.
  induction 1 as [| a l Ha Hl IH]; intros Hx; cbn [app].
  - constructor; constructor.
  - apply Forall_cons_1 in Hx as [Hax Hx].
    constructor; [| now apply IH].
    apply Forall_app_2; [exact Ha | now constructor].
Qed.

Lemma ForallOrdPairs_app_head (R : A -> A -> Prop) (l1 l2 : list A) (x : A) :
  ForallOrdPairs R (l1 ++ x :: l2)%list -> Forall (fun a => R a x) l1.
Proof.
  induction l1 as [| a l1 IH]; cbn [app]; intros H; [constructor |].
  inversion H as [| ? ? Ha Hl]; subst.
  constructor; [| now apply IH].
  rewrite List.Forall_forall in Ha. apply Ha, in_or_app. right. now left.
Qed.

Lemma existsb_same_false (kept : list A) (x : A) :
  existsb (fun s => same s x) kept = false <->
  Forall (fun s => same s x = false) kept.
Proof.
  induction kept as [| a kept IH]; cbn [existsb].
  - split; [constructor | reflexivity].
  - rewrite orb_false_iff, IH. split.
    + intros [Ha Hk]. now constructor.
    + intros H. apply Forall_cons_1 in H. exact H.
Qed.

(** Keeping the first of the items that are the same: what is kept is
    what was there, then a selection of the items in their order. *)
Lemma keep_first_sublist (l : list A) : forall acc,
  exists added,
    fold_left (fun kept x => if existsb (fun s => same s x) kept
                             then kept else (kept ++ [x])%list) l acc
    = (acc ++ added)%list
    /\ sublist added l.
Proof.
  induction l as [| x l IH]; intros acc; cbn [fold_left].
  - exists []. split; [now rewrite app_nil_r | constructor].
  - destruct (existsb (fun s => same s x) acc).
    + destruct (IH acc) as (added & -> & Hsub).
      exists added. split; [reflexivity | now apply sublist_cons].
    + destruct (IH (acc ++ [x])%list) as (added & -> & Hsub).
      exists (x :: added). split; [now rewrite <- app_assoc | now apply sublist_skip].
Qed.

(** No two of the kept items are the same. *)
Lemma keep_first_distinct (l : list A) : forall acc,
  ForallOrdPairs (fun a b => same a b = false) acc ->
  ForallOrdPairs (fun a b => same a b = false)
    (fold_left (fun kept x => if existsb (fun s => same s x) kept
                              then kept else (kept ++ [x])%list) l acc).
Proof.
  induction l as [| x l IH]; intros acc Hacc; cbn [fold_left]; [exact Hacc |].
  destruct (existsb (fun s => same s x) acc) eqn:E; apply IH; [exact Hacc |].
  apply ForallOrdPairs_snoc; [exact Hacc |].
  now apply existsb_same_false.
Qed.

(** Every item is kept, or is the same as an item that is kept. *)
Lemma keep_first_covers (l : list A) : forall acc x,
  In x l ->
  exists s,
    In s (fold_left (fun kept x => if existsb (fun s => same s x) kept
                                   then kept else (kept ++ [x])%list) l acc)
    /\ (s = x \/ same s x = true).
Proof.
  induction l as [| y l IH]; intros acc x Hin; [destruct Hin |].
  cbn [fold_left]. destruct Hin as [-> | Hin]; [| now apply IH].
  destruct (existsb (fun s => same s x) acc) eqn:E.
  - apply existsb_exists in E as (s & Hs & Hsame).
    destruct (keep_first_sublist l acc) as (added & -> & _).
    exists s. split; [apply in_or_app; now left | now right].
  - destruct (keep_first_sublist l (acc ++ [x])%list) as (added & -> & _).
    exists x. split; [| now left].
    apply in_or_app. left. apply in_or_app. right. now left.
Qed.

(** Items of which no two are the same are all kept. *)
Lemma keep_first_all (l : list A) : forall acc,
  ForallOrdPairs (fun a b => same a b = false) (acc ++ l)%list ->
  fold_left (fun kept x => if existsb (fun s => same s x) kept
                           then kept else (kept ++ [x])%list) l acc
  = (acc ++ l)%list.
Proof.
  induction l as [| x l IH]; intros acc H; cbn [fold_left].
  - now rewrite app_nil_r.
  - pose proof (ForallOrdPairs_app_head _ _ _ _ H) as Hx.
    apply existsb_same_false in Hx. rewrite Hx.
    rewrite IH; rewrite <- app_assoc; [reflexivity | exact H].
Qed.

End KeepFirst.

Section Early.
Context {C : Collaborators}.

(** What a resolved save leaves in an attribute that no step after the
    base hook writes, and that the base hook hands on, is what the
    steps before the base hook left there. *)
Lemma onSaving_early_get options m t st' k :
  onSaving options {| this := m; tick := t |} = (Resolved tt, st') ->
  base_keeps k ->
  touched after_base_keys k = false ->
  get (this st') k = get (beforeBase options m) k.
Proof.
  intros H Hbase Hk.
  rewrite (se_get _ _ _ (onSaving_after_base _ _ _ _ H)) by exact Hk.
  apply Hbase.
Qed.

(** X5. After a save that resolves, with an array of tags in the
    payload, the tags of the item are a selection of those tags, in
    their order; no two of them have the same name up to case; every
    tag of the payload is among them or has the name of one of them;
    and when no two tags of the payload have the same name, all of
    them are kept. *)
Theorem saved_tags_have_distinct_names options m t st' tags :
  onSaving options {| this := m; tick := t |} = (Resolved tt, st') ->
  base_keeps "tags" ->
  get m "tags" = JArr tags ->
  exists kept,
    get (this st') "tags" = JArr kept
    /\ sublist kept tags
    /\ ForallOrdPairs (fun a b => same_name a b = false) kept
    /\ (forall tag, In tag tags ->
          exists saved, In saved kept
                        /\ (saved = tag \/ same_name saved tag = true))
    /\ (ForallOrdPairs (fun a b => same_name a b = false) tags -> kept = tags).
Proof.
  intros H Hbase Htags.
  rewrite (onSaving_early_get _ _ _ _ _ H Hbase eq_refl).
  unfold beforeBase.
  rewrite (se_get _ _ _ (attachPostsMeta_frame _)) by reflexivity.
  assert (Hin : get (setCommentId options m) "tags" = JArr tags).
  { rewrite (se_get _ _ _ (setCommentId_frame options m)) by reflexivity.
    exact Htags. }
  unfold dedupeTags. rewrite Hin. rewrite get_set_eq. cbn [elements_of].
  eexists. split; [reflexivity |].
  split; [| split; [| split]].
  - destruct (keep_first_sublist same_name tags []) as (added & -> & Hsub).
    exact Hsub.
  - apply keep_first_distinct. constructor.
  - intros tag Hin'. now apply keep_first_covers.
  - intros Hdistinct. now apply keep_first_all.
Qed.

Lemma assoc_set_eq k v l : assoc k (assoc_set k v l) = v.
Proof.
  induction l as [| [k' v'] l IH]; cbn [assoc_set assoc].
  - now rewrite String.eqb_refl.
  - destruct (String.eqb k k') eqn:E; cbn [assoc]; rewrite ?String.eqb_refl, ?E;
      [reflexivity | exact IH].
Qed.

Lemma assoc_set_ne k v l k' : k' <> k -> assoc k' (assoc_set k v l) = assoc k' l.
Proof.
  intros Hne. induction l as [| [k0 v0] l IH]; cbn [assoc_set assoc].
  - apply String.eqb_neq in Hne. now rewrite Hne.
  - destruct (String.eqb_spec k k0) as [<- | Hk]; cbn [assoc].
    + apply String.eqb_neq in Hne. now rewrite Hne.
    + now rewrite IH.
Qed.

(** X6. After a save that resolves, with an object as post meta in the
    payload: when the item has a meta record and the object has
    properties, the object is kept and carries the id of that record;
    when the object has no properties, or the item has no meta record
    and every property of the object is falsy, the post meta is null,
    so that no empty record is created; and when the item has no meta
    record and a property is truthy, the object is kept as it is. *)
Theorem post_meta_is_attached_or_dropped options m t st' meta :
  onSaving options {| this := m; tick := t |} = (Resolved tt, st') ->
  base_keeps "posts_meta" ->
  get m "posts_meta" = JObj meta ->
  let relatedModelId := prop (related m "posts_meta") "id" in
  let saved := get (this st') "posts_meta" in
  (truthy relatedModelId = true -> meta <> [] ->
   exists meta',
     saved = JObj meta'
     /\ assoc "id" meta' = relatedModelId
     /\ forall k, k <> "id" -> assoc k meta' = assoc k meta)
  /\ (meta = [] -> saved = JNull)
  /\ (truthy relatedModelId = false ->
      existsb truthy (map snd meta) = false -> saved = JNull)
  /\ (truthy relatedModelId = false ->
      existsb truthy (map snd meta) = true -> saved = JObj meta).
Proof.
  intros H Hbase Hmeta relatedModelId saved. unfold saved. clear saved.
  rewrite (onSaving_early_get _ _ _ _ _ H Hbase eq_refl).
  unfold beforeBase.
  set (x := dedupeTags (setCommentId options m)).
  assert (Fx : same_except ["comment_id"; "tags"] m x).
  { eapply same_except_trans with (m2 := setCommentId options m).
    - eapply same_except_mono; [| apply setCommentId_frame]. reflexivity.
    - eapply same_except_mono; [| apply dedupeTags_frame]. reflexivity. }
  assert (Hx : get x "posts_meta" = JObj meta).
  { rewrite (se_get _ _ _ Fx) by reflexivity. exact Hmeta. }
  assert (Hrel : prop (related x "posts_meta") "id" = relatedModelId).
  { unfold related. now rewrite (se_rel _ _ _ Fx). }
  unfold attachPostsMeta. rewrite Hx, Hrel. cbn [elements_of].
  split; [| split; [| split]].
  - intros Hid Hsome. rewrite Hid.
    assert (He : isEmpty (JObj meta) = false) by (now destruct meta).
    rewrite He. cbn [negb andb]. rewrite get_set_eq. cbn [set_prop].
    eexists. split; [reflexivity |].
    split; [apply assoc_set_eq | intros k Hk; now apply assoc_set_ne].
  - intros ->. cbn [isEmpty negb andb orb].
    rewrite andb_false_r. now rewrite get_set_eq.
  - intros Hid Hnone. rewrite Hid, Hnone. cbn [negb andb].
    rewrite orb_true_r. now rewrite get_set_eq.
  - intros Hid Hsome. rewrite Hid, Hsome. cbn [negb andb].
    assert (He : isEmpty (JObj meta) = false).
    { destruct meta; [discriminate Hsome | reflexivity]. }
    rewrite He. cbn [orb]. exact Hx.
Qed.

(** Each attribute of the transform map goes through its own transform
    and no other. *)
Lemma fold_transformUrl l : forall m k e,
  NoDup (map fst l) -> In (k, e) l ->
  get (fold_left transformUrl l m) k = get (transformUrl m (k, e)) k.
Proof.
  induction l as [| [k0 e0] l IH]; intros m k e Hnd Hin; [destruct Hin |].
  cbn [map fst] in Hnd. apply NoDup_cons in Hnd as [Hfresh Hnd].
  rewrite list_elem_of_In in Hfresh.
  cbn [fold_left].
  assert (Hrest : forall y, ~ In k (map fst l) ->
                    get (fold_left transformUrl l y) k = get y k).
  { intros y Hk.
    apply (se_get (map fst l)).
    - apply same_except_fold_left.
      intros m' [attr [meth opts]] Hin'. unfold transformUrl.
      destruct (hasChanged m' attr && truthy (get m' attr));
        [| apply same_except_refl].
      apply same_except_set, touched_In.
      change attr with (fst (attr, (meth, opts))). now apply in_map.
    - unfold touched. destruct (existsb (String.eqb k) (map fst l)) eqn:E;
        [| reflexivity].
      apply existsb_exists in E as (y' & Hy' & Heq).
      apply String.eqb_eq in Heq. subst y'. contradiction. }
  destruct Hin as [[= -> ->] | Hin].
  - now apply Hrest.
  - assert (Hne : k0 <> k).
    { intros ->. apply Hfresh.
      change k with (fst (k, e)). now apply in_map. }
    rewrite (IH _ k e Hnd Hin).
    assert (F : same_except [k0] m (transformUrl m (k0, e0))).
    { destruct e0 as [meth opts]. unfold transformUrl.
      destruct (_ && _); [| apply same_except_refl].
      apply same_except_set. cbn. now rewrite String.eqb_refl. }
    assert (Hk : touched [k0] k = false).
    { cbn. apply String.eqb_neq in Hne. rewrite String.eqb_sym in Hne.
      now rewrite Hne. }
    destruct e as [meth opts]. unfold transformUrl at 1 3.
    rewrite (same_except_hasChanged _ _ _ k F Hk), (se_get _ _ _ F k Hk).
    destruct (_ && _); [| exact (se_get _ _ _ F k Hk)].
    now rewrite !get_set_eq.
Qed.

(** X7. After a save that resolves, each attribute that carries a URL
    or HTML (excerpt, code injection, images, canonical URL) has gone
    through its transform of the URL utilities once, with the options
    of the transform map, when the payload changes it to a truthy
    value; otherwise it is the value of the payload, untransformed. *)
Theorem urls_are_transformed_when_changed options m t st' k method opts :
  onSaving options {| this := m; tick := t |} = (Resolved tt, st') ->
  base_keeps k ->
  In (k, (method, opts)) urlTransformMap ->
  k <> "mobiledoc" ->
  get (this st') k
  = if hasChanged m k && truthy (get m k)
    then urlUtils method (get m k) opts
    else get m k.
Proof.
  intros H Hbase Hin Hk.
  assert (Hafter : touched after_keys k = false
                   /\ touched generatedFields k = false
                   /\ touched ["comment_id"; "tags"; "posts_meta"] k = false
                   /\ touched ["mobiledoc"] k = false).
  { unfold urlTransformMap in Hin. cbn [In] in Hin.
    repeat (destruct Hin as [Hin | Hin];
            [injection Hin as <- _ _; try contradiction;
             repeat split; reflexivity |]).
    destruct Hin. }
  destruct Hafter as (Ha & Hg & He & Hd).
  destruct (onSaving_runs options m t) as [[e He'] | [(e & t1 & He') | [t1 He']]];
    try (rewrite He' in H; discriminate).
  rewrite He' in H. clear He'.
  pose proof (afterGuards_frames options (saving_consts m)
                {| this := beforeRender options (beforeBase options m); tick := t1 |}) as F.
  rewrite H in F. cbn [snd this] in F.
  rewrite (se_get _ _ _ F) by exact Ha.
  unfold beforeRender.
  rewrite (se_get _ _ _ (populateSizes_frame _ _)) by exact Hd.
  unfold transformUrls.
  rewrite (fold_transformUrl urlTransformMap _ k (method, opts));
    [| apply (bool_decide_unpack _); vm_compute; reflexivity | exact Hin].
  set (x := base_onSaving (beforeBase options m)).
  set (y := ensureMobiledoc (revertGeneratedFields options x)).
  assert (Fy : same_except ("mobiledoc" :: generatedFields) x y).
  { eapply same_except_trans with (m2 := revertGeneratedFields options x).
    - eapply same_except_mono; [| apply revertGeneratedFields_frame]. reflexivity.
    - eapply same_except_mono; [| apply ensureMobiledoc_frame]. reflexivity. }
  assert (Hky : touched ("mobiledoc" :: generatedFields) k = false).
  { cbn [touched existsb] in *. rewrite orb_false_r in Hd.
    unfold touched in Hg. now rewrite Hd, Hg. }
  assert (Hget : get y k = get m k).
  { rewrite (se_get _ _ _ Fy) by exact Hky. unfold x.
    rewrite (proj1 (Hbase _)).
    apply (se_get _ _ _ (beforeBase_frame options m)). exact He. }
  assert (Hprev : previous y k = previous m k).
  { rewrite (same_except_previous _ _ _ k Fy). unfold x.
    rewrite (proj2 (Hbase _)).
    apply (same_except_previous _ _ _ k (beforeBase_frame options m)). }
  unfold transformUrl.
  rewrite (hasChanged_eq m y k Hget Hprev), Hget.
  destruct (_ && _); [apply get_set_eq | exact Hget].
Qed.

End Early.

Lemma saved_tags_have_distinct_names_witness :
  let news := JObj [("name", JStr "News")] in
  let sport := JObj [("name", JStr "Sport")] in
  let m :=
    model_of "p1"
      [("status", JStr "draft"); ("title", JStr "Hello"); ("slug", JStr "hello");
       ("mobiledoc", JStr "body"); ("tags", JArr [news; sport; news])]
      [("status", JStr "draft"); ("title", JStr "Hello"); ("slug", JStr "hello");
       ("mobiledoc", JStr "body")] in
  let st' := snd (onSaving (C := fixture) update_options {| this := m; tick := 0 |}) in
  get m "tags" = JArr [news; sport; news]
  /\ exists kept,
       get (this st') "tags" = JArr kept
       /\ sublist kept [news; sport; news]
       /\ ForallOrdPairs (fun a b => same_name (C := fixture) a b = false) kept.
Proof.
  intros news sport m st'.
  assert (Hrun : onSaving (C := fixture) update_options {| this := m; tick := 0 |}
                 = (Resolved tt, st')) by (vm_compute; reflexivity).
  assert (Bk : base_keeps (C := fixture) "tags") by (intros ?; split; reflexivity).
  assert (Htags : get m "tags" = JArr [news; sport; news]) by (vm_compute; reflexivity).
  split; [exact Htags |].
  destruct (saved_tags_have_distinct_names (C := fixture) update_options m 0 st'
              [news; sport; news] Hrun Bk Htags)
    as (kept & Hkept & Hsub & Hdistinct & _).
  exists kept. split; [exact Hkept |]. split; [exact Hsub | exact Hdistinct].
Defined.

Lemma post_meta_is_attached_or_dropped_witness :
  let m :=
    {| model_id := JStr "p1";
       attributes :=
         list_to_map
           [("status", JStr "draft"); ("title", JStr "Hello");
            ("slug", JStr "hello"); ("mobiledoc", JStr "body");
            ("posts_meta", JObj [("og_title", JStr "Hi")])];
       _previousAttributes :=
         list_to_map
           [("status", JStr "draft"); ("title", JStr "Hello");
            ("slug", JStr "hello"); ("mobiledoc", JStr "body")];
       relations := {["posts_meta" := JObj [("id", JStr "meta1")]]} |} in
  let st' := snd (onSaving (C := fixture) update_options {| this := m; tick := 0 |}) in
  get m "posts_meta" = JObj [("og_title", JStr "Hi")]
  /\ exists meta',
       get (this st') "posts_meta" = JObj meta'
       /\ assoc "id" meta' = JStr "meta1"
       /\ assoc "og_title" meta' = JStr "Hi".
Proof.
  intros m st'.
  assert (Hrun : onSaving (C := fixture) update_options {| this := m; tick := 0 |}
                 = (Resolved tt, st')) by (vm_compute; reflexivity).
  assert (Bk : base_keeps (C := fixture) "posts_meta") by (intros ?; split; reflexivity).
  assert (Hmeta : get m "posts_meta" = JObj [("og_title", JStr "Hi")])
    by (vm_compute; reflexivity).
  assert (Hid : truthy (prop (related m "posts_meta") "id") = true)
    by (vm_compute; reflexivity).
  split; [exact Hmeta |].
  destruct (proj1 (post_meta_is_attached_or_dropped (C := fixture) update_options
                     m 0 st' _ Hrun Bk Hmeta) Hid)
    as (meta' & Hsaved & Hattached & Hother); [discriminate |].
  exists meta'. split; [exact Hsaved |]. split.
  - rewrite Hattached. vm_compute. reflexivity.
  - rewrite Hother by discriminate. reflexivity.
Defined.

Lemma urls_are_transformed_when_changed_witness :
  let m :=
    model_of "p1"
      [("status", JStr "draft"); ("title", JStr "Hello"); ("slug", JStr "hello");
       ("mobiledoc", JStr "body"); ("feature_image", JStr "http://my.blog/a.png")]
      [("status", JStr "draft"); ("title", JStr "Hello"); ("slug", JStr "hello");
       ("mobiledoc", JStr "body")] in
  let st' := snd (onSaving (C := fixture) update_options {| this := m; tick := 0 |}) in
  In ("feature_image", ("absoluteToRelative", [])) urlTransformMap
  /\ get (this st') "feature_image"
     = urlUtils (Collaborators := fixture) "absoluteToRelative"
         (JStr "http://my.blog/a.png") [].
Proof.
  intros m st'.
  assert (Hrun : onSaving (C := fixture) update_options {| this := m; tick := 0 |}
                 = (Resolved tt, st')) by (vm_compute; reflexivity).
  assert (Bk : base_keeps (C := fixture) "feature_image")
    by (intros ?; split; reflexivity).
  assert (Hin : In ("feature_image", ("absoluteToRelative", @nil (string * jsval)))
                  urlTransformMap).
  { unfold urlTransformMap. cbn [In]. do 4 right. left. reflexivity. }
  split; [exact Hin |].
  rewrite (urls_are_transformed_when_changed (C := fixture) update_options m 0 st'
             "feature_image" "absoluteToRelative" [] Hrun Bk Hin);
    [| discriminate].
  vm_compute. reflexivity.
Defined.

(** ** The email flag, the title and the comment id *)

Section Flags.
Context {C : Collaborators}.

(** What the tasks of a save leave in the email flag. *)
Lemma savingOps_flag options c m17 t st' :
  sequence (savingOps options c m17) {| this := m17; tick := t |}
  = (Resolved tt, st') ->
  get (this st') "send_email_when_published"
  = if is_str (newStatus c) "draft" && hasChanged m17 "status"
    then JBool (truthy (fetch_email m17))
    else get m17 "send_email_when_published".
Proof.
  intros H. unfold savingOps in H. rewrite sequence_app in H.
  apply bind_resolved in H as ([] & [m1 t1] & H1 & H2).
  assert (F : same_except ["slug"; "mobiledoc_revisions"] m1 (this st')).
  { assert (Fr : frames ["slug"; "mobiledoc_revisions"]
                   (sequence
                      ([if titleDrivesSlug c
                        then modify (updateSlugFromTitle options c)
                        else modify (updateSlugFromSlug options)]
                       ++ (if hasChanged m17 "mobiledoc" && negb (importing options)
                              && negb (migrating options)
                           then [updateRevisions options] else [])))).
    { apply sequence_frames. apply Forall_app_2.
      - constructor; [| constructor].
        destruct (titleDrivesSlug c); apply modify_frame; intros m'.
        + eapply same_except_mono; [| apply updateSlugFromTitle_frame]. reflexivity.
        + eapply same_except_mono; [| apply updateSlugFromSlug_frame]. reflexivity.
      - destruct (_ && _ && _); [| constructor].
        constructor; [| constructor].
        eapply frames_mono; [| apply updateRevisions_frame]. reflexivity. }
    specialize (Fr {| this := m1; tick := t1 |}). now rewrite H2 in Fr. }
  rewrite (se_get _ _ _ F) by reflexivity.
  destruct (is_str (newStatus c) "draft" && hasChanged m17 "status").
  - apply sequence_one, modify_resolved in H1. subst m1.
    unfold ensureSendEmailWhenPublishedIsUnchanged.
    destruct (truthy (fetch_email m17)); apply get_set_eq.
  - cbn in H1. now injection H1 as <- _.
Qed.

(** X8. After a save that resolves, the email flag is the flag of the
    payload when the status does not change; when the status changes
    to 'published' or 'scheduled' it is true if the save asks for the
    email, and the flag of the payload if it does not; when the status
    changes to 'draft' it is a boolean, true exactly when an email
    record of the item is found, as far as the base hook hands on the
    id of the item and the email is looked up by that id. *)
Theorem email_flag_follows_the_status options m t st' :
  onSaving options {| this := m; tick := t |} = (Resolved tt, st') ->
  base_keeps "status" ->
  base_keeps "send_email_when_published" ->
  let flag := get (this st') "send_email_when_published" in
  (hasChanged m "status" = false ->
   flag = get m "send_email_when_published")
  /\ (hasChanged m "status" = true ->
      get m "status" = JStr "published" \/ get m "status" = JStr "scheduled" ->
      flag = if send_email_when_published options then JBool true
             else get m "send_email_when_published")
  /\ (hasChanged m "status" = true ->
      get m "status" = JStr "draft" ->
      (flag = JBool true \/ flag = JBool false)
      /\ ((forall x, model_id (base_onSaving x) = model_id x) ->
          (forall a b, model_id a = model_id b -> fetch_email a = fetch_email b) ->
          flag = JBool (truthy (fetch_email m)))).
Proof.
  intros H Bstatus Bflag flag. unfold flag. clear flag.
  apply onSaving_resolved in H as (t1 & m12 & m15 & t15 & _ & _ & Hr & Hp & Hops).
  set (c := saving_consts m) in *.
  set (m16 := setPublishedBy options c m15).
  set (m17 := afterPublishedAt options c m15) in *.
  rewrite (savingOps_flag _ _ _ _ _ Hops).
  destruct (before_publishedBy_keeps options c m t1 m12 m15 t15 "status"
              Hr Hp Bstatus eq_refl) as [Hs15 Hps15].
  destruct (before_publishedBy_keeps options c m t1 m12 m15 t15
              "send_email_when_published" Hr Hp Bflag eq_refl) as [Hf15 _].
  pose proof (setPublishedBy_frame options c m15) as F16. fold m16 in F16.
  pose proof (afterPublishedAt_frame options c m15) as F17. fold m17 in F17.
  assert (Hc16 : hasChanged m16 "status" = hasChanged m "status").
  { rewrite (same_except_hasChanged _ _ _ "status" F16 eq_refl).
    now apply hasChanged_eq. }
  assert (Hc17 : hasChanged m17 "status" = hasChanged m "status").
  { rewrite (same_except_hasChanged _ _ _ "status" F17 eq_refl).
    now apply hasChanged_eq. }
  assert (Hf16 : get m16 "send_email_when_published"
                 = get m "send_email_when_published").
  { rewrite (se_get _ _ _ F16) by reflexivity. exact Hf15. }
  assert (Hnew : newStatus c = get m "status") by reflexivity.
  rewrite Hc17, Hnew.
  unfold m17, afterPublishedAt, setSendEmailWhenPublished. fold m16.
  rewrite Hc16, Hnew.
  split; [| split].
  - intros ->. rewrite !andb_false_r. cbn [andb]. exact Hf16.
  - intros -> Hstatus.
    assert (Hd : is_str (get m "status") "draft" = false)
      by (destruct Hstatus as [-> | ->]; reflexivity).
    assert (Hp' : is_str (get m "status") "published"
                  || is_str (get m "status") "scheduled" = true)
      by (destruct Hstatus as [-> | ->]; reflexivity).
    rewrite Hd, Hp'. cbn [andb]. rewrite !andb_true_r.
    destruct (send_email_when_published options); [apply get_set_eq | exact Hf16].
  - intros -> ->. cbn [andb is_str strict_eq String.eqb Ascii.eqb Bool.eqb].
    split; [destruct (truthy _); [now left | now right] |].
    intros Hid Hemail. f_equal. f_equal. apply Hemail.
    rewrite andb_false_r. fold m16.
    rewrite (se_id _ _ _ F16).
    rewrite (se_id _ _ _ (frames_eq _ _ _ _ _ _ _ (setPublishedAt_frame c) Hp)).
    rewrite (se_id _ _ _ (afterRender_frame options m12)).
    rewrite (se_id _ _ _ (frames_eq _ _ _ _ _ _ _ (renderHtml_frame options) Hr)).
    unfold beforeRender.
    rewrite (se_id _ _ _ (afterBase_frame options _)), Hid.
    apply (se_id _ _ _ (beforeBase_frame options m)).
Qed.

(** An attribute that the steps up to the renderer do not write, and
    that the base hook hands on, reaches the renderer as the payload
    has it. *)
Lemma beforeRender_get options m k :
  base_keeps k ->
  touched (["comment_id"; "tags"; "posts_meta"] ++ generatedFields
           ++ map fst urlTransformMap) k = false ->
  get (beforeRender options (beforeBase options m)) k = get m k.
Proof.
  intros Hbase Hk. unfold beforeRender.
  rewrite (se_get _ _ _ (afterBase_frame options _)),
    (proj1 (Hbase _)), (se_get _ _ _ (beforeBase_frame options m));
    [reflexivity | |]; (eapply touched_sub; [| exact Hk]); reflexivity.
Qed.

(** X9. After a save that resolves and is not an import, the title is
    a string: the trimmed title of the payload, or the trimmed
    'untitled' text when the payload has no title.  An import leaves
    the title of the payload as it is. *)
Theorem saved_title_is_trimmed_or_untitled options m t st' :
  onSaving options {| this := m; tick := t |} = (Resolved tt, st') ->
  base_keeps "title" ->
  let untitled := JStr (i18n_t "errors.models.post.untitled" []) in
  (importing options = false ->
   get (this st') "title"
   = JStr (toString_trim (if truthy (get m "title") then get m "title" else untitled)))
  /\ (importing options = true -> get (this st') "title" = get m "title").
Proof.
  intros H Hbase untitled.
  apply onSaving_resolved in H as (t1 & m12 & m15 & t15 & _ & _ & Hr & Hp & Hops).
  set (c := saving_consts m) in *.
  rewrite (after_ops_get _ _ _ _ _ "title" Hops eq_refl).
  rewrite (se_get _ _ _ (afterPublishedAt_frame options c m15)) by reflexivity.
  rewrite (se_get _ _ _ (frames_eq _ _ _ _ _ _ _ (setPublishedAt_frame c) Hp))
    by reflexivity.
  assert (Hin : get (derivePlaintext m12) "title" = get m "title").
  { rewrite (se_get _ _ _ (derivePlaintext_frame m12)) by reflexivity.
    rewrite (se_get _ _ _ (frames_eq _ _ _ _ _ _ _ (renderHtml_frame options) Hr))
      by reflexivity.
    now apply beforeRender_get. }
  unfold afterRender, setTitle. split.
  - intros ->. cbn [negb]. rewrite get_set_eq, Hin. reflexivity.
  - intros ->. cbn [negb]. exact Hin.
Qed.

(** X10. After a save that resolves, the comment id of an item that is
    inserted without one is the id of the item; otherwise it is the
    comment id of the payload: an update never sets it. *)
Theorem comment_id_defaults_to_the_id options m t st' :
  onSaving options {| this := m; tick := t |} = (Resolved tt, st') ->
  base_keeps "comment_id" ->
  (method options = "insert" -> truthy (get m "comment_id") = false ->
   get (this st') "comment_id" = model_id m)
  /\ (method options <> "insert" \/ truthy (get m "comment_id") = true ->
      get (this st') "comment_id" = get m "comment_id").
Proof.
  intros H Hbase.
  rewrite (onSaving_early_get _ _ _ _ _ H Hbase eq_refl).
  unfold beforeBase.
  rewrite (se_get _ _ _ (attachPostsMeta_frame _)) by reflexivity.
  rewrite (se_get _ _ _ (dedupeTags_frame _)) by reflexivity.
  unfold setCommentId. split.
  - intros -> ->. cbn [negb]. apply get_set_eq.
  - intros [Hm | ->].
    + apply String.eqb_neq in Hm. now rewrite Hm.
    + cbn [negb]. now destruct (String.eqb _ _).
Qed.

End Flags.

Lemma email_flag_follows_the_status_witness :
  let m :=
    model_of "p1"
      [("status", JStr "published"); ("title", JStr "Hello");
       ("slug", JStr "hello"); ("mobiledoc", JStr "body")]
      [("status", JStr "draft"); ("title", JStr "Hello");
       ("slug", JStr "hello"); ("mobiledoc", JStr "body")] in
  let options :=
    {| method := "update"; importing := false; migrating := false;
       context := None; force_rerender := false;
       send_email_when_published := true; filter := false |} in
  let st' := snd (onSaving (C := fixture) options {| this := m; tick := 0 |}) in
  hasChanged m "status" = true
  /\ get (this st') "send_email_when_published" = JBool true.
Proof.
  intros m options st'.
  assert (Hrun : onSaving (C := fixture) options {| this := m; tick := 0 |}
                 = (Resolved tt, st')) by (vm_compute; reflexivity).
  assert (Bs : base_keeps (C := fixture) "status") by (intros ?; split; reflexivity).
  assert (Bf : base_keeps (C := fixture) "send_email_when_published")
    by (intros ?; split; reflexivity).
  assert (Hchanged : hasChanged m "status" = true) by (vm_compute; reflexivity).
  assert (Hstatus : get m "status" = JStr "published") by (vm_compute; reflexivity).
  split; [exact Hchanged |].
  exact (proj1 (proj2 (email_flag_follows_the_status (C := fixture) options m 0 st'
                         Hrun Bs Bf)) Hchanged (or_introl Hstatus)).
Defined.

Lemma saved_title_is_trimmed_or_untitled_witness :
  let m :=
    model_of "p1"
      [("status", JStr "draft"); ("slug", JStr "hello"); ("mobiledoc", JStr "body")]
      [("status", JStr "draft"); ("slug", JStr "hello"); ("mobiledoc", JStr "body")] in
  let st' := snd (onSaving (C := fixture) update_options {| this := m; tick := 0 |}) in
  importing update_options = false
  /\ get (this st') "title" = JStr "errors.models.post.untitled".
Proof.
  intros m st'.
  assert (Hrun : onSaving (C := fixture) update_options {| this := m; tick := 0 |}
                 = (Resolved tt, st')) by (vm_compute; reflexivity).
  assert (Bt : base_keeps (C := fixture) "title") by (intros ?; split; reflexivity).
  split; [reflexivity |].
  rewrite (proj1 (saved_title_is_trimmed_or_untitled (C := fixture) update_options
                    m 0 st' Hrun Bt) eq_refl).
  vm_compute. reflexivity.
Defined.

Lemma comment_id_defaults_to_the_id_witness :
  let insert_options :=
    {| method := "insert"; importing := false; migrating := false;
       context := None; force_rerender := false;
       send_email_when_published := false; filter := false |} in
  let m :=
    model_of "p1"
      [("status", JStr "draft"); ("title", JStr "Hello");
       ("slug", JStr "hello"); ("mobiledoc", JStr "body")] [] in
  let st' := snd (onSaving (C := fixture) insert_options {| this := m; tick := 0 |}) in
  method insert_options = "insert"
  /\ truthy (get m "comment_id") = false
  /\ get (this st') "comment_id" = JStr "p1".
Proof.
  intros insert_options m st'.
  assert (Hrun : onSaving (C := fixture) insert_options {| this := m; tick := 0 |}
                 = (Resolved tt, st')) by (vm_compute; reflexivity).
  assert (Bc : base_keeps (C := fixture) "comment_id")
    by (intros ?; split; reflexivity).
  assert (Hnone : truthy (get m "comment_id") = false) by (vm_compute; reflexivity).
  split; [reflexivity |]. split; [exact Hnone |].
  exact (proj1 (comment_id_defaults_to_the_id (C := fixture) insert_options m 0 st'
                  Hrun Bc) eq_refl Hnone).
Defined.

(** ** More on change events *)

Section MoreEvents.
Context {C : Collaborators}.

Lemma post_events_guarded (b : bool) m :
  post_events (if b then handleStatusForAttachedModels m else []) = [].
Proof. destruct b; [apply post_events_attached | reflexivity]. Qed.

(** X11. On an update that leaves the type of the item as it is: when
    the status changes, the events of the post are 'unpublished' if it
    was published, 'published' if it is now, 'scheduled' if it is now,
    'unscheduled' if it was scheduled and is now neither scheduled nor
    published, then 'edited', and 'published' and 'unpublished' never
    both; when the status stays, they are 'published.edited' if the
    post is published, 'rescheduled' if it is scheduled and its
    publication date has changed, then 'edited', and nothing else. *)
Theorem update_events_when_type_is_kept m :
  strict_eq (get m "type") (previous m "type") = true ->
  let type := get m "type" in
  let status := get m "status" in
  let before := previous m "status" in
  (strict_eq status before = false ->
   post_events (onUpdated m)
   = ((if is_str before "published" then [(type, "unpublished")] else [])
      ++ (if is_str status "published" then [(type, "published")] else [])
      ++ (if is_str status "scheduled" then [(type, "scheduled")] else [])
      ++ (if is_str before "scheduled" && negb (is_str status "scheduled")
             && negb (is_str status "published")
          then [(type, "unscheduled")] else [])
      ++ [(type, "edited")])%list
   /\ ~ (In (type, "published") (post_events (onUpdated m))
         /\ In (type, "unpublished") (post_events (onUpdated m))))
  /\ (strict_eq status before = true ->
      post_events (onUpdated m)
      = ((if is_str status "published" then [(type, "published.edited")] else [])
         ++ (if hasDateChanged m "published_at" false && is_str status "scheduled"
             then [(type, "rescheduled")] else [])
         ++ [(type, "edited")])%list
      /\ forall event,
           In (type, event) (post_events (onUpdated m)) ->
           In event ["published.edited"; "rescheduled"; "edited"]).
Proof.
  intros Htype type status before. subst type status before. split.
  - intros Hstatus.
    set (type := get m "type"). set (status := get m "status") in *.
    set (before := previous m "status") in *.
    assert (Hevents :
      post_events (onUpdated m)
      = ((if is_str before "published" then [(type, "unpublished")] else [])
         ++ (if is_str status "published" then [(type, "published")] else [])
         ++ (if is_str status "scheduled" then [(type, "scheduled")] else [])
         ++ (if is_str before "scheduled" && negb (is_str status "scheduled")
                && negb (is_str status "published")
             then [(type, "unscheduled")] else [])
         ++ [(type, "edited")])%list).
    { unfold onUpdated. rewrite Htype. fold type status before. rewrite Hstatus.
      cbn [negb andb].
      rewrite !post_events_app, !post_events_when, post_events_guarded, app_nil_r.
      rewrite <- !app_assoc. reflexivity. }
    split; [exact Hevents |].
    rewrite Hevents. intros [Hpub Hunpub].
    destruct (is_str before "published") eqn:Eb.
    + destruct (is_str status "published") eqn:Es.
      * apply strict_eq_str in Eb, Es. rewrite Eb, Es in Hstatus. discriminate.
      * cbn [app] in Hpub.
        destruct Hpub as [Hpub | Hpub]; [discriminate |].
        repeat (apply in_app_or in Hpub as [Hpub | Hpub]);
          repeat match type of Hpub with
                 | In _ (if ?b then _ else _) => destruct b
                 end;
          cbn [In] in Hpub; intuition discriminate.
    + cbn [app] in Hunpub.
      repeat (apply in_app_or in Hunpub as [Hunpub | Hunpub]);
        repeat match type of Hunpub with
               | In _ (if ?b then _ else _) => destruct b
               end;
        cbn [In] in Hunpub; intuition discriminate.
  - intros Hstatus.
    set (type := get m "type"). set (status := get m "status") in *.
    set (before := previous m "status") in *.
    assert (Hevents :
      post_events (onUpdated m)
      = ((if is_str status "published" then [(type, "published.edited")] else [])
         ++ (if hasDateChanged m "published_at" false && is_str status "scheduled"
             then [(type, "rescheduled")] else [])
         ++ [(type, "edited")])%list).
    { unfold onUpdated. rewrite Htype. fold type status before. rewrite Hstatus.
      cbn [negb andb].
      rewrite !post_events_app, !post_events_when, app_nil_r.
      rewrite <- !app_assoc. reflexivity. }
    split; [exact Hevents |].
    rewrite Hevents. intros event Hin.
    repeat (apply in_app_or in Hin as [Hin | Hin]);
      repeat match type of Hin with
             | In _ (if ?b then _ else _) => destruct b
             end;
      cbn [In] in Hin |- *;
      repeat match type of Hin with
             | _ \/ _ => destruct Hin as [Hin | Hin]
             | (_, _) = (_, _) => injection Hin as <-
             | False => destruct Hin
             end; tauto.
Qed.

Lemma related_events_app l1 l2 :
  related_events (l1 ++ l2) = (related_events l1 ++ related_events l2)%list.
Proof. apply omap_app. Qed.

Lemma related_events_when cond e :
  related_events (when_ cond e)
  = if cond then related_events [e] else [].
Proof. now destruct cond. Qed.

Lemma related_events_attached m :
  related_events (handleStatusForAttachedModels m)
  = (map (fun tag => ("tags", tag, "attached")) (elements_of (related m "tags"))
     ++ map (fun author => ("authors", author, "attached"))
            (elements_of (related m "authors")))%list.
Proof.
  unfold handleStatusForAttachedModels. rewrite related_events_app.
  assert (Hall : forall relation l,
             related_events (map (fun x => RelatedEmitted relation x "attached") l)
             = map (fun x => (relation, x, "attached")) l).
  { intros relation l. induction l as [| x l IH]; [reflexivity |].
    cbn. f_equal. exact IH. }
  now rewrite !Hall.
Qed.

(** The events of the post among the emissions, as emissions again. *)
Lemma emitted_only (l : list emission) :
  related_events l = [] ->
  map (fun p => Emitted (fst p) (snd p)) (post_events l) = l.
Proof.
  induction l as [| [r e | r x e] l IH]; intros H; [reflexivity | |].
  - cbn. f_equal. now apply IH.
  - discriminate H.
Qed.

(** X12. On every update, whether the type changes or not, each tag
    and then each author of the post gets one 'attached' signal when
    the status changes from or to 'published', and no signal goes out
    otherwise; the signals come after all the events of the post. *)
Theorem relations_hear_of_publication_changes m :
  let changes :=
    negb (strict_eq (get m "status") (previous m "status"))
    && (is_str (get m "status") "published"
        || is_str (previous m "status") "published") in
  related_events (onUpdated m)
  = (if changes
     then map (fun tag => ("tags", tag, "attached"))
              (elements_of (related m "tags"))
          ++ map (fun author => ("authors", author, "attached"))
                 (elements_of (related m "authors"))
     else [])%list
  /\ onUpdated m
     = (map (fun p => Emitted (fst p) (snd p)) (post_events (onUpdated m))
        ++ (if changes then handleStatusForAttachedModels m else []))%list.
Proof.
  intros changes.
  set (posts :=
    if negb (strict_eq (get m "type") (previous m "type")) then
      (when_ (is_str (previous m "status") "published")
             (emitChange m "unpublished" true)
       ++ when_ (is_str (previous m "status") "scheduled")
                (emitChange m "unscheduled" true)
       ++ [emitChange m "deleted" true; emitChange m "added" false]
       ++ when_ (is_str (get m "status") "published")
                (emitChange m "published" false)
       ++ when_ (is_str (get m "status") "scheduled")
                (emitChange m "scheduled" false))%list
    else
      ((if negb (strict_eq (get m "status") (previous m "status")) then
          when_ (is_str (previous m "status") "published")
                (emitChange m "unpublished" false)
          ++ when_ (is_str (get m "status") "published")
                   (emitChange m "published" false)
          ++ when_ (is_str (get m "status") "scheduled")
                   (emitChange m "scheduled" false)
          ++ when_ (is_str (previous m "status") "scheduled"
                    && negb (is_str (get m "status") "scheduled")
                    && negb (is_str (get m "status") "published"))
                   (emitChange m "unscheduled" false)
        else
          when_ (is_str (get m "status") "published")
                (emitChange m "published.edited" false)
          ++ when_ (hasDateChanged m "published_at" false
                    && is_str (get m "status") "scheduled")
                   (emitChange m "rescheduled" false))
       ++ [emitChange m "edited" false])%list).
  assert (Hsplit : onUpdated m
                   = (posts ++ (if changes then handleStatusForAttachedModels m
                                else []))%list) by reflexivity.
  assert (Hposts : related_events posts = []).
  { unfold posts.
    destruct (negb (strict_eq (get m "type") (previous m "type")));
      [| destruct (negb (strict_eq (get m "status") (previous m "status")))];
      rewrite !related_events_app, !related_events_when;
      repeat match goal with
             | |- context [if ?b then _ else _] => destruct b
             end; reflexivity. }
  assert (Hrest : post_events (if changes then handleStatusForAttachedModels m else [])
                  = []) by apply post_events_guarded.
  split.
  - rewrite Hsplit, related_events_app, Hposts. cbn [app].
    destruct changes; [apply related_events_attached | reflexivity].
  - rewrite Hsplit at 2. rewrite Hsplit at 1.
    rewrite post_events_app, Hrest, app_nil_r.
    now rewrite (emitted_only posts Hposts).
Qed.

(** X13. A save that is not an insert emits nothing in [onSaved]; an
    insert emits 'added' first, then 'published' or 'scheduled' when
    that is the status of the item.  A destroy emits 'unpublished'
    when the item was published, then always 'deleted', both under
    the previous type, and never 'unscheduled'.  So an item that is
    inserted and destroyed with the same status is announced as
    unpublished exactly when it was announced as published. *)
Theorem insert_and_destroy_events options created destroyed :
  let type := get created "type" in
  let status := get created "status" in
  let was := previous destroyed "type" in
  (method options <> "insert" -> onSaved options created = [])
  /\ (method options = "insert" ->
      post_events (onSaved options created)
      = (type, "added")
          :: (if is_str status "published" then [(type, "published")]
              else if is_str status "scheduled" then [(type, "scheduled")]
              else []))
  /\ post_events (onDestroyed destroyed)
     = ((if is_str (previous destroyed "status") "published"
         then [(was, "unpublished")] else [])
        ++ [(was, "deleted")])%list
  /\ (forall resourceType,
        ~ In (resourceType, "unscheduled") (post_events (onDestroyed destroyed)))
  /\ (method options = "insert" ->
      previous destroyed "status" = status ->
      (In (type, "published") (post_events (onSaved options created))
       <-> In (was, "unpublished") (post_events (onDestroyed destroyed)))).
Proof.
  intros type status was.
  assert (Hsaved : method options = "insert" ->
            post_events (onSaved options created)
            = (type, "added")
                :: (if is_str status "published" then [(type, "published")]
                    else if is_str status "scheduled" then [(type, "scheduled")]
                    else [])).
  { intros Hm. unfold onSaved. rewrite Hm. cbn [String.eqb Ascii.eqb Bool.eqb negb].
    fold status. cbn [find].
    destruct (is_str status "published") eqn:Ep; [reflexivity |].
    destruct (is_str status "scheduled") eqn:Es; reflexivity. }
  assert (Hdestroyed :
            post_events (onDestroyed destroyed)
            = ((if is_str (previous destroyed "status") "published"
                then [(was, "unpublished")] else [])
               ++ [(was, "deleted")])%list).
  { unfold onDestroyed. rewrite post_events_app, post_events_when. reflexivity. }
  split; [| split; [exact Hsaved | split; [exact Hdestroyed | split]]].
  - intros Hm. unfold onSaved. apply String.eqb_neq in Hm. now rewrite Hm.
  - intros resourceType. rewrite Hdestroyed.
    destruct (is_str (previous destroyed "status") "published");
      cbn [app In]; intuition discriminate.
  - intros Hm Hsame. rewrite (Hsaved Hm), Hdestroyed, Hsame.
    destruct (is_str status "published"); cbn [app In].
    + split; intros _; [now left | right; now left].
    + destruct (is_str status "scheduled"); cbn [In];
        split; intros H; intuition discriminate.
Qed.

End MoreEvents.

Lemma update_events_when_type_is_kept_witness :
  let m :=
    model_of "p1"
      [("type", JStr "post"); ("status", JStr "draft")]
      [("type", JStr "post"); ("status", JStr "scheduled")] in
  strict_eq (get m "type") (previous m "type") = true
  /\ post_events (onUpdated (C := fixture) m)
     = [(JStr "post", "unscheduled"); (JStr "post", "edited")].
Proof.
  intros m.
  assert (Htype : strict_eq (get m "type") (previous m "type") = true)
    by (vm_compute; reflexivity).
  assert (Hstatus : strict_eq (get m "status") (previous m "status") = false)
    by (vm_compute; reflexivity).
  split; [exact Htype |].
  rewrite (proj1 (proj1 (update_events_when_type_is_kept (C := fixture) m Htype)
                    Hstatus)).
  vm_compute. reflexivity.
Defined.

(** ** More on the permission gate *)

Section MorePermissions.
Context {C : Collaborators}.

(** X14. Whatever the roles, the action and the request: without the
    api key permission [permissible] rejects; it never rejects with
    anything but a NoPermissionError; and when it resolves, the
    excluded attributes are 'tags' for a Contributor and none for
    anybody else. *)
Theorem api_key_permission_is_required postModel action unsafeAttrs
  loadedPermissions hasUserPermission hasApiKeyPermission :
  let result :=
    permissible postModel action unsafeAttrs loadedPermissions
      hasUserPermission hasApiKeyPermission in
  let denied :=
    Rejected (NoPermissionError
                (i18n_t "errors.models.post.notEnoughPermission" [])) in
  (hasApiKeyPermission = false -> result = denied)
  /\ (forall e, result = Rejected e -> result = denied)
  /\ (forall excluded,
        result = Resolved excluded ->
        hasApiKeyPermission = true
        /\ excluded
           = if has_role (user loadedPermissions) "Contributor"
             then ["tags"] else []).
Proof.
  intros result denied. unfold result, denied, permissible.
  split; [| split].
  - intros ->. now rewrite andb_false_r.
  - intros e. destruct (_ && hasApiKeyPermission); [discriminate | reflexivity].
  - intros excluded.
    destruct hasApiKeyPermission; [| now rewrite andb_false_r].
    destruct (_ && true); [| discriminate].
    intros [= <-]. split; reflexivity.
Qed.

(** X15. For an actor that is not a Contributor: with one of the roles
    Owner, Administrator, Editor or Admin Integration, [permissible]
    resolves exactly when the user permission and the api key
    permission it is called with both hold; with none of them, it
    resolves exactly when the request does not change the visibility
    of the item and the api key permission holds, whatever the user
    permission it is called with.  No attribute is excluded. *)
Theorem visibility_is_for_privileged_roles postModel action unsafeAttrs
  loadedPermissions hasUserPermission hasApiKeyPermission :
  has_role (user loadedPermissions) "Contributor" = false ->
  let result :=
    permissible postModel action unsafeAttrs loadedPermissions
      hasUserPermission hasApiKeyPermission in
  let denied :=
    Rejected (NoPermissionError
                (i18n_t "errors.models.post.notEnoughPermission" [])) in
  let privileged :=
    has_role (user loadedPermissions) "Owner"
    || has_role (user loadedPermissions) "Administrator"
    || has_role (user loadedPermissions) "Editor"
    || has_role (apiKey loadedPermissions) "Admin Integration" in
  let requested := field unsafeAttrs "visibility" in
  let changesVisibility :=
    truthy requested && negb (strict_eq requested (get postModel "visibility")) in
  (privileged = true ->
   result = if hasUserPermission && hasApiKeyPermission
            then Resolved [] else denied)
  /\ (privileged = false ->
      result = if negb changesVisibility && hasApiKeyPermission
               then Resolved [] else denied).
Proof.
  intros Hc result denied privileged requested changesVisibility.
  unfold result, permissible. rewrite Hc. cbn [andb].
  fold privileged requested. fold changesVisibility. fold denied.
  split; intros ->; reflexivity.
Qed.

End MorePermissions.

Lemma visibility_is_for_privileged_roles_witness :
  let author :=
    {| user := Some [JObj [("name", JStr "Author")]]; apiKey := None |} in
  let post :=
    model_of "p1" [("visibility", JStr "public")] [("visibility", JStr "public")] in
  has_role (user author) "Contributor" = false
  /\ permissible (C := fixture) post "edit" {["visibility" := JStr "paid"]}
       author true true
     = Rejected (NoPermissionError "errors.models.post.notEnoughPermission").
Proof.
  intros author post.
  assert (Hrole : has_role (user author) "Contributor" = false)
    by (vm_compute; reflexivity).
  split; [exact Hrole |].
  rewrite (proj2 (visibility_is_for_privileged_roles (C := fixture) post "edit"
                    {["visibility" := JStr "paid"]} author true true Hrole));
    vm_compute; reflexivity.
Defined.

(** ** Reading a post back *)

Section Reading.
Context {C : Collaborators}.

(** X16. [findOne] hands the base model the data of the caller with
    one change at most: the status 'all' is taken out, so that any
    status matches; a missing status becomes 'published' when there is
    no filter; everything else goes through as it is.  So the post
    that [add] has created is read back by its id alone, whatever its
    status, and a failure of the base model's [add] is the failure of
    [add]. *)
Theorem findOne_status_conditions env data options :
  let status := field data "status" in
  (status = JStr "all" ->
   findOne data options = Model_findOne (delete "status" data) options)
  /\ (truthy status = false -> filter options = false ->
      findOne data options
      = Model_findOne (<["status" := JStr "published"]> data) options)
  /\ (status <> JStr "all" -> truthy status = true \/ filter options = true ->
      findOne data options = Model_findOne data options)
  /\ (forall post,
        Model_add (addPost_data env data) (filterOptions options "add")
        = Resolved post ->
        add env data options = Model_findOne {["id" := model_id post]} options)
  /\ (forall e,
        Model_add (addPost_data env data) (filterOptions options "add")
        = Rejected e ->
        add env data options = Rejected e).
Proof.
  intros status. unfold findOne. fold status.
  split; [| split; [| split; [| split]]].
  - intros Hall. rewrite Hall. cbn [truthy String.eqb negb andb].
    rewrite andb_false_r. fold status. now rewrite Hall.
  - intros -> ->. cbn [negb andb].
    unfold field at 1. rewrite lookup_insert_eq. reflexivity.
  - intros Hnot Hsome.
    assert (Hcond : negb (filter options) && negb (truthy status) = false).
    { destruct Hsome as [-> | ->]; [now rewrite andb_false_r | reflexivity]. }
    rewrite Hcond. fold status.
    destruct (is_str status "all") eqn:E; [| reflexivity].
    apply strict_eq_str in E. contradiction.
  - intros post Hadd. unfold add. rewrite Hadd. unfold findOne.
    assert (Hstatus : field {["status" := JStr "all"; "id" := model_id post]} "status"
                      = JStr "all").
    { unfold field. now rewrite lookup_insert_eq. }
    rewrite Hstatus. cbn [truthy String.eqb negb andb].
    rewrite andb_false_r, Hstatus. cbn [is_str strict_eq].
    rewrite String.eqb_refl.
    rewrite delete_insert_id; [reflexivity |].
    now apply lookup_singleton_ne.
  - intros e Hadd. unfold add. now rewrite Hadd.
Qed.

End Reading.

(** ** Queries *)

Section Filters.

(** X17. Whatever status a query asks for, the filter that
    [extraFilters] returns names known statuses only: no filter when
    no status is asked for; all three statuses for 'all'; the status
    itself when it is 'published', 'draft' or 'scheduled'; and
    'published' for anything else.  Once a filter is returned the
    status is gone from the options, and nothing else in them has
    changed. *)
Theorem status_filter_names_known_statuses (options : Query.Options) :
  let asked := Query.status options in
  let filter := fst (extraFilters options) in
  let options' := snd (extraFilters options) in
  (truthy asked = false -> filter = JNull /\ options' = options)
  /\ (asked = JStr "all" -> filter = JStr "status:[published,draft,scheduled]")
  /\ (forall status, In status ALL_STATUSES -> asked = JStr status ->
        filter = JStr ("status:" ++ status))
  /\ (truthy asked = true -> asked <> JStr "all" ->
      (forall status, In status ALL_STATUSES -> asked <> JStr status) ->
      filter = JStr "status:published")
  /\ (truthy asked = true ->
      Query.status options' = JUndefined
      /\ options' = delete_status options
      /\ In filter [JStr "status:published"; JStr "status:draft";
                    JStr "status:scheduled";
                    JStr "status:[published,draft,scheduled]"]).
Proof.
  intros asked filter options'. unfold filter, options', extraFilters.
  fold asked.
  split; [| split; [| split; [| split]]].
  - intros ->. now split.
  - intros ->. reflexivity.
  - intros status Hin ->.
    destruct Hin as [<- | [<- | [<- | []]]]; reflexivity.
  - intros -> Hnot Hnone. cbn [negb fst].
    assert (Ha : is_str asked "all" = false).
    { destruct (is_str asked "all") eqn:E; [| reflexivity].
      apply strict_eq_str in E. contradiction. }
    rewrite Ha. cbn [negb].
    destruct (find (is_str asked) ALL_STATUSES) as [status |] eqn:E; [| reflexivity].
    apply find_some in E as [Hin Heq]. apply strict_eq_str in Heq.
    destruct (Hnone status Hin Heq).
  - intros ->. cbn [negb snd fst]. split; [reflexivity |]. split; [reflexivity |].
    destruct (is_str asked "all") eqn:Ea; cbn [negb].
    + do 3 right. left. reflexivity.
    + destruct (find (is_str asked) ALL_STATUSES) as [status |] eqn:E.
      * apply find_some in E as [Hin _].
        destruct Hin as [<- | [<- | [<- | []]]]; cbn; tauto.
      * left. reflexivity.
Qed.

(** X18. A query with a public context is always held to published
    posts by the enforced filter, and by default to posts; a query
    with an internal context has no default filter; every other
    query, one without a context among them, is by default held to
    published posts.  So outside an internal context one of the two
    filters always asks for the status 'published'. *)
Theorem outsiders_get_published_posts (options : Query.Options) :
  let public := context_flag options "public" in
  let internal := context_flag options "internal" in
  enforcedFilters options = (if public then JStr "status:published" else JNull)
  /\ (internal = true -> defaultFilters options = JNull)
  /\ (internal = false -> public = true ->
      defaultFilters options = JStr "type:post")
  /\ (internal = false -> public = false ->
      defaultFilters options = JStr "type:post+status:published")
  /\ (truthy (Query.context options) = false ->
      enforcedFilters options = JNull
      /\ defaultFilters options = JStr "type:post+status:published")
  /\ (internal = false ->
      enforcedFilters options = JStr "status:published"
      \/ defaultFilters options = JStr "type:post+status:published").
Proof.
  intros public internal. unfold enforcedFilters, defaultFilters.
  fold public internal.
  split; [reflexivity |].
  split; [now intros -> |].
  split; [now intros -> -> |].
  split; [now intros -> -> |].
  split.
  - intros Hc. unfold public, internal, context_flag. rewrite Hc. now split.
  - intros ->. destruct public; [now left | now right].
Qed.

End Filters.

Section JSON.
Variable filterOptions_toJSON : Query.Options -> Query.Options.
Variable base_toJSON : Model -> Query.Options -> gmap string jsval.

Lemma formatsToJSON_lookup attrs options k :
  formatsToJSON attrs options !! k
  = if existsb (String.eqb k) allowedFormats
       && negb (existsb (String.eqb k) (default ["html"] (Query.formats options)))
    then None
    else attrs !! k.
Proof.
  unfold formatsToJSON, allowedFormats. cbn [fold_left existsb].
  set (kept := default ["html"] (Query.formats options)).
  assert (Hstep : forall (a : gmap string jsval) format,
            (if negb (existsb (String.eqb format) kept) then delete format a else a) !! k
            = if String.eqb k format && negb (existsb (String.eqb k) kept)
              then None else a !! k).
  { intros a format. destruct (String.eqb_spec k format) as [-> | Hne].
    - cbn [andb]. destruct (negb _); [apply lookup_delete_eq | reflexivity].
    - cbn [andb]. destruct (negb _); [| reflexivity].
      apply lookup_delete_ne. congruence. }
  rewrite !Hstep. rewrite orb_false_r.
  destruct (negb (existsb (String.eqb k) kept));
    [| now rewrite !andb_false_r].
  rewrite !andb_true_r.
  destruct (String.eqb k "mobiledoc"), (String.eqb k "html"),
    (String.eqb k "plaintext"); reflexivity.
Qed.

(** X19. What [toJSON] gives never has the revisions; of the formats
    mobiledoc, html and plaintext it has those that are asked for,
    html alone when none is asked for, each as the base model gives
    it; and every other attribute but the primary tag is as the base
    model gives it. *)
Theorem toJSON_hides_revisions_and_formats model unfilteredOptions :
  let options := filterOptions_toJSON unfilteredOptions in
  let base := base_toJSON model options in
  let json := toJSON filterOptions_toJSON base_toJSON model unfilteredOptions in
  let asked := default ["html"] (Query.formats options) in
  json !! "mobiledoc_revisions" = None
  /\ (forall format, In format allowedFormats ->
        json !! format = if existsb (String.eqb format) asked
                         then base !! format else None)
  /\ (forall k, ~ In k allowedFormats -> k <> "mobiledoc_revisions" ->
        k <> "primary_tag" -> json !! k = base !! k).
Proof.
  intros options base json asked.
  assert (Hjson : forall k, k <> "primary_tag" ->
            json !! k = delete "mobiledoc_revisions" (formatsToJSON base options) !! k).
  { intros k Hk. unfold json, toJSON. fold options. fold base.
    destruct (columns_allow options "primary_tag"); [| reflexivity].
    destruct (first_of _) as [tag |]; [destruct (is_str _ _) |];
      now rewrite lookup_insert_ne by congruence. }
  split; [| split].
  - rewrite Hjson by discriminate. apply lookup_delete_eq.
  - intros format Hin.
    assert (Hf : existsb (String.eqb format) allowedFormats = true).
    { apply existsb_exists. exists format. split; [exact Hin | apply String.eqb_refl]. }
    rewrite Hjson, lookup_delete_ne, formatsToJSON_lookup.
    + rewrite Hf. cbn [andb]. fold asked. now destruct (existsb _ asked).
    + destruct Hin as [<- | [<- | [<- | []]]]; discriminate.
    + destruct Hin as [<- | [<- | [<- | []]]]; discriminate.
  - intros k Hk Hrev Hprimary.
    assert (Hf : existsb (String.eqb k) allowedFormats = false).
    { destruct (existsb (String.eqb k) allowedFormats) eqn:E; [| reflexivity].
      apply existsb_exists in E as (x & Hx & Heq).
      apply String.eqb_eq in Heq. subst x. contradiction. }
    rewrite Hjson by exact Hprimary.
    rewrite lookup_delete_ne by congruence.
    rewrite formatsToJSON_lookup, Hf. reflexivity.
Qed.

(** X20. When the columns of the query allow it, none being asked for
    or 'primary_tag' being among them, the primary tag in what
    [toJSON] gives is the first tag of the post if that tag is public,
    and null if it is not or if the post has no tags; when the columns
    do not allow it, [toJSON] adds no primary tag. *)
Theorem primary_tag_is_the_first_public_tag model unfilteredOptions :
  let options := filterOptions_toJSON unfilteredOptions in
  let base := base_toJSON model options in
  let json := toJSON filterOptions_toJSON base_toJSON model unfilteredOptions in
  (columns_allow options "primary_tag" = true ->
   (forall tag rest,
      base !! "tags" = Some (JArr (tag :: rest)) ->
      json !! "primary_tag"
      = Some (if is_str (prop tag "visibility") "public" then tag else JNull))
   /\ (base !! "tags" = None \/ base !! "tags" = Some (JArr []) ->
       json !! "primary_tag" = Some JNull))
  /\ (columns_allow options "primary_tag" = false ->
      json !! "primary_tag" = base !! "primary_tag").
Proof.
  intros options base json.
  assert (Htags : field (delete "mobiledoc_revisions" (formatsToJSON base options)) "tags"
                  = field base "tags").
  { unfold field. rewrite lookup_delete_ne by discriminate.
    now rewrite formatsToJSON_lookup. }
  unfold json, toJSON. fold options. fold base. rewrite Htags.
  split.
  - intros ->. split.
    + intros tag rest Hbase. unfold field. rewrite Hbase. cbn [default from_option id first_of].
      destruct (is_str _ _); now rewrite lookup_insert_eq.
    + intros [Hbase | Hbase]; unfold field; rewrite Hbase; cbn [default from_option id first_of];
        now rewrite lookup_insert_eq.
  - intros ->. rewrite lookup_delete_ne by discriminate.
    now rewrite formatsToJSON_lookup.
Qed.

End JSON.

Lemma primary_tag_is_the_first_public_tag_witness :
  let news := JObj [("name", JStr "News"); ("visibility", JStr "public")] in
  let options :=
    {| Query.status := JUndefined; Query.context := JUndefined;
       Query.formats := None; Query.columns := None;
       Query.withRelated := None |} in
  let base_toJSON := fun (m : Model) (_ : Query.Options) => attributes m in
  let post := model_of "p1" [("tags", JArr [news]); ("html", JStr "<p>x</p>")] [] in
  columns_allow options "primary_tag" = true
  /\ toJSON (fun o => o) base_toJSON post options !! "primary_tag" = Some news.
Proof.
  intros news options base_toJSON post.
  assert (Hc : columns_allow options "primary_tag" = true) by reflexivity.
  split; [exact Hc |].
  rewrite (proj1 (proj1 (primary_tag_is_the_first_public_tag (fun o => o) base_toJSON
                           post options) Hc) news []);
    vm_compute; reflexivity.
Defined.

Section OptionsAndRelations.



Lemma union_In a b x : In x (Lodash.union a b) <-> In x a \/ In x b.
Proof.
  unfold Lodash.union. rewrite <- in_app_iff. split.
  - intros Hin.
    destruct (keep_first_sublist (fun y x => String.eqb y x) (a ++ b) [])
      as (added & Heq & Hsub).
    rewrite Heq in Hin. cbn [app] in Hin.
    apply list_elem_of_In. eapply elem_of_sublist; [| exact Hsub].
    now apply list_elem_of_In.
  - intros Hin.
    destruct (keep_first_covers (fun y x => String.eqb y x) (a ++ b) [] x Hin)
      as (s & Hs & [-> | Hsame]); [exact Hs |].
    apply String.eqb_eq in Hsame. now subst s.
Qed.

Lemma union_NoDup a b : NoDup (Lodash.union a b).
Proof.
  unfold Lodash.union.
  pose proof (keep_first_distinct (fun y x => String.eqb y x) (a ++ b) []
                (FOP_nil _)) as H.
  induction H as [| x l Hx _ IH]; [constructor |].
  apply NoDup_cons. split; [| exact IH].
  rewrite list_elem_of_In. intros Hin.
  rewrite List.Forall_forall in Hx. specialize (Hx x Hin).
  now rewrite String.eqb_refl in Hx.
Qed.

(** X22. [defaultRelations] adds to the relations a query asks for:
    the authors and the tags when the method is 'edit', 'add' or
    'destroy', and the post meta when no columns are asked for or a
    column of the post meta is among them.  Every relation that was
    asked for is kept, nothing else is added, no relation is loaded
    twice once something was added, and the other options stay as
    they are; when nothing is to be added the options are returned as
    they are. *)
Theorem default_relations_are_added
  (PostsMeta_permittedAttributes : list string) methodName options :
  let result := defaultRelations PostsMeta_permittedAttributes methodName options in
  let asked := default [] (Query.withRelated options) in
  let writes := existsb (String.eqb methodName) ["edit"; "add"; "destroy"] in
  let meta := wants_meta PostsMeta_permittedAttributes options in
  (forall relation,
     In relation (default [] (Query.withRelated result))
     <-> (In relation asked
          \/ (writes = true /\ (relation = "authors" \/ relation = "tags"))
          \/ (meta = true /\ relation = "posts_meta")))
  /\ (writes || meta = true ->
      exists withRelated,
        Query.withRelated result = Some withRelated /\ NoDup withRelated)
  /\ (writes || meta = false -> result = options)
  /\ Query.status result = Query.status options
  /\ Query.context result = Query.context options
  /\ Query.formats result = Query.formats options
  /\ Query.columns result = Query.columns options.
Proof.
  intros result asked writes meta.
  unfold result, defaultRelations. fold writes.
  assert (Hmeta : forall w, wants_meta PostsMeta_permittedAttributes
                              (set_withRelated options w) = meta) by reflexivity.
  destruct writes; [rewrite Hmeta |]; fold meta; destruct meta;
    cbn [set_withRelated Query.withRelated Query.status Query.context
         Query.formats Query.columns default from_option id orb]; fold asked.
  - split; [| split; [| split; [| repeat split]]].
    + intros relation. rewrite !union_In. cbn [In]. intuition congruence.
    + intros _. eexists. split; [reflexivity | apply union_NoDup].
    + discriminate.
  - split; [| split; [| split; [| repeat split]]].
    + intros relation. rewrite !union_In. cbn [In]. intuition congruence.
    + intros _. eexists. split; [reflexivity | apply union_NoDup].
    + discriminate.
  - split; [| split; [| split; [| repeat split]]].
    + intros relation. rewrite !union_In. cbn [In]. intuition congruence.
    + intros _. eexists. split; [reflexivity | apply union_NoDup].
    + discriminate.
  - split; [| split; [| split; [| repeat split]]].
    + intros relation. intuition congruence.
    + discriminate.
    + reflexivity.
Qed.

End OptionsAndRelations.

(** ** The storage adapter *)

Section Storing.
Variable getTargetDir : string.
Variable getUniqueFileName :
  LocalFileStore.Image -> string -> LocalFileStore.promise string.
Variable bucket_upload :
  string -> LocalFileStore.UploadOptions -> LocalFileStore.promise unit.
Variable toString_other : jsval -> string.

(** X23. [save] on the adapter that [constructor] makes: when no file
    name can be found, it fails with that reason and uploads nothing;
    otherwise it asks the bucket for one upload, of the file of the
    image, public, to the file name it was given; when the upload
    fails, it fails with that reason, and when it succeeds, the URL it
    resolves with is that file name on the fixed asset domain, over
    https unless the configuration has an asset domain and is set to
    insecure. *)
Theorem saved_url_addresses_the_upload config image :
  let this := LocalFileStore.constructor config in
  let result :=
    LocalFileStore.save getTargetDir getUniqueFileName bucket_upload
      toString_other this image in
  let scheme :=
    if LocalFileStore.hasOwn_assetDomain config
       && truthy (LocalFileStore.config_insecure config)
    then "http" else "https" in
  (forall reason,
     getUniqueFileName image getTargetDir = LocalFileStore.Failed reason ->
     result = (LocalFileStore.Failed reason, []))
  /\ (forall newFile,
        getUniqueFileName image getTargetDir = LocalFileStore.Fulfilled newFile ->
        exists opts,
          snd result = [(LocalFileStore.path image, opts)]
          /\ LocalFileStore.destination opts = newFile
          /\ LocalFileStore.public opts = true
          /\ (forall reason,
                bucket_upload (LocalFileStore.path image) opts
                = LocalFileStore.Failed reason ->
                fst result = LocalFileStore.Failed reason)
          /\ (forall done,
                bucket_upload (LocalFileStore.path image) opts
                = LocalFileStore.Fulfilled done ->
                fst result
                = LocalFileStore.Fulfilled
                    (scheme ++ "://cdn-ghost.storage.googleapis.com/" ++ newFile))).
Proof.
  intros this result scheme. unfold result, LocalFileStore.save. split.
  - intros reason ->. reflexivity.
  - intros newFile ->.
    eexists. split; [| split; [| split; [| split]]].
    + destruct (bucket_upload _ _); reflexivity.
    + reflexivity.
    + reflexivity.
    + intros reason Hup. cbn [LocalFileStore.destination] in Hup |- *.
      now rewrite Hup.
    + intros done Hup. rewrite Hup. cbn [fst]. f_equal.
      unfold scheme, this, LocalFileStore.constructor.
      cbn [LocalFileStore.insecure LocalFileStore.assetDomain].
      destruct (LocalFileStore.hasOwn_assetDomain config); cbn [andb truthy];
        [destruct (truthy (LocalFileStore.config_insecure config)) |];
        reflexivity.
Qed.

End Storing.

(** ** Meta data of the frontend *)

Section MetaTexts.
Variable settingsCache_get : string -> jsval.
Variable trim : string -> string.




End MetaTexts.

Section MetaImages.
Variable imageSizeCache : jsval -> option (Z * Z).

(** X25. [getImageDimensions] on meta data whose logo has no
    dimensions yet: the dimensions it gives the logo are never wider
    than 600 or higher than 60; they are the size of the image when
    that fits, 60 by 60 when the image is too large and a square, and
    none otherwise.  The cover image gets the size of its image
    whenever that is known and keeps what it had when it is not, and
    no URL is changed. *)
Theorem logo_dimensions_fit_the_publisher_logo metaData :
  Meta.dimensions (Meta.site_logo metaData) = None ->
  let result := Meta.getImageDimensions imageSizeCache metaData in
  let logo := Meta.dimensions (Meta.site_logo result) in
  let size := imageSizeCache (Meta.url (Meta.site_logo metaData)) in
  (forall width height,
     logo = Some (width, height) -> (width <= 600 /\ height <= 60)%Z)
  /\ (forall width height,
        size = Some (width, height) ->
        logo = if (height <=? 60)%Z && (width <=? 600)%Z then Some (width, height)
               else if (width =? height)%Z then Some (60, 60)%Z
               else None)
  /\ (size = None -> logo = None)
  /\ Meta.dimensions (Meta.coverImage result)
     = match imageSizeCache (Meta.url (Meta.coverImage metaData)) with
       | Some dimensions => Some dimensions
       | None => Meta.dimensions (Meta.coverImage metaData)
       end
  /\ Meta.url (Meta.site_logo result) = Meta.url (Meta.site_logo metaData)
  /\ Meta.url (Meta.coverImage result) = Meta.url (Meta.coverImage metaData).
Proof.
  intros Hnone result logo size.
  assert (Hlogo : logo = match size with
                         | Some (width, height) =>
                             if (height <=? 60)%Z && (width <=? 600)%Z
                             then Some (width, height)
                             else if (width =? height)%Z then Some (60, 60)%Z
                             else None
                         | None => None
                         end).
  { unfold logo, result, size, Meta.getImageDimensions.
    destruct (imageSizeCache (Meta.url (Meta.coverImage metaData))) as [[cw ch] |];
      destruct (imageSizeCache (Meta.url (Meta.site_logo metaData))) as [[w h] |];
      cbn [Meta.site_logo Meta.coverImage]; try exact Hnone;
      destruct ((h <=? 60)%Z && (w <=? 600)%Z); try reflexivity;
      destruct (w =? h)%Z; try reflexivity; exact Hnone. }
  split; [| split; [| split; [| split; [| split]]]].
  - intros width height. rewrite Hlogo.
    destruct size as [[w h] |]; [| discriminate].
    destruct ((h <=? 60)%Z && (w <=? 600)%Z) eqn:E.
    + intros [= <- <-]. apply andb_true_iff in E as [Hh Hw]. lia.
    + destruct (w =? h)%Z; [| discriminate]. intros [= <- <-]. lia.
  - intros width height Hsize. now rewrite Hlogo, Hsize.
  - intros Hsize. now rewrite Hlogo, Hsize.
  - unfold result, Meta.getImageDimensions.
    destruct (imageSizeCache (Meta.url (Meta.coverImage metaData))) as [[cw ch] |];
      destruct (imageSizeCache (Meta.url (Meta.site_logo metaData))) as [[w h] |];
      cbn [Meta.site_logo Meta.coverImage]; try reflexivity;
      destruct ((h <=? 60)%Z && (w <=? 600)%Z); try reflexivity;
      destruct (w =? h)%Z; reflexivity.
  - unfold result, Meta.getImageDimensions.
    destruct (imageSizeCache (Meta.url (Meta.coverImage metaData))) as [[cw ch] |];
      destruct (imageSizeCache (Meta.url (Meta.site_logo metaData))) as [[w h] |];
      cbn [Meta.site_logo Meta.coverImage]; try reflexivity;
      destruct ((h <=? 60)%Z && (w <=? 600)%Z); try reflexivity;
      destruct (w =? h)%Z; reflexivity.
  - unfold result, Meta.getImageDimensions.
    destruct (imageSizeCache (Meta.url (Meta.coverImage metaData))) as [[cw ch] |];
      destruct (imageSizeCache (Meta.url (Meta.site_logo metaData))) as [[w h] |];
      cbn [Meta.site_logo Meta.coverImage]; try reflexivity;
      destruct ((h <=? 60)%Z && (w <=? 600)%Z); try reflexivity;
      destruct (w =? h)%Z; reflexivity.
Qed.

End MetaImages.

Lemma logo_dimensions_fit_the_publisher_logo_witness :
  let metaData :=
    {| Meta.coverImage := {| Meta.url := JStr "cover.png"; Meta.dimensions := None |};
       Meta.site_logo := {| Meta.url := JStr "logo.png"; Meta.dimensions := None |} |} in
  let imageSizeCache := fun _ : jsval => Some (512, 512)%Z in
  Meta.dimensions (Meta.site_logo metaData) = None
  /\ Meta.dimensions (Meta.site_logo (Meta.getImageDimensions imageSizeCache metaData))
     = Some (60, 60)%Z.
Proof.
  intros metaData imageSizeCache.
  assert (Hnone : Meta.dimensions (Meta.site_logo metaData) = None) by reflexivity.
  split; [exact Hnone |].
  rewrite (proj1 (proj2 (logo_dimensions_fit_the_publisher_logo imageSizeCache
                           metaData Hnone)) 512%Z 512%Z eq_refl).
  reflexivity.
Defined.

(** ** The state key *)

Section StateKey.




End StateKey.

(** ** The publication date and the publisher outside publishing *)

Section Kept.
Context {C : Collaborators}.

(** X27. A save that resolves never overwrites a publication date:
    when the status asked for is not 'published', or the payload has a
    publication date, the publication date after the save is that of
    the payload, as long as the base hook hands it on. *)
Theorem publication_date_is_kept options m t st' :
  onSaving options {| this := m; tick := t |} = (Resolved tt, st') ->
  base_keeps "published_at" ->
  get m "status" <> JStr "published" \/ truthy (get m "published_at") = true ->
  get (this st') "published_at" = get m "published_at".
Proof.
  intros H Hbase Hcase.
  apply onSaving_resolved in H as (t1 & m12 & m15 & t15 & _ & _ & Hr & Hp & Hops).
  rewrite (after_ops_get _ _ _ _ _ "published_at" Hops eq_refl).
  rewrite (se_get _ _ _ (afterPublishedAt_frame _ _ _)) by reflexivity.
  assert (Hcond : is_str (newStatus (saving_consts m)) "published"
                  && negb (truthy (publishedAt (saving_consts m))) = false).
  { cbn [saving_consts newStatus publishedAt].
    destruct Hcase as [Hstatus | ->]; [| now rewrite andb_false_r].
    destruct (is_str (get m "status") "published") eqn:E; [| reflexivity].
    apply strict_eq_str in E. contradiction. }
  unfold setPublishedAt in Hp. rewrite Hcond in Hp. injection Hp as <- _.
  rewrite (se_get _ _ _ (afterRender_frame options m12)) by reflexivity.
  rewrite (se_get _ _ _ (frames_eq _ _ _ _ _ _ _ (renderHtml_frame options) Hr))
    by reflexivity.
  now apply beforeRender_get.
Qed.

(** X28. Outside imports, the publisher cannot be written by a save
    that does not change the status to 'published': after such a save
    that resolves, a publisher that the payload has changed is back
    to the previous one, as a string, or null when there was none,
    and an unchanged one stays. *)
Theorem published_by_is_read_only options m t st' :
  onSaving options {| this := m; tick := t |} = (Resolved tt, st') ->
  base_keeps "status" ->
  base_keeps "published_by" ->
  importing options = false ->
  is_str (get m "status") "published" && hasChanged m "status" = false ->
  get (this st') "published_by"
  = if hasChanged m "published_by"
    then if truthy (previous m "published_by")
         then JStr (String_ toString_other (previous m "published_by"))
         else JNull
    else get m "published_by".
Proof.
  intros H Bs Bp Himp Hcond.
  apply onSaving_resolved in H as (t1 & m12 & m15 & t15 & _ & _ & Hr & Hp & Hops).
  destruct (before_publishedBy_keeps _ _ _ _ _ _ _ "status" Hr Hp Bs eq_refl)
    as [Gs Ps].
  destruct (before_publishedBy_keeps _ _ _ _ _ _ _ "published_by" Hr Hp Bp eq_refl)
    as [Gp Pp].
  pose proof (hasChanged_eq _ _ _ Gs Ps) as Cs.
  pose proof (hasChanged_eq _ _ _ Gp Pp) as Cp.
  rewrite (after_ops_get _ _ _ _ _ "published_by" Hops eq_refl).
  unfold afterPublishedAt.
  rewrite (se_get _ _ _ (setSendEmailWhenPublished_frame _ _ _)) by reflexivity.
  unfold setPublishedBy. cbn [saving_consts newStatus].
  rewrite Cs, Hcond, Cp, Himp, Pp. cbn [negb]. rewrite andb_true_r.
  destruct (hasChanged m "published_by"); [apply get_set_eq | exact Gp].
Qed.

End Kept.

Lemma publication_date_is_kept_witness :
  let m :=
    model_of "p1"
      [("status", JStr "published"); ("title", JStr "Hello");
       ("slug", JStr "hello"); ("mobiledoc", JStr "body");
       ("published_at", JDate (Some 1500000000000%Z))]
      [("status", JStr "draft"); ("title", JStr "Hello");
       ("slug", JStr "hello"); ("mobiledoc", JStr "body")] in
  let st' := snd (onSaving (C := fixture) update_options {| this := m; tick := 0 |}) in
  truthy (get m "published_at") = true
  /\ get (this st') "published_at" = JDate (Some 1500000000000%Z).
Proof.
  intros m st'.
  assert (Hrun : onSaving (C := fixture) update_options {| this := m; tick := 0 |}
                 = (Resolved tt, st')) by (vm_compute; reflexivity).
  assert (Bk : base_keeps (C := fixture) "published_at")
    by (intros ?; split; reflexivity).
  assert (Hat : truthy (get m "published_at") = true) by (vm_compute; reflexivity).
  split; [exact Hat |].
  rewrite (publication_date_is_kept (C := fixture) update_options m 0 st'
             Hrun Bk (or_intror Hat)).
  vm_compute. reflexivity.
Defined.

Lemma published_by_is_read_only_witness :
  let m :=
    model_of "p1"
      [("status", JStr "draft"); ("title", JStr "Hello");
       ("slug", JStr "hello"); ("mobiledoc", JStr "body");
       ("published_by", JStr "7")]
      [("status", JStr "draft"); ("title", JStr "Hello");
       ("slug", JStr "hello"); ("mobiledoc", JStr "body");
       ("published_by", JStr "1")] in
  let st' := snd (onSaving (C := fixture) update_options {| this := m; tick := 0 |}) in
  importing update_options = false
  /\ is_str (get m "status") "published" && hasChanged m "status" = false
  /\ get (this st') "published_by" = JStr "1".
Proof.
  intros m st'.
  assert (Hrun : onSaving (C := fixture) update_options {| this := m; tick := 0 |}
                 = (Resolved tt, st')) by (vm_compute; reflexivity).
  assert (Bs : base_keeps (C := fixture) "status") by (intros ?; split; reflexivity).
  assert (Bp : base_keeps (C := fixture) "published_by")
    by (intros ?; split; reflexivity).
  assert (Hcond : is_str (get m "status") "published" && hasChanged m "status" = false)
    by (vm_compute; reflexivity).
  split; [reflexivity |]. split; [exact Hcond |].
  rewrite (published_by_is_read_only (C := fixture) update_options m 0 st'
             Hrun Bs Bp eq_refl Hcond).
  vm_compute. reflexivity.
Defined.

(** ** Scheduling in time, and how a save can fail *)

Section InTime.
Context {C : Collaborators}.





End InTime.


(** ** The properties above on concrete inputs *)

Lemma insert_and_destroy_events_witness :
  let insert_options :=
    {| method := "insert"; importing := false; migrating := false;
       context := None; force_rerender := false;
       send_email_when_published := false; filter := false |} in
  let created :=
    model_of "p1" [("type", JStr "post"); ("status", JStr "published")] [] in
  let destroyed :=
    model_of "p1" [] [("type", JStr "post"); ("status", JStr "published")] in
  In (JStr "post", "published") (post_events (onSaved insert_options created))
  /\ In (JStr "post", "unpublished") (post_events (onDestroyed destroyed)).
Proof.
  intros insert_options created destroyed.
  assert (Hpublished : In (get created "type", "published")
                         (post_events (onSaved insert_options created))).
  { vm_compute. right. left. reflexivity. }
  assert (Hsame : previous destroyed "status" = get created "status")
    by (vm_compute; reflexivity).
  split; [exact Hpublished |].
  exact (proj1 (proj2 (proj2 (proj2 (proj2
           (insert_and_destroy_events insert_options created destroyed))))
           eq_refl Hsame) Hpublished).
Defined.

Lemma api_key_permission_is_required_witness :
  permissible (C := fixture)
    (model_of "p1" [("status", JStr "draft")] [("status", JStr "draft")])
    "edit" ∅
    {| user := Some [JObj [("name", JStr "Owner")]]; apiKey := None |}
    true false
  = Rejected (NoPermissionError "errors.models.post.notEnoughPermission").
Proof.
  exact (proj1 (api_key_permission_is_required (C := fixture)
                  (model_of "p1" [("status", JStr "draft")] [("status", JStr "draft")])
                  "edit" ∅
                  {| user := Some [JObj [("name", JStr "Owner")]]; apiKey := None |}
                  true false) eq_refl).
Defined.

Lemma findOne_status_conditions_witness :
  let env := {| subdomain := Some "texas" |} in
  add (C := fixture) env {["title" := JStr "Hello"]} update_options
  = Resolved (JObj [("id", JStr "new")]).
Proof.
  intros env.
  rewrite (proj1 (proj2 (proj2 (proj2
             (findOne_status_conditions (C := fixture) env
                {["title" := JStr "Hello"]} update_options))))
             {| model_id := JStr "new";
                attributes := addPost_data env {["title" := JStr "Hello"]};
                _previousAttributes := ∅; relations := ∅ |} eq_refl).
  vm_compute. reflexivity.
Defined.

Lemma status_filter_names_known_statuses_witness :
  let options :=
    {| Query.status := JStr "sent"; Query.context := JUndefined;
       Query.formats := None; Query.columns := None;
       Query.withRelated := None |} in
  fst (extraFilters options) = JStr "status:published".
Proof.
  intros options.
  apply (proj1 (proj2 (proj2 (proj2 (status_filter_names_known_statuses options))))).
  - reflexivity.
  - discriminate.
  - intros status Hin. cbn [In ALL_STATUSES] in Hin.
    destruct Hin as [<- | [<- | [<- | []]]]; discriminate.
Defined.

Lemma outsiders_get_published_posts_witness :
  let options :=
    {| Query.status := JUndefined;
       Query.context := JObj [("user", JNum 1)];
       Query.formats := None; Query.columns := None;
       Query.withRelated := None |} in
  context_flag options "internal" = false
  /\ (enforcedFilters options = JStr "status:published"
      \/ defaultFilters options = JStr "type:post+status:published").
Proof.
  intros options.
  assert (Hinternal : context_flag options "internal" = false) by reflexivity.
  split; [exact Hinternal |].
  exact (proj2 (proj2 (proj2 (proj2 (proj2
           (outsiders_get_published_posts options))))) Hinternal).
Defined.

Lemma toJSON_hides_revisions_and_formats_witness :
  let options :=
    {| Query.status := JUndefined; Query.context := JUndefined;
       Query.formats := Some ["plaintext"]; Query.columns := None;
       Query.withRelated := None |} in
  let base_toJSON := fun (m : Model) (_ : Query.Options) => attributes m in
  let post :=
    model_of "p1"
      [("html", JStr "<p>x</p>"); ("plaintext", JStr "x");
       ("mobiledoc_revisions", JArr [])] [] in
  let json := toJSON (fun o => o) base_toJSON post options in
  json !! "mobiledoc_revisions" = None
  /\ json !! "html" = None
  /\ json !! "plaintext" = Some (JStr "x").
Proof.
  intros options base_toJSON post json.
  destruct (toJSON_hides_revisions_and_formats (fun o => o) base_toJSON post options)
    as (Hrevisions & Hformats & _).
  split; [exact Hrevisions |]. split.
  - unfold json. rewrite Hformats; [vm_compute; reflexivity |].
    right. left. reflexivity.
  - unfold json. rewrite Hformats; [vm_compute; reflexivity |].
    right. right. left. reflexivity.
Defined.


Lemma default_relations_are_added_witness :
  let options :=
    {| Query.status := JUndefined; Query.context := JUndefined;
       Query.formats := None; Query.columns := Some ["id"; "title"];
       Query.withRelated := Some ["tags"] |} in
  let result := defaultRelations ["id"; "post_id"; "og_title"] "edit" options in
  In "authors" (default [] (Query.withRelated result))
  /\ ~ In "posts_meta" (default [] (Query.withRelated result)).
Proof.
  intros options result.
  destruct (default_relations_are_added ["id"; "post_id"; "og_title"] "edit" options)
    as (Hin & _).
  split.
  - apply Hin. right. left. split; [reflexivity | now left].
  - intros Hmeta. apply Hin in Hmeta.
    destruct Hmeta as [Hasked | [[_ [Hr | Hr]] | [Hwants _]]].
    + cbn in Hasked. destruct Hasked as [Hasked | []]. discriminate.
    + discriminate.
    + discriminate.
    + vm_compute in Hwants. discriminate.
Defined.

Lemma saved_url_addresses_the_upload_witness :
  let getUniqueFileName :=
    fun (image : LocalFileStore.Image) (targetDir : string) =>
      LocalFileStore.Fulfilled (targetDir ++ "/" ++ LocalFileStore.name image) in
  let bucket_upload :=
    fun (_ : string) (_ : LocalFileStore.UploadOptions) =>
      LocalFileStore.Fulfilled tt in
  let config :=
    {| LocalFileStore.hasOwn_assetDomain := false;
       LocalFileStore.config_insecure := JBool true;
       LocalFileStore.config_maxAge := JUndefined |} in
  let image := {| LocalFileStore.path := "/tmp/a.png"; LocalFileStore.name := "a.png" |} in
  fst (LocalFileStore.save "2020/01" getUniqueFileName bucket_upload
         (fun _ => "2678400") (LocalFileStore.constructor config) image)
  = LocalFileStore.Fulfilled
      "https://cdn-ghost.storage.googleapis.com/2020/01/a.png".
Proof.
  intros getUniqueFileName bucket_upload config image.
  destruct (proj2 (saved_url_addresses_the_upload "2020/01" getUniqueFileName
                     bucket_upload (fun _ => "2678400") config image)
              "2020/01/a.png" eq_refl)
    as (opts & _ & _ & _ & _ & Hdone).
  exact (Hdone tt eq_refl).
Defined.


